(** * RevenueGuard: the statistical inference pipeline, embedded and verified

    A shallow embedding of the analysis code of [src/analysis.js]
    (statistics primitives, lag search) and [src/revenueguard-server.js]
    (drift detection, attribution confidence, composite risk score, loss
    forecast, the six-step agent orchestration), with the properties the
    specification states about them.

    Modelling conventions.
    - The correlation code ([pearson], [laggedPearson],
      [bestLagCorrelation]) is embedded on IEEE-754 binary64 numbers
      (module [Double], over the primitive floats): its results are decided
      by rounding, overflow and [NaN], and the module computes them as the
      engine does.  [x.toFixed(4)] read back as a Number is a parameter
      there.
    - Elsewhere a JavaScript Number is a real number ([R]) and arithmetic
      is exact: the properties stated over [R] are about the comparisons,
      the case distinctions and the decimal roundings of the code, with
      the rounding error of the doubles, overflow and signed zeros left
      out.  There [NaN] only arises from an invalid [Date]; it is modelled
      by [None] where it can occur, and [parseFloat(x.toFixed(k))] is the
      decimal rounding [toFixed k x] (nearest multiple of [10^-k], ties
      away from zero).
    - Records are typed as the data model describes them; timestamps are
      strings compared the way JavaScript compares strings (code units).
    - A JavaScript object used as a map from day to counters is an
      association list in insertion order, which is the enumeration order
      of [Object.entries] for keys that are not array indices.  A key
      that names a property inherited from [Object.prototype] is never
      stored by the code ([Investigation.inherited] lists them); the
      properties of the per-day counters state that no day key is one.
    - [Array.prototype.sort] is an insertion sort, stable as ECMAScript
      requires.  With a comparator that is not consistent (a date that
      does not parse compares as [NaN]) the order is the engine's own;
      the properties of the latest deployment state that every deployment
      date parses.
    - The runtime's [Date] parser is a parameter of the development:
      [Date_parse s] is the time value in milliseconds, [None] for an
      invalid date.
    - The system clock is a parameter too: [clock k] is what its [k]-th
      reading shows.  The module-level state the agent path touches is
      threaded through the handler.
    - A template literal is kept as the list of its pieces, each value with
      the conversion the code applies to it; the rendering to characters is
      the runtime's. *)

From Stdlib Require Import Floats.
From Stdlib Require Import Reals Lra Lia List String Ascii ZArith Bool.
From Stdlib Require Import Sorted Permutation.
From Stdlib Require OrderedTypeEx.
Import ListNotations.

#[local] Open Scope R_scope.
#[local] Set Warnings "-inexact-float".
#[local] Arguments IZR _ : simpl never.

(* ================================================================= *)
(** ** JavaScript runtime primitives *)

Module JS.

(** [a < b], [a <= b], [a === b] on Numbers. *)
Definition ltb (a b : R) : bool := if Rlt_dec a b then true else false.
Definition leb (a b : R) : bool := if Rle_dec a b then true else false.
Definition gtb (a b : R) : bool := ltb b a.
Definition geb (a b : R) : bool := leb b a.
Definition eqb (a b : R) : bool := if Req_dec_T a b then true else false.

(** [arr.reduce((s, v) => s + f(v), 0)] *)
Definition sum_by {A} (f : A -> R) (arr : list A) : R :=
  fold_left (fun s v => s + f v) arr 0.

(** [arr.length] as a Number. *)
Definition len {A} (arr : list A) : R := INR (List.length arr).

(** [arr.slice(start)] for a non-negative [start]. *)
Definition slice_from {A} (start : nat) (arr : list A) : list A :=
  skipn start arr.

(** [arr.slice(0, end)]: a negative [end] counts from the end of the
    array, and the result is empty when it still falls before index 0. *)
Definition slice_to {A} (fin : Z) (arr : list A) : list A :=
  let n := Z.of_nat (List.length arr) in
  let k := if (fin <? 0)%Z then Z.max (n + fin) 0 else Z.min fin n in
  firstn (Z.to_nat k) arr.

(** [arr.slice(-k)]: the last [k] elements. *)
Definition slice_last {A} (k : nat) (arr : list A) : list A :=
  skipn (List.length arr - k) arr.

(** [str.slice(0, 10)] *)
Definition str_slice10 (s : string) : string := substring 0 10 s.

(** Truthiness of a string value. *)
Definition truthy (s : string) : bool := negb (String.eqb s "").

(** [parseFloat(x.toFixed(k))]: [toFixed] picks the integer [n] with
    [n / 10^k] nearest to [|x|], the larger one on a tie, and keeps the
    sign of [x]. *)
Definition pow10 (k : nat) : R := IZR (10 ^ Z.of_nat k).

Definition round_half_up (x : R) : Z := Zfloor (x + / 2).

Definition toFixed (k : nat) (x : R) : R :=
  if ltb x 0
  then - (IZR (round_half_up (- x * pow10 k)) / pow10 k)
  else IZR (round_half_up (x * pow10 k)) / pow10 k.

(** [x || 0] on a Number: [0] is the only falsy real. *)
Definition or_zero (x : R) : R := if eqb x 0 then 0 else x.

(** Insertion of [x] behind every element that does not have to come
    after it: [cmp y x > 0] means that [y] sorts after [x]. *)
Fixpoint sort_insert {A} (cmp : A -> A -> R) (x : A) (l : list A) : list A :=
  match l with
  | [] => [x]
  | y :: l' => if gtb (cmp y x) 0 then x :: y :: l'
               else y :: sort_insert cmp x l'
  end.

(** [arr.sort(cmp)]: a stable sort, as ECMAScript requires. *)
Definition sort {A} (cmp : A -> A -> R) (arr : list A) : list A :=
  fold_left (fun acc x => sort_insert cmp x acc) arr [].

(** The comparator of [arr.sort()] on strings. *)
Definition str_cmp (a b : string) : R :=
  if String.ltb a b then -1 else if String.ltb b a then 1 else 0.

End JS.

(* ================================================================= *)
(** ** analysis.js: statistics primitives over the reals *)

Module Analysis.

Definition mean (arr : list R) : R :=
  match arr with
  | [] => 0
  | _ => JS.sum_by (fun v => v) arr / JS.len arr
  end.

Definition stddev (arr : list R) : R :=
  if (List.length arr <? 2)%nat then 0
  else
    let m := mean arr in
    sqrt (JS.sum_by (fun v => (v - m) ^ 2) arr / (JS.len arr - 1)).

Definition zScore (value m sd : R) : R :=
  if JS.eqb sd 0 then 0 else (value - m) / sd.

(** The strength bucket of a correlation, over the reals. *)
Definition classifyCorrelation (r : R) : string :=
  let abs := Rabs r in
  if JS.geb abs 0.7 then "STRONG"
  else if JS.geb abs 0.4 then "MODERATE"
  else if JS.geb abs 0.2 then "WEAK"
  else "NEGLIGIBLE".

(** The object [bestLagCorrelation] returns, as the scores of the
    investigation read it. *)
Record LagCorrelation := { lag : nat; r : R; strength : string }.

(** The sum of squared deviations from [m], which [stddev] accumulates. *)
Definition squaredDeviations (m : R) (arr : list R) : R :=
  JS.sum_by (fun v => (v - m) ^ 2) arr.

End Analysis.

(* ================================================================= *)
(** ** analysis.js on binary64: correlation and lag search

    The Numbers of this module are IEEE-754 doubles: [+], [-], [*], [/]
    and [Math.sqrt] round to nearest (ties to even), [===], [>] and [>=]
    are the IEEE comparisons (false as soon as an operand is [NaN]). *)

Module Double.
#[local] Open Scope float_scope.

(** [arr.length] as a Number (exact: an array has fewer than [2^32]
    elements). *)
Definition len {A} (arr : list A) : float :=
  PrimFloat.of_uint63 (Uint63.of_Z (Z.of_nat (List.length arr))).

Definition mean (arr : list float) : float :=
  match arr with
  | [] => 0
  | _ => fold_left (fun s v => s + v) arr 0 / len arr
  end.

(** [arr.reduce((s, v) => s + (v - m) ** 2, 0)], the square taken as the
    product [(v - m) * (v - m)]; the loop of [pearson] accumulates the same
    sum in [dx2] and [dy2]. *)
Definition squaredDeviations (m : float) (arr : list float) : float :=
  fold_left (fun s v => s + (v - m) * (v - m)) arr 0.

Definition stddev (arr : list float) : float :=
  if (List.length arr <? 2)%nat then 0
  else
    let m := mean arr in
    PrimFloat.sqrt (squaredDeviations m arr / (len arr - 1)).

(** The accumulators [num], [dx2], [dy2] of the loop in [pearson]. *)
Record Acc := { num : float; dx2 : float; dy2 : float }.

(** One iteration; [xs[i]] is only read for [i] below both lengths. *)
Definition pearson_step (xs ys : list float) (mx my : float) (a : Acc) (i : nat)
  : Acc :=
  let dx := nth i xs nan - mx in
  let dy := nth i ys nan - my in
  {| num := num a + dx * dy; dx2 := dx2 a + dx * dx; dy2 := dy2 a + dy * dy |}.

Definition pearson (xs ys : list float) : float :=
  let n := Nat.min (List.length xs) (List.length ys) in
  if (n <? 3)%nat then 0
  else
    let mx := mean (JS.slice_to (Z.of_nat n) xs) in
    let my := mean (JS.slice_to (Z.of_nat n) ys) in
    let a := fold_left (pearson_step xs ys mx my) (seq 0 n)
               {| num := 0; dx2 := 0; dy2 := 0 |} in
    let denom := PrimFloat.sqrt (dx2 a * dy2 a) in
    if denom =? 0 then 0 else num a / denom.

Definition laggedPearson (xs ys : list float) (lag : nat) : float :=
  let xSlice := JS.slice_to (Z.of_nat (List.length xs) - Z.of_nat lag) xs in
  let ySlice := JS.slice_from lag ys in
  pearson xSlice ySlice.

Definition classifyCorrelation (r : float) : string :=
  let abs := abs r in
  if 0.7 <=? abs then "STRONG"
  else if 0.4 <=? abs then "MODERATE"
  else if 0.2 <=? abs then "WEAK"
  else "NEGLIGIBLE".

(** The value [best] of the search loop, and the returned object. *)
Record Best := { best_lag : nat; best_r : float }.

Record LagCorrelation := { lag : nat; r : float; strength : string }.

(** [if (Math.abs(r) > Math.abs(best.r)) best = { lag, r }] *)
Definition lag_step (xs ys : list float) (best : Best) (lag : nat) : Best :=
  let r := laggedPearson xs ys lag in
  if abs (best_r best) <? abs r
  then {| best_lag := lag; best_r := r |}
  else best.

Definition bestLagSearch (xs ys : list float) (maxLag : nat) : Best :=
  fold_left (lag_step xs ys) (seq 1 maxLag)
    {| best_lag := 0; best_r := pearson xs ys |}.

(** [toFixed k x] stands for [+x.toFixed(k)], the decimal rounding of the
    runtime; the search does not depend on it. *)
Definition bestLagCorrelation (toFixed : nat -> float -> float)
    (xs ys : list float) (maxLag : option nat) : LagCorrelation :=
  let maxLag := match maxLag with None => 3%nat | Some m => m end in
  let best := bestLagSearch xs ys maxLag in
  {| lag := best_lag best;
     r := toFixed 4%nat (best_r best);
     strength := classifyCorrelation (best_r best) |}.

(** The correlation the search evaluates at a given lag. *)
Definition candidate (xs ys : list float) (k : nat) : float :=
  match k with
  | O => pearson xs ys
  | _ => laggedPearson xs ys k
  end.

(** The accumulators with the roles of the two series exchanged. *)
Definition acc_swap (a : Acc) : Acc :=
  {| num := num a; dx2 := dy2 a; dy2 := dx2 a |}.

(** Two series whose correlation at lag 0 overflows, while the values
    that remain at lag 1 are the same on both sides. *)
Module Overflow.
Definition xs : list float := [1; 2; 3; 4; 1e200].
Definition ys : list float := [1e200; 1; 2; 3; 4].
End Overflow.

End Double.

(* ================================================================= *)
(** ** Record shapes consumed by the server *)

Module Invoice.
Record t := { service : string; timestamp : string;
              amountBilled : R; amountExpected : R }.
End Invoice.

Module SysEvent.
Record t := { service : string; eventType : string;
              version : string; timestamp : string }.
End SysEvent.

Module Txn.
Record t := { status : string; timestamp : string }.
End Txn.

Module ChurnEvent.
Record t := { timestamp : string }.
End ChurnEvent.

(** [inv.amountBilled < inv.amountExpected] *)
Definition underbilled (inv : Invoice.t) : bool :=
  JS.ltb (Invoice.amountBilled inv) (Invoice.amountExpected inv).

(** [a >= b] on strings. *)
Definition str_geb (a b : string) : bool := negb (String.ltb a b).

(* ================================================================= *)
(** ** revenueguard-server.js: statistical drift detection *)

Module DailyDrift.
Record t := { date : string; anomalyRate : R; driftFactor : R }.
End DailyDrift.

Module DriftResult.
Record t := { baselineRate : R; currentRate : R; driftFactor : R;
              stdDev : R; zScore : R; statistical_significance : string;
              spike : bool; threshold : R; dailyDrift : list DailyDrift.t }.
End DriftResult.

Module Drift.

(** The value [{ total, anomalies }] kept per day. *)
Record DayCount := { total : nat; anomalies : nat }.

Definition ByDay := list (string * DayCount).

(** One iteration of the grouping loop: create the day's counters when
    they are missing, count the invoice, count it as an anomaly. *)
Fixpoint bump (day : string) (anomalous : bool) (byDay : ByDay) : ByDay :=
  match byDay with
  | [] => [(day, {| total := 1; anomalies := if anomalous then 1 else 0 |})]
  | (d, v) :: rest =>
      if String.eqb d day
      then (d, {| total := S (total v);
                  anomalies := if anomalous then S (anomalies v)
                               else anomalies v |}) :: rest
      else (d, v) :: bump day anomalous rest
  end.

(** [byDay[day]]; the code only reads days it has stored. *)
Fixpoint get (byDay : ByDay) (day : string) : DayCount :=
  match byDay with
  | [] => {| total := 0; anomalies := 0 |}
  | (d, v) :: rest => if String.eqb d day then v else get rest day
  end.

(** [v.anomalies / v.total] *)
Definition rate (v : DayCount) : R := INR (anomalies v) / INR (total v).

(** A stored day has counted at least one invoice, and no more anomalies
    than invoices. *)
Definition day_wf (e : string * DayCount) : Prop :=
  (1 <= total (snd e))%nat /\ (anomalies (snd e) <= total (snd e))%nat.

Section Locals.
Variables (invoices : list Invoice.t) (service : option string)
          (baselineEnd : string) (driftThreshold : R).

Definition filtered : list Invoice.t :=
  match service with
  | Some s => if JS.truthy s
              then filter (fun inv => String.eqb (Invoice.service inv) s) invoices
              else invoices
  | None => invoices
  end.

Definition byDay : ByDay :=
  fold_left (fun acc inv =>
               bump (JS.str_slice10 (Invoice.timestamp inv)) (underbilled inv) acc)
            filtered [].

Definition baselineDays : list R :=
  map (fun e => rate (snd e))
      (filter (fun e => String.ltb (fst e) baselineEnd) byDay).

Definition baselineRate : R :=
  if (0 <? List.length baselineDays)%nat
  then JS.sum_by (fun r => r) baselineDays / JS.len baselineDays
  else 0.

Definition sortedDays : list string := JS.sort JS.str_cmp (map fst byDay).

Definition recentDays : list string := JS.slice_last 3 sortedDays.

Definition recentRates : list R := map (fun d => rate (get byDay d)) recentDays.

Definition currentRate : R :=
  if (0 <? List.length recentRates)%nat
  then JS.sum_by (fun r => r) recentRates / JS.len recentRates
  else 0.

Definition driftFactor : R :=
  if JS.gtb baselineRate 0 then currentRate / baselineRate else 0.

Definition spike : bool := JS.gtb driftFactor driftThreshold.

Definition variance : R :=
  if (1 <? List.length baselineDays)%nat
  then JS.sum_by (fun r => (r - baselineRate) ^ 2) baselineDays
       / (JS.len baselineDays - 1)
  else 0.0001.

Definition stdDev : R := sqrt variance.

Definition zScore : R :=
  if JS.gtb stdDev 0 then (currentRate - baselineRate) / stdDev else 0.

Definition statistical_significance : string :=
  if JS.gtb zScore 3.0 then "HIGH_SIGNAL"
  else if JS.gtb zScore 2.0 then "MODERATE"
  else "NOISE".

Definition dailyDrift : list DailyDrift.t :=
  map (fun day =>
         {| DailyDrift.date := day;
            DailyDrift.anomalyRate := JS.toFixed 2 (rate (get byDay day) * 100);
            DailyDrift.driftFactor :=
              if JS.gtb baselineRate 0
              then JS.toFixed 2 (rate (get byDay day) / baselineRate)
              else 0 |})
      sortedDays.

End Locals.

End Drift.

Definition computeDriftDetection (invoices : list Invoice.t)
    (service : option string) (baselineEnd : string) (driftThreshold : R)
  : DriftResult.t :=
  {| DriftResult.baselineRate :=
       JS.toFixed 2 (Drift.baselineRate invoices service baselineEnd * 100);
     DriftResult.currentRate :=
       JS.toFixed 2 (Drift.currentRate invoices service * 100);
     DriftResult.driftFactor :=
       JS.toFixed 2 (Drift.driftFactor invoices service baselineEnd);
     DriftResult.stdDev :=
       JS.toFixed 4 (Drift.stdDev invoices service baselineEnd * 100);
     DriftResult.zScore :=
       JS.toFixed 2 (Drift.zScore invoices service baselineEnd);
     DriftResult.statistical_significance :=
       Drift.statistical_significance invoices service baselineEnd;
     DriftResult.spike := Drift.spike invoices service baselineEnd driftThreshold;
     DriftResult.threshold := driftThreshold;
     DriftResult.dailyDrift := Drift.dailyDrift invoices service baselineEnd |}.

(** The defaults of the parameters the callers leave out. *)
Definition default_baselineEnd : string := "2026-02-10".
Definition default_driftThreshold : R := 3.0.

Definition findSpikeStart (dailyDrift : list DailyDrift.t) (threshold : R)
  : option string :=
  match find (fun d => JS.gtb (DailyDrift.driftFactor d) threshold) dailyDrift with
  | Some spike => Some (DailyDrift.date spike)
  | None => None
  end.

(* ================================================================= *)
(** ** revenueguard-server.js: recency, confidence and risk engines *)

Module Confidence.
Record t := { confidence : R; classification : string; temporalScore : R;
              spikeStart : option string; rateBefore : R; rateAfter : R }.
End Confidence.

Module Recency.
(** [None] stands for [NaN], the result for an invalid date. *)
Record t := { daysSinceDeployment : option R; decayConstant : option R;
              recencyFactor : option R }.
End Recency.

Module AnomalyRateComponent.
Record t := { raw : R; normalized : R; weight : R; contribution : R }.
End AnomalyRateComponent.

Module FinancialImpactComponent.
Record t := { lossRatio : R; normalized : R; weight : R; contribution : R }.
End FinancialImpactComponent.

Module DeploymentRecencyComponent.
(** [{ ...recency, weight, contribution }] *)
Record t := { recency : Recency.t; weight : R; contribution : option R }.
End DeploymentRecencyComponent.

Module RiskScore.
Record t := { score : option R; category : string;
              anomalyRate : AnomalyRateComponent.t;
              financialImpact : FinancialImpactComponent.t;
              deploymentRecency : DeploymentRecencyComponent.t }.
End RiskScore.

(** [1000 * 60 * 60 * 24] *)
Definition msPerDay : R := 1000 * 60 * 60 * 24.

(** [new Date(s).getTime()] is a parameter [Date_parse] of everything below
    that reads a date: milliseconds since the epoch, [None] for an invalid
    date. *)
Definition DateParser := string -> option Z.

(** [(new Date(a) - new Date(b)) / (1000 * 60 * 60 * 24)] *)
Definition dateDiffDays (Date_parse : DateParser) (a b : string) : option R :=
  match Date_parse a, Date_parse b with
  | Some ta, Some tb => Some (IZR (ta - tb) / msPerDay)
  | _, _ => None
  end.

Definition computeRecencyFactor (Date_parse : DateParser)
    (deploymentTimestamp : string) (decayConstant : R) : Recency.t :=
  let daysSince :=
    dateDiffDays Date_parse "2026-02-21T23:59:59Z" deploymentTimestamp in
  let factor := option_map (fun d => exp (- d / decayConstant)) daysSince in
  {| Recency.daysSinceDeployment := option_map (JS.toFixed 1) daysSince;
     Recency.decayConstant := Some decayConstant;
     Recency.recencyFactor := option_map (JS.toFixed 4) factor |}.

Module Conf.

Section Locals.
Variables (Date_parse : DateParser) (invoices : list Invoice.t)
          (service : string) (deploymentDate : string).

Definition serviceInvoices : list Invoice.t :=
  filter (fun inv => String.eqb (Invoice.service inv) service) invoices.

Definition drift : DriftResult.t :=
  computeDriftDetection serviceInvoices None
    default_baselineEnd default_driftThreshold.

Definition spikeStart : option string :=
  findSpikeStart (DriftResult.dailyDrift drift) 2.0.

Definition before : list Invoice.t :=
  filter (fun inv => String.ltb (Invoice.timestamp inv) deploymentDate)
         serviceInvoices.

Definition after : list Invoice.t :=
  filter (fun inv => str_geb (Invoice.timestamp inv) deploymentDate)
         serviceInvoices.

Definition anomaliesBefore : nat := List.length (filter underbilled before).
Definition anomaliesAfter : nat := List.length (filter underbilled after).

Definition rateBefore : R :=
  if (0 <? List.length before)%nat
  then INR anomaliesBefore / JS.len before else 0.

Definition rateAfter : R :=
  if (0 <? List.length after)%nat
  then INR anomaliesAfter / JS.len after else 0.

(** A comparison with [NaN] is false, so an invalid date leaves the
    score at [0]. *)
Definition temporalScore : R :=
  match spikeStart with
  | Some s =>
      if JS.truthy s then
        match dateDiffDays Date_parse s (JS.str_slice10 deploymentDate) with
        | Some diffDays =>
            if JS.geb diffDays 0 && JS.leb diffDays 1 then 1.0
            else if JS.gtb diffDays 1 && JS.leb diffDays 3 then 0.7
            else if JS.ltb diffDays 0 then -0.5
            else 0
        | None => 0
        end
      else 0
  | None => 0
  end.

Definition impactDelta : R := rateAfter - rateBefore.

Definition confidence : R :=
  (temporalScore * 0.6) + (Rmin (impactDelta * 5) 0.4).

Definition clampedConfidence : R := Rmax (-1) (Rmin 1 confidence).

Definition classification : string :=
  if JS.geb clampedConfidence 0.7 then "STRONG CAUSAL LINK"
  else if JS.geb clampedConfidence 0.3 then "MODERATE CORRELATION"
  else if JS.geb clampedConfidence 0 then "WEAK SIGNAL"
  else "INVERSE CORRELATION".

End Locals.

End Conf.

Definition computeConfidence (Date_parse : DateParser)
    (invoices : list Invoice.t) (service deploymentDate : string)
  : Confidence.t :=
  {| Confidence.confidence :=
       JS.toFixed 4 (Conf.clampedConfidence Date_parse invoices service deploymentDate);
     Confidence.classification :=
       Conf.classification Date_parse invoices service deploymentDate;
     Confidence.temporalScore :=
       Conf.temporalScore Date_parse invoices service deploymentDate;
     Confidence.spikeStart := Conf.spikeStart invoices service;
     Confidence.rateBefore :=
       JS.toFixed 2 (Conf.rateBefore invoices service deploymentDate * 100);
     Confidence.rateAfter :=
       JS.toFixed 2 (Conf.rateAfter invoices service deploymentDate * 100) |}.

Module Risk.

Section Locals.
Variables (Date_parse : DateParser) (invoices : list Invoice.t)
          (events : list SysEvent.t).

Definition totalInvoices : nat := List.length invoices.

Definition anomalies : list Invoice.t := filter underbilled invoices.

Definition anomalyRate : R :=
  if (0 <? totalInvoices)%nat
  then JS.len anomalies / INR totalInvoices else 0.

Definition totalExpected : R := JS.sum_by Invoice.amountExpected invoices.
Definition totalBilled : R := JS.sum_by Invoice.amountBilled invoices.
Definition totalLoss : R := totalExpected - totalBilled.

Definition lossRatio : R :=
  if JS.gtb totalExpected 0 then totalLoss / totalExpected else 0.

(** [new Date(b.timestamp) - new Date(a.timestamp)]; a comparator
    result of [NaN] counts as [0]. *)
Definition byDateDesc (a b : SysEvent.t) : R :=
  match Date_parse (SysEvent.timestamp b), Date_parse (SysEvent.timestamp a) with
  | Some tb, Some ta => IZR (tb - ta)
  | _, _ => 0
  end.

Definition deployments : list SysEvent.t :=
  JS.sort byDateDesc
    (filter (fun e => String.eqb (SysEvent.eventType e) "deployment") events).

Definition latestDeployment : option SysEvent.t := hd_error deployments.

Definition recency : Recency.t :=
  match latestDeployment with
  | Some d => computeRecencyFactor Date_parse (SysEvent.timestamp d) 7
  | None => {| Recency.recencyFactor := Some 0;
               Recency.daysSinceDeployment := Some 999;
               Recency.decayConstant := None |}
  end.

Definition anomalyRateNorm : R := Rmin (anomalyRate * 2) 1.0.
Definition lossNorm : R := Rmin (lossRatio * 10) 1.0.

Definition score : option R :=
  option_map (fun rf => (anomalyRateNorm * 0.4) + (lossNorm * 0.35) + (rf * 0.25))
             (Recency.recencyFactor recency).

(** Every deployment event carries a date that parses.  The comparator of
    the sort is then a consistent comparison, and [deployments] is the
    order every stable sort produces. *)
Definition deployments_parse : Prop :=
  forall e, In e events -> SysEvent.eventType e = "deployment"%string ->
    Date_parse (SysEvent.timestamp e) <> None.

(** Every deployment event carries a valid date, not later than the
    reference instant the recency model is anchored at. *)
Definition deployments_dated : Prop :=
  forall e, In e events -> SysEvent.eventType e = "deployment"%string ->
    exists t n, Date_parse (SysEvent.timestamp e) = Some t /\
                Date_parse "2026-02-21T23:59:59Z"%string = Some n /\
                (t <= n)%Z.

(** Every comparison with a [NaN] score is false. *)
Definition category : string :=
  match score with
  | Some s => if JS.gtb s 0.8 then "CRITICAL"
              else if JS.gtb s 0.6 then "HIGH"
              else if JS.gtb s 0.3 then "MEDIUM"
              else "LOW"
  | None => "LOW"
  end.

End Locals.

End Risk.

Definition computeRiskScore (Date_parse : DateParser)
    (invoices : list Invoice.t) (events : list SysEvent.t) : RiskScore.t :=
  let anomalyRateNorm := Risk.anomalyRateNorm invoices in
  let lossNorm := Risk.lossNorm invoices in
  let recency := Risk.recency Date_parse events in
  {| RiskScore.score := option_map (JS.toFixed 4) (Risk.score Date_parse invoices events);
     RiskScore.category := Risk.category Date_parse invoices events;
     RiskScore.anomalyRate :=
       {| AnomalyRateComponent.raw := JS.toFixed 2 (Risk.anomalyRate invoices * 100);
          AnomalyRateComponent.normalized := JS.toFixed 4 anomalyRateNorm;
          AnomalyRateComponent.weight := 0.4;
          AnomalyRateComponent.contribution := JS.toFixed 4 (anomalyRateNorm * 0.4) |};
     RiskScore.financialImpact :=
       {| FinancialImpactComponent.lossRatio :=
            JS.toFixed 4 (Risk.lossRatio invoices * 100);
          FinancialImpactComponent.normalized := JS.toFixed 4 lossNorm;
          FinancialImpactComponent.weight := 0.35;
          FinancialImpactComponent.contribution := JS.toFixed 4 (lossNorm * 0.35) |};
     RiskScore.deploymentRecency :=
       {| DeploymentRecencyComponent.recency := recency;
          DeploymentRecencyComponent.weight := 0.25;
          DeploymentRecencyComponent.contribution :=
            option_map (fun rf => JS.toFixed 4 (rf * 0.25))
                       (Recency.recencyFactor recency) |} |}.

(* ================================================================= *)
(** ** revenueguard-server.js: the [financialLoss] object of
       [GET /api/financial-loss] *)

Module FinancialLoss.
Record t := { totalLoss : R; observed_loss : R; projected_monthly_loss : R;
              projected_annualized_loss : R; revenue_at_risk_percentage : R }.
End FinancialLoss.

Module Loss.

Section Locals.
Variables (invoices : list Invoice.t) (service : option string).

Definition filtered : list Invoice.t := Drift.filtered invoices service.

Definition anomalies : list Invoice.t := filter underbilled filtered.

Definition totalLoss : R :=
  JS.sum_by (fun inv => Invoice.amountExpected inv - Invoice.amountBilled inv)
            anomalies.

Definition monthlyLoss : R := totalLoss / 21 * 30.
Definition annualizedLoss : R := totalLoss / 21 * 365.

Definition totalExpected : R := JS.sum_by Invoice.amountExpected filtered.

Definition revenueAtRiskPercentage : R :=
  if JS.gtb totalExpected 0 then totalLoss / totalExpected * 100 else 0.

End Locals.

End Loss.

Definition financialLoss (invoices : list Invoice.t) (service : option string)
  : FinancialLoss.t :=
  {| FinancialLoss.totalLoss := JS.toFixed 2 (Loss.totalLoss invoices service);
     FinancialLoss.observed_loss := JS.toFixed 2 (Loss.totalLoss invoices service);
     FinancialLoss.projected_monthly_loss :=
       JS.toFixed 2 (Loss.monthlyLoss invoices service);
     FinancialLoss.projected_annualized_loss :=
       JS.toFixed 2 (Loss.annualizedLoss invoices service);
     FinancialLoss.revenue_at_risk_percentage :=
       JS.toFixed 2 (Loss.revenueAtRiskPercentage invoices service) |}.

(* ================================================================= *)
(** ** revenueguard-server.js: agent tools and [POST /api/agent/analyze] *)

(** Text built by a template literal: the literal parts and the values
    spliced in, each with the conversion the code applies to it.  The
    runtime renders a piece to characters; equal texts render equally. *)
Inductive piece : Type :=
| Lit (s : string)            (* literal text, or a string value *)
| Num (x : R)                 (* a Number converted by the template *)
| Fixed (k : nat) (x : R)     (* [x.toFixed(k)] *)
| Locale (x : R)              (* [x.toLocaleString()] *)
| Iso (ms : Z).               (* [new Date(ms).toISOString()] *)

Definition text := list piece.

(** A value of an evidence map. *)
Inductive jsval : Type :=
| VNum (x : R)
| VText (t : text).

(** [`${v}`] *)
Definition splice (v : jsval) : text :=
  match v with
  | VNum x => [Num x]
  | VText t => t
  end.

(** [parts.join(sep)] *)
Fixpoint join (sep : text) (parts : list text) : text :=
  match parts with
  | [] => []
  | [t] => t
  | t :: rest => t ++ sep ++ join sep rest
  end.

Module Forecast.
Record t := { observed_loss : R; monthly_projection : R;
              annualized_risk : R; protected_arr : R }.
End Forecast.

Module Culprit.
Record t := { version : string; timestamp : string; confidence : R;
              classification : string; spikeStart : option string }.
End Culprit.

Module Decision.
Record t := { verdict : string; recommended_actions : list string;
              confidence : R }.
End Decision.

Module TraceStep.
Record t := { step : string; evidence : list (string * jsval) }.
End TraceStep.

Module AuditEntry.
Record t := { timestamp : Z; index : string; label : string;
              recordCount : nat }.
End AuditEntry.

Module Metadata.
Record t := { id : text; service : string; query : string;
              timestamp : text; role : string }.
End Metadata.

Module MeasurableImpact.
Record t := { time_saved : string; manual_steps_removed : nat;
              potential_arr_protected : R }.
End MeasurableImpact.

Module FinancialImpact.
Record t := { observed_loss : R; failed_transactions : nat;
              correlated_churn_events : nat; arr_risk : R }.
End FinancialImpact.

Module ReasoningTrace.
Record t := { steps : list TraceStep.t; confidence : R; mode : string }.
End ReasoningTrace.

Module ReasoningStep.
Record t := { step : string; delta : text }.
End ReasoningStep.

Module Report.
Record t := { metadata : Metadata.t;
              measurable_impact : MeasurableImpact.t;
              verdict : string;
              culprit : option Culprit.t;
              financial_impact : FinancialImpact.t;
              reasoning_trace : ReasoningTrace.t;
              reasoning_steps : list ReasoningStep.t;
              executive_summary : text;
              recommended_actions : list string;
              confidence_score : R }.
End Report.

Module AgentLog.
Record t := { id : text; timestamp : text; action : string; tool : string;
              query : string; reasoning : text; output : Report.t }.
End AgentLog.

(** The module-level state of the server that the agent path touches, and
    the number of times the system clock has been read. *)
Record ServerState := {
  clockReads : nat;
  queryAuditLog : list AuditEntry.t;
  lastReasoningTrace : option ReasoningTrace.t;
  cachedAgentLogs : list AgentLog.t }.

(** The record collections the handler loads. *)
Record Collections := {
  invoices : list Invoice.t;
  events : list SysEvent.t;
  transactions : list Txn.t;
  churn : list ChurnEvent.t }.

(** [req.body] *)
Record Body := { body_service : option string; body_query : option string }.

(** The reply of the handler: [503] in limited mode, else the report. *)
Inductive Response : Type :=
| LimitedMode (status message : string)
| Ok (report : Report.t).

(** Computations that read the clock and update the server state. *)
Definition M (A : Type) : Type := ServerState -> A * ServerState.

Definition ret {A} (a : A) : M A := fun st => (a, st).

Definition bind {A B} (c : M A) (k : A -> M B) : M B :=
  fun st => let (a, st') := c st in k a st'.

Notation "x <- c ;; k" := (bind c (fun x => k))
  (at level 61, c at next level, right associativity).
Notation "c ;;; k" := (bind c (fun _ => k))
  (at level 61, right associativity).

Definition forecast_loss (totalLoss : R) : Forecast.t :=
  {| Forecast.observed_loss := totalLoss;
     Forecast.monthly_projection := totalLoss * 1.4;
     Forecast.annualized_risk := totalLoss * 12 * 0.2;
     Forecast.protected_arr := totalLoss * 8 |}.

(** [culprit?.confidence > 0.5]: false when there is no culprit. *)
Definition culprit_confident (culprit : option Culprit.t) : bool :=
  match culprit with
  | Some c => JS.gtb (Culprit.confidence c) 0.5
  | None => false
  end.

Definition generate_decision (culprit : option Culprit.t) (drift : DriftResult.t)
  : Decision.t :=
  let actions :=
    match culprit with
    | Some c =>
        if JS.gtb (Culprit.confidence c) 0.5
        then [("Roll back " ++ Culprit.version c ++ " immediately")%string;
              "Verify pricing lookup cache"%string]
        else ["Initiate cross-service telemetry audit"%string;
              "Monitor transaction success rates"%string]
    | None => ["Initiate cross-service telemetry audit"%string;
               "Monitor transaction success rates"%string]
    end in
  {| Decision.verdict :=
       if culprit_confident culprit then "CAUSAL_LINK_CONFIRMED"
       else "ANOMALY_DETECTED_UNCLEAR_CAUSE";
     Decision.recommended_actions := actions;
     Decision.confidence :=
       match culprit with
       | Some c => JS.or_zero (Culprit.confidence c)
       | None => 0
       end |}.

(** [s || fallback] on a string that may be missing. *)
Definition str_or (s : option string) (fallback : string) : string :=
  match s with
  | Some v => if JS.truthy v then v else fallback
  | None => fallback
  end.

Definition buildReasoningTrace (drift : DriftResult.t)
    (culprit : option Culprit.t) (totalLoss : R)
    (failedTransactions churnCount : nat) (forecast : Forecast.t)
    (decision : Decision.t) : list TraceStep.t :=
  [ {| TraceStep.step := "Detect (ES|QL)";
       TraceStep.evidence :=
         [ ("drift_factor"%string,
            VText [Fixed 1 (DriftResult.driftFactor drift); Lit "x"]);
           ("statistical_significance"%string,
            VText [Lit (DriftResult.statistical_significance drift)]);
           ("z_score"%string, VNum (DriftResult.zScore drift)) ] |};
    {| TraceStep.step := "Investigate (Deployments)";
       TraceStep.evidence :=
         [ ("candidate_deployments"%string,
            VNum (match culprit with Some _ => 1 | None => 0 end));
           ("selected_culprit"%string,
            VText [Lit (str_or (option_map Culprit.version culprit) "None")]);
           ("causal_confidence"%string,
            VText [Fixed 1 (match culprit with
                            | Some c => JS.or_zero (Culprit.confidence c * 100)
                            | None => 0
                            end); Lit "%"]) ] |};
    {| TraceStep.step := "Correlate (Transactions)";
       TraceStep.evidence :=
         [ ("failed_payments"%string, VNum (INR failedTransactions));
           ("correlation_window"%string, VText [Lit "Spike Start to Now"]) ] |};
    {| TraceStep.step := "Correlate (Churn)";
       TraceStep.evidence :=
         [ ("churn_escalations"%string, VNum (INR churnCount));
           ("signal_alignment"%string, VText [Lit "Moderate-High"]) ] |};
    {| TraceStep.step := "Quantify (Impact)";
       TraceStep.evidence :=
         [ ("observed_loss"%string,
            VText [Lit "$"; Locale (Forecast.observed_loss forecast)]);
           ("protected_arr"%string,
            VText [Lit "$"; Locale (Forecast.protected_arr forecast)]) ] |};
    {| TraceStep.step := "Decide (Autonomous)";
       TraceStep.evidence :=
         [ ("verdict"%string, VText [Lit (Decision.verdict decision)]);
           ("actions"%string,
            VText [Lit (String.concat ", " (Decision.recommended_actions decision))]) ] |} ].

(** [spikeStart && ts >= spikeStart] *)
Definition since_spike (spikeStart : option string) (ts : string) : bool :=
  match spikeStart with
  | Some s => JS.truthy s && str_geb ts s
  | None => false
  end.

Definition executive_summary (service : string) (drift : DriftResult.t)
    (culprit : option Culprit.t) (totalLoss : R)
    (failedTransactions churnCount : nat) : text :=
  match culprit with
  | Some c =>
      if JS.gtb (Culprit.confidence c) 0.5 then
        [ Lit "["; Lit service; Lit "] Autonomous investigation confirmed a ";
          Lit (Culprit.classification c); Lit " between the ";
          Lit (Culprit.version c);
          Lit " deployment and the revenue leak initiated on ";
          Lit (match Culprit.spikeStart c with Some s => s | None => "null" end);
          Lit ". Observed $"; Fixed 2 totalLoss; Lit " in losses with ";
          Num (INR failedTransactions);
          Lit " correlated transaction failures and a ";
          Num (INR churnCount); Lit "-event churn spike. Drift factor: ";
          Num (DriftResult.driftFactor drift); Lit "x." ]
      else
        [ Lit "["; Lit service;
          Lit "] Multi-signal analysis indicates statistical drift factor of ";
          Num (DriftResult.driftFactor drift); Lit "x with $";
          Fixed 2 totalLoss;
          Lit " in observed losses. No primary deployment culprit identified with high confidence. ";
          Num (INR failedTransactions); Lit " failed transactions and ";
          Num (INR churnCount);
          Lit " churn events detected. Recommendations: Audit secondary service dependencies." ]
  | None =>
      [ Lit "["; Lit service;
        Lit "] Multi-signal analysis indicates statistical drift factor of ";
        Num (DriftResult.driftFactor drift); Lit "x with $";
        Fixed 2 totalLoss;
        Lit " in observed losses. No primary deployment culprit identified with high confidence. ";
        Num (INR failedTransactions); Lit " failed transactions and ";
        Num (INR churnCount);
        Lit " churn events detected. Recommendations: Audit secondary service dependencies." ]
  end.

Section Agent.

Variables (Date_parse : DateParser).
(** What the system clock shows at its [k]-th reading; whether the
    deployment insists on Elasticsearch. *)
Variables (clock : nat -> Z) (ES_REQUIRED : bool).

(** [Date.now()], [new Date()] *)
Definition readClock : M Z :=
  fun st => (clock (clockReads st),
             {| clockReads := S (clockReads st);
                queryAuditLog := queryAuditLog st;
                lastReasoningTrace := lastReasoningTrace st;
                cachedAgentLogs := cachedAgentLogs st |}).

Definition logAnalyticProof (index label : string) (count : nat) : M unit :=
  now <- readClock ;;
  fun st =>
    let pushed := queryAuditLog st ++
                  [ {| AuditEntry.timestamp := now; AuditEntry.index := index;
                       AuditEntry.label := label;
                       AuditEntry.recordCount := count |} ] in
    (tt, {| clockReads := clockReads st;
            queryAuditLog := if (50 <? List.length pushed)%nat
                             then tl pushed else pushed;
            lastReasoningTrace := lastReasoningTrace st;
            cachedAgentLogs := cachedAgentLogs st |}).

Definition get_anomaly_stats (serviceInvoices : list Invoice.t)
  : M DriftResult.t :=
  let drift := computeDriftDetection serviceInvoices None
                 default_baselineEnd default_driftThreshold in
  logAnalyticProof "invoices" "Tool: Anomaly Detection"
                   (List.length serviceInvoices) ;;;
  ret drift.

Definition get_deployment_history (service : string) (events : list SysEvent.t)
  : M (list SysEvent.t) :=
  let history :=
    filter (fun e => String.eqb (SysEvent.service e) service
                     && String.eqb (SysEvent.eventType e) "deployment") events in
  logAnalyticProof "system_events" "Tool: Deployment History"
                   (List.length history) ;;;
  ret history.

Definition get_transaction_failures (transactions : list Txn.t)
    (spikeStart : option string) : M nat :=
  let failures :=
    filter (fun t => String.eqb (Txn.status t) "FAILED"
                     && since_spike spikeStart (Txn.timestamp t)) transactions in
  logAnalyticProof "transactions" "Tool: Transaction Forensic"
                   (List.length failures) ;;;
  ret (List.length failures).

Definition get_churn_risk (churn : list ChurnEvent.t)
    (spikeStart : option string) : M nat :=
  let churnEvents :=
    filter (fun c => since_spike spikeStart (ChurnEvent.timestamp c)) churn in
  logAnalyticProof "churn_events" "Tool: Churn patterns"
                   (List.length churnEvents) ;;;
  ret (List.length churnEvents).

(** Step 2 of the orchestration: score every deployment of the service and
    take the first of the list sorted by descending confidence. *)
Definition deploymentsWithConfidence (invoices : list Invoice.t)
    (service : string) (history : list SysEvent.t) : list Culprit.t :=
  map (fun dep =>
         let conf := computeConfidence Date_parse invoices service
                       (SysEvent.timestamp dep) in
         {| Culprit.version := SysEvent.version dep;
            Culprit.timestamp := SysEvent.timestamp dep;
            Culprit.confidence := Confidence.confidence conf;
            Culprit.classification := Confidence.classification conf;
            Culprit.spikeStart := Confidence.spikeStart conf |})
      history.

Definition select_culprit (scored : list Culprit.t) : option Culprit.t :=
  hd_error (JS.sort (fun a b => Culprit.confidence b - Culprit.confidence a) scored).

Definition analyze (esAvailable : bool) (body : Body) (db : Collections)
  : M Response :=
  if ES_REQUIRED && negb esAvailable then
    ret (LimitedMode "LIMITED_MODE"
           "Live telemetry unavailable — analysis downgraded (ES REQUIRED)")
  else
    let service := str_or (body_service body) "billing-service" in
    let userQuery := str_or (body_query body) "" in
    let serviceInvoices :=
      filter (fun inv => String.eqb (Invoice.service inv) service) (invoices db) in
    (* Step 1: Detect *)
    drift <- get_anomaly_stats serviceInvoices ;;
    let spikeStart := findSpikeStart (DriftResult.dailyDrift drift) 2.0 in
    (* Step 2: Investigate *)
    history <- get_deployment_history service (events db) ;;
    let culprit :=
      select_culprit (deploymentsWithConfidence (invoices db) service history) in
    (* Step 3: Correlate *)
    failedTransactions <- get_transaction_failures (transactions db) spikeStart ;;
    churnCount <- get_churn_risk (churn db) spikeStart ;;
    (* Step 4: Quantify *)
    let totalLoss :=
      JS.sum_by (fun inv => Invoice.amountExpected inv - Invoice.amountBilled inv)
                (filter underbilled serviceInvoices) in
    let forecast := forecast_loss totalLoss in
    (* Step 5: Decide *)
    let decision := generate_decision culprit drift in
    (* Step 6: Explain *)
    let trace := buildReasoningTrace drift culprit totalLoss failedTransactions
                   churnCount forecast decision in
    idNow <- readClock ;;
    tsNow <- readClock ;;
    let report :=
      {| Report.metadata :=
           {| Metadata.id := [Lit "AGENT-ANALYTIC-"; Num (IZR idNow)];
              Metadata.service := service;
              Metadata.query := userQuery;
              Metadata.timestamp := [Iso tsNow];
              Metadata.role := "Revenue Incident Response Agent" |};
         Report.measurable_impact :=
           {| MeasurableImpact.time_saved := "4 hours -> 40 seconds";
              MeasurableImpact.manual_steps_removed := 6;
              MeasurableImpact.potential_arr_protected :=
                Forecast.protected_arr forecast |};
         Report.verdict := Decision.verdict decision;
         Report.culprit := culprit;
         Report.financial_impact :=
           {| FinancialImpact.observed_loss := totalLoss;
              FinancialImpact.failed_transactions := failedTransactions;
              FinancialImpact.correlated_churn_events := churnCount;
              FinancialImpact.arr_risk := Forecast.annualized_risk forecast |};
         Report.reasoning_trace :=
           {| ReasoningTrace.steps := trace;
              ReasoningTrace.confidence := Decision.confidence decision;
              ReasoningTrace.mode := if esAvailable then "LIVE_ES" else "FALLBACK" |};
         Report.reasoning_steps :=
           map (fun t =>
                  {| ReasoningStep.step := TraceStep.step t;
                     ReasoningStep.delta :=
                       join [Lit ", "]
                            (map (fun kv => [Lit (fst kv); Lit ": "] ++ splice (snd kv))
                                 (TraceStep.evidence t)) |})
               trace;
         Report.executive_summary :=
           executive_summary service drift culprit totalLoss
                             failedTransactions churnCount;
         Report.recommended_actions := Decision.recommended_actions decision;
         Report.confidence_score := Decision.confidence decision |} in
    logIdNow <- readClock ;;
    logTsNow <- readClock ;;
    (fun st =>
       (Ok report,
        {| clockReads := clockReads st;
           queryAuditLog := queryAuditLog st;
           lastReasoningTrace := Some (Report.reasoning_trace report);
           cachedAgentLogs :=
             cachedAgentLogs st ++
             [ {| AgentLog.id := [Lit "LOG-"; Num (IZR logIdNow)];
                  AgentLog.timestamp := [Iso logTsNow];
                  AgentLog.action := "AGENT_ANALYZE";
                  AgentLog.tool := "Orchestrator";
                  AgentLog.query := userQuery;
                  AgentLog.reasoning := Report.executive_summary report;
                  AgentLog.output := report |} ] |})).

End Agent.

(** The local constants of the handler, as functions of the request and the
    collections it loads. *)
Module Orchestration.

Section Locals.
Variables (Date_parse : DateParser) (body : Body) (db : Collections).

Definition service : string := str_or (body_service body) "billing-service".

Definition serviceInvoices : list Invoice.t :=
  filter (fun inv => String.eqb (Invoice.service inv) service) (invoices db).

Definition drift : DriftResult.t :=
  computeDriftDetection serviceInvoices None
    default_baselineEnd default_driftThreshold.

Definition history : list SysEvent.t :=
  filter (fun e => String.eqb (SysEvent.service e) service
                   && String.eqb (SysEvent.eventType e) "deployment")
         (events db).

Definition scored : list Culprit.t :=
  deploymentsWithConfidence Date_parse (invoices db) service history.

Definition culprit : option Culprit.t := select_culprit scored.

Definition totalLoss : R :=
  JS.sum_by (fun inv => Invoice.amountExpected inv - Invoice.amountBilled inv)
            (filter underbilled serviceInvoices).

Definition decision : Decision.t := generate_decision culprit drift.

End Locals.

End Orchestration.

(** The two action lists of the Decide step. *)
Definition remediation_actions (version : string) : list string :=
  [ ("Roll back " ++ version ++ " immediately")%string;
    "Verify pricing lookup cache"%string ].

Definition diagnostic_actions : list string :=
  [ "Initiate cross-service telemetry audit"%string;
    "Monitor transaction success rates"%string ].

(* ================================================================= *)
(** ** A date parser for the worked inputs

    The ISO-8601 forms of the data set: [YYYY-MM-DD] (midnight UTC),
    [YYYY-MM-DDTHH:MM:SSZ] and [YYYY-MM-DDTHH:MM:SS.sssZ]. *)

Module IsoDate.
#[local] Open Scope Z_scope.

Definition digit (c : ascii) : option Z :=
  let n := Z.of_nat (nat_of_ascii c) in
  if (48 <=? n) && (n <=? 57) then Some (n - 48) else None.

Fixpoint digits (acc : Z) (s : string) : option Z :=
  match s with
  | EmptyString => Some acc
  | String c rest =>
      match digit c with
      | Some d => digits (acc * 10 + d) rest
      | None => None
      end
  end.

(** The number written at [start], [len] digits long. *)
Definition field (s : string) (start len : nat) : option Z :=
  let sub := substring start len s in
  if (String.length sub =? len)%nat then digits 0 sub else None.

Definition char_at (s : string) (i : nat) (c : string) : bool :=
  String.eqb (substring i 1 s) c.

Definition leap (y : Z) : bool :=
  ((y mod 4 =? 0) && negb (y mod 100 =? 0)) || (y mod 400 =? 0).

Definition days_in_month (y m : Z) : Z :=
  if m =? 2 then (if leap y then 29 else 28)
  else if (m =? 4) || (m =? 6) || (m =? 9) || (m =? 11) then 30
  else 31.

(** Days from 1970-01-01 to the given civil date. *)
Definition days_from_civil (y m d : Z) : Z :=
  let y' := if m <=? 2 then y - 1 else y in
  let era := y' / 400 in
  let yoe := y' - era * 400 in
  let doy := (153 * (if 2 <? m then m - 3 else m + 9) + 2) / 5 + d - 1 in
  let doe := yoe * 365 + yoe / 4 - yoe / 100 + doy in
  era * 146097 + doe - 719468.

Definition date_part (s : string) : option Z :=
  match field s 0 4, field s 5 2, field s 8 2 with
  | Some y, Some m, Some d =>
      if char_at s 4 "-" && char_at s 7 "-"
         && (1 <=? m) && (m <=? 12) && (1 <=? d) && (d <=? days_in_month y m)
      then Some (days_from_civil y m d * 86400000)
      else None
  | _, _, _ => None
  end.

Definition time_part (s : string) : option Z :=
  match field s 11 2, field s 14 2, field s 17 2 with
  | Some h, Some mi, Some se =>
      if char_at s 10 "T" && char_at s 13 ":" && char_at s 16 ":"
         && (h <=? 23) && (mi <=? 59) && (se <=? 59)
      then Some (((h * 60 + mi) * 60 + se) * 1000)
      else None
  | _, _, _ => None
  end.

Definition parse : DateParser :=
  fun s =>
    match String.length s with
    | 10%nat => date_part s
    | 20%nat =>
        match date_part s, time_part s with
        | Some d, Some t => if char_at s 19 "Z" then Some (d + t) else None
        | _, _ => None
        end
    | 24%nat =>
        match date_part s, time_part s, field s 20 3 with
        | Some d, Some t, Some ms =>
            if char_at s 19 "." && char_at s 23 "Z"
            then Some (d + t + ms) else None
        | _, _, _ => None
        end
    | _ => None
    end.

End IsoDate.

(* ================================================================= *)
(** ** Worked inputs *)

Module Scenario.

Definition invoice (service timestamp : string) (billed expected : R)
  : Invoice.t :=
  {| Invoice.service := service; Invoice.timestamp := timestamp;
     Invoice.amountBilled := billed; Invoice.amountExpected := expected |}.

(** An invoice billed in full, and one billed at half the amount due. *)
Definition sound (day : string) : Invoice.t :=
  invoice "billing-service" (day ++ "T09:00:00.000Z") 100 100.
Definition leaked (day : string) : Invoice.t :=
  invoice "billing-service" (day ++ "T09:00:00.000Z") 50 100.

(** One leaking baseline day, then three clean days: the anomaly rate
    falls from 100% to 0%. *)
Definition recovering : list Invoice.t :=
  [ leaked "2026-02-01"; sound "2026-02-11"; sound "2026-02-12";
    sound "2026-02-13" ].

(** A baseline day leaking on one invoice of two, then three days that
    leak on every invoice: the anomaly rate rises from 50% to 100%. *)
Definition degrading : list Invoice.t :=
  [ leaked "2026-02-01"; sound "2026-02-01"; leaked "2026-02-11";
    leaked "2026-02-12"; leaked "2026-02-13" ].

(** One leaking baseline day, then two clean days. *)
Definition easing : list Invoice.t :=
  [ leaked "2026-02-01"; sound "2026-02-11"; sound "2026-02-12" ].

(** After the baseline period: two invoices, one leaking, before a
    deployment on 12 February, and three, one leaking, after it. *)
Definition fading : list Invoice.t :=
  [ leaked "2026-02-11"; sound "2026-02-11";
    leaked "2026-02-13"; sound "2026-02-13"; sound "2026-02-13" ].

(** A clean invoice before a deployment on 12 February and a leaking one
    after it, with no baseline day. *)
Definition unclear : list Invoice.t :=
  [ sound "2026-02-11"; leaked "2026-02-13" ].

(** A baseline day leaking on one invoice of four, then three days that
    leak on every invoice, starting on the day of the deployment. *)
Definition incident : list Invoice.t :=
  [ leaked "2026-02-09"; sound "2026-02-09"; sound "2026-02-09";
    sound "2026-02-09"; leaked "2026-02-10"; leaked "2026-02-11";
    leaked "2026-02-12" ].

Definition deployment (version timestamp : string) : SysEvent.t :=
  {| SysEvent.service := "billing-service";
     SysEvent.eventType := "deployment";
     SysEvent.version := version; SysEvent.timestamp := timestamp |}.

(** An invoice billed at ten times the amount due. *)
Definition overbilled : list Invoice.t :=
  [ invoice "billing-service" "2026-02-05T09:00:00.000Z" 1000 100 ].

(** The request of the dashboard, a server that has just started, and a
    clock that stands still. *)
Definition body : Body := {| body_service := None; body_query := None |}.

Definition fresh : ServerState :=
  {| clockReads := 0; queryAuditLog := []; lastReasoningTrace := None;
     cachedAgentLogs := [] |}.

Definition clock_at (ms : Z) : nat -> Z := fun _ => ms.

Definition no_records : Collections :=
  {| invoices := []; events := []; transactions := []; churn := [] |}.

(** The [unclear] invoices with the deployment of 12 February. *)
Definition unclear_records : Collections :=
  {| invoices := unclear;
     events := [ deployment "v1.0.4" "2026-02-12T00:00:00.000Z" ];
     transactions := []; churn := [] |}.

(** The [incident] invoices with the deployment of 10 February. *)
Definition incident_records : Collections :=
  {| invoices := incident;
     events := [ deployment "v1.0.4" "2026-02-10T08:00:00.000Z" ];
     transactions := []; churn := [] |}.

(** Invoices of a single day, after the baseline period. *)
Definition no_baseline : list Invoice.t :=
  [ leaked "2026-02-15"; sound "2026-02-15" ].

End Scenario.

(** The rank of a significance tier in the order NOISE < MODERATE <
    HIGH_SIGNAL. *)
Definition tier_rank (tier : string) : nat :=
  if String.eqb tier "HIGH_SIGNAL" then 2
  else if String.eqb tier "MODERATE" then 1
  else 0.


(* ================================================================= *)
(** ** analysis.js: the remaining primitives and the steps of
       [runInvestigation] *)

Module TTest.
Record result := { t : R; significant : bool }.
End TTest.

Module Point.
Record t := { date : string; value : R }.
End Point.

Module Anomaly.
Record t := { date : string; metric : string; value : R; mean : R;
              stddev : R; zScore : R; direction : string }.
End Anomaly.

Module Investigation.


(** One step of the reduction in [groupBy]:
    [(acc[key] = acc[key] || []).push(item)]. *)
Fixpoint push_group {A} (key : string) (item : A)
    (acc : list (string * list A)) : list (string * list A) :=
  match acc with
  | [] => [(key, [item])]
  | (k, g) :: rest =>
      if String.eqb k key then (k, g ++ [item]) :: rest
      else (k, g) :: push_group key item rest
  end.

(** The property names the accumulator [{}] inherits from
    [Object.prototype]: [acc[key]] is truthy for them before anything is
    stored, and is not an array. *)
Definition inherited (key : string) : bool :=
  existsb (String.eqb key)
    [ "constructor"; "hasOwnProperty"; "isPrototypeOf"; "propertyIsEnumerable";
      "toLocaleString"; "toString"; "valueOf"; "__proto__";
      "__defineGetter__"; "__defineSetter__"; "__lookupGetter__";
      "__lookupSetter__" ]%string.

(** [None] stands for the [TypeError] of calling [push] on an inherited
    property. *)
Definition groupBy {A} (arr : list A) (keyFn : A -> string)
  : option (list (string * list A)) :=
  fold_left (fun acc item =>
               match acc with
               | Some groups =>
                   let key := keyFn item in
                   if inherited key then None
                   else Some (push_group key item groups)
               | None => None
               end)
            arr (Some []).

(** [groups[key] || []], for a key that is not inherited. *)
Fixpoint group {A} (groups : list (string * list A)) (key : string) : list A :=
  match groups with
  | [] => []
  | (k, g) :: rest => if String.eqb k key then g else group rest key
  end.

Definition Z_THRESHOLD : R := 2.0.

Definition detectAnomalies (series : list Point.t) (metricName : string)
  : list Anomaly.t :=
  let values := map Point.value series in
  let m := Analysis.mean values in
  let sd := Analysis.stddev values in
  fold_left
    (fun detected d =>
       let z := Analysis.zScore (Point.value d) m sd in
       if JS.gtb (Rabs z) Z_THRESHOLD
       then detected ++
            [ {| Anomaly.date := Point.date d;
                 Anomaly.metric := metricName;
                 Anomaly.value := JS.toFixed 4 (Point.value d);
                 Anomaly.mean := JS.toFixed 4 m;
                 Anomaly.stddev := JS.toFixed 4 sd;
                 Anomaly.zScore := JS.toFixed 4 z;
                 Anomaly.direction :=
                   if JS.gtb z 0 then "ABOVE_NORMAL" else "BELOW_NORMAL" |} ]
       else detected)
    series [].

(** [Math.max(...list)] of a list that is not empty. *)
Definition Math_max (first : R) (rest : list R) : R := fold_left Rmax rest first.

Definition revAnomalyScore (anomalies : list Anomaly.t) : R :=
  match filter (fun a => String.eqb (Anomaly.metric a) "REVENUE_DELTA") anomalies with
  | [] => 0
  | a :: rest =>
      let maxZ := Math_max (Rabs (Anomaly.zScore a))
                    (map (fun a => Rabs (Anomaly.zScore a)) rest) in
      Rmin 1 (maxZ / 5)
  end.

(** [underbillingAnalysis.distributionShiftDetected] is [tTest.significant]. *)
Definition underbillScore (tTest : TTest.result) : R :=
  if negb (TTest.significant tTest) then 0.2
  else Rmin 1 (Rabs (TTest.t tTest) / 5).

Definition failureSpikeScore (anomalies : list Anomaly.t) : R :=
  match filter (fun a => String.eqb (Anomaly.metric a) "TRANSACTION_FAILURE_RATE")
               anomalies with
  | [] => 0
  | a :: rest =>
      let maxZ := Math_max (Rabs (Anomaly.zScore a))
                    (map (fun a => Rabs (Anomaly.zScore a)) rest) in
      Rmin 1 (maxZ / 5)
  end.

(** [correlations.failureRate_to_sentimentDrop] and
    [correlations.sentimentDrop_to_churn] are results of
    [bestLagCorrelation]. *)
Definition sentimentScore (failureRate_to_sentimentDrop : Analysis.LagCorrelation)
  : R := Rmin 1 (Rabs (Analysis.r failureRate_to_sentimentDrop)).

Definition churnScore (sentimentDrop_to_churn : Analysis.LagCorrelation) : R :=
  Rmin 1 (Rabs (Analysis.r sentimentDrop_to_churn)).

Definition compositeConfidence (anomalies : list Anomaly.t)
    (tTest : TTest.result)
    (failureRate_to_sentimentDrop sentimentDrop_to_churn : Analysis.LagCorrelation)
  : R :=
  0.35 * revAnomalyScore anomalies +
  0.25 * underbillScore tTest +
  0.20 * failureSpikeScore anomalies +
  0.10 * sentimentScore failureRate_to_sentimentDrop +
  0.10 * churnScore sentimentDrop_to_churn.

Definition verdict (compositeConfidence : R) : string :=
  if JS.gtb compositeConfidence 0.7 then "HIGH CONFIDENCE REVENUE LEAK DETECTED"
  else if JS.gtb compositeConfidence 0.4
       then "MODERATE CONFIDENCE — FURTHER INVESTIGATION NEEDED"
       else "LOW CONFIDENCE — INSUFFICIENT EVIDENCE".

End Investigation.

(** The grouping loop of [computeDriftDetection] tests [!byDay[day]] on an
    object literal: a day key that names an inherited property is never
    stored.  [Drift.byDay] is that loop for invoices whose day keys are
    not inherited. *)
Definition own_day_keys (invoices : list Invoice.t) (service : option string)
  : Prop :=
  forall inv, In inv (Drift.filtered invoices service) ->
    Investigation.inherited (JS.str_slice10 (Invoice.timestamp inv)) = false.

(** The rank of a correlation strength in the order
    NEGLIGIBLE < WEAK < MODERATE < STRONG. *)
Definition strength_rank (strength : string) : nat :=
  if String.eqb strength "STRONG" then 3
  else if String.eqb strength "MODERATE" then 2
  else if String.eqb strength "WEAK" then 1
  else 0.


(** The entry [detectAnomalies] pushes for a point, and the test on the
    distance from the mean that the properties compare its z-score test
    with. *)
Definition anomalyOf (metricName : string) (m sd : R) (d : Point.t) : Anomaly.t :=
  let z := Analysis.zScore (Point.value d) m sd in
  {| Anomaly.date := Point.date d;
     Anomaly.metric := metricName;
     Anomaly.value := JS.toFixed 4 (Point.value d);
     Anomaly.mean := JS.toFixed 4 m;
     Anomaly.stddev := JS.toFixed 4 sd;
     Anomaly.zScore := JS.toFixed 4 z;
     Anomaly.direction :=
       if JS.gtb z 0 then "ABOVE_NORMAL" else "BELOW_NORMAL" |}.

Definition beyond_two_sigma (m sd : R) (d : Point.t) : bool :=
  JS.gtb (Rabs (Point.value d - m)) (2 * sd).


(** A worked series for [detectAnomalies]: eight quiet days and one peak. *)
Module Sample.
Definition quiet (day : string) : Point.t := {| Point.date := day; Point.value := 0 |}.
Definition peak : Point.t := {| Point.date := "2026-02-09"; Point.value := 9 |}.
Definition series : list Point.t :=
  [ quiet "2026-02-01"; quiet "2026-02-02"; quiet "2026-02-03";
    quiet "2026-02-04"; quiet "2026-02-05"; quiet "2026-02-06";
    quiet "2026-02-07"; quiet "2026-02-08"; peak ].
End Sample.


(* ================================================================= *)
(** ** revenueguard-server.js: agent observability and audit proof *)

(** [GET /api/agent/logs]: [cachedAgentLogs.slice(-50).reverse()] *)
Definition agent_logs : M (list AgentLog.t) :=
  fun st => (rev (JS.slice_last 50 (cachedAgentLogs st)), st).

Module LiveAnalysis.
Record t := { audit_log : list AuditEntry.t; total_queries_captured : nat;
              system_integrity : string }.
End LiveAnalysis.

(** [GET /api/proof/live-analysis] *)
Definition proof_live_analysis : M LiveAnalysis.t :=
  fun st =>
    ({| LiveAnalysis.audit_log := queryAuditLog st;
        LiveAnalysis.total_queries_captured := List.length (queryAuditLog st);
        LiveAnalysis.system_integrity := "VERIFIED" |}, st).

(** [lastReasoningTrace || { message: "No analysis performed yet." }] *)
Inductive LastAnalysis : Type :=
| NoAnalysis (message : string)
| Trace (trace : ReasoningTrace.t).

Module ProofReasoning.
Record t := { last_analysis : LastAnalysis; timestamp : text }.
End ProofReasoning.

(** [GET /api/proof/reasoning] *)
Definition proof_reasoning (clock : nat -> Z) : M ProofReasoning.t :=
  now <- readClock clock ;;
  fun st =>
    ({| ProofReasoning.last_analysis :=
          match lastReasoningTrace st with
          | Some trace => Trace trace
          | None => NoAnalysis "No analysis performed yet."
          end;
        ProofReasoning.timestamp := [Iso now] |}, st).

(** The entry a tool of the agent leaves in the audit log. *)
Definition tool_entry (now : Z) (index label : string) (count : nat)
  : AuditEntry.t :=
  {| AuditEntry.timestamp := now; AuditEntry.index := index;
     AuditEntry.label := label; AuditEntry.recordCount := count |}.


(* ================================================================= *)
(** ** revenueguard-server.js: [GET /api/anomalies] *)

(** An entry of [topAnomalies], with the fields the invoice record
    carries. *)
Module TopAnomaly.
Record t := { service : string; amountExpected : R; amountBilled : R;
              loss : R; timestamp : string }.
End TopAnomaly.

Module AnomaliesResponse.
(** [filter_service] is the field [filter.service]. *)
Record t := { totalInvoices : nat; anomalyCount : nat; anomalyRate : R;
              drift : DriftResult.t; topAnomalies : list TopAnomaly.t;
              filter_service : string }.
End AnomaliesResponse.

Module Anomalies.

Section Locals.
Variables (invoices : list Invoice.t) (service : option string).

Definition filtered : list Invoice.t := Drift.filtered invoices service.

Definition anomalies : list Invoice.t := filter underbilled filtered.

Definition totalInvoices : nat := List.length filtered.
Definition anomalyCount : nat := List.length anomalies.

Definition anomalyRate : R :=
  if (0 <? totalInvoices)%nat
  then INR anomalyCount / INR totalInvoices * 100 else 0.

Definition entry (inv : Invoice.t) : TopAnomaly.t :=
  {| TopAnomaly.service := Invoice.service inv;
     TopAnomaly.amountExpected := Invoice.amountExpected inv;
     TopAnomaly.amountBilled := Invoice.amountBilled inv;
     TopAnomaly.loss :=
       JS.toFixed 2 (Invoice.amountExpected inv - Invoice.amountBilled inv);
     TopAnomaly.timestamp := Invoice.timestamp inv |}.

(** [anomalies.map(...).sort((a, b) => b.loss - a.loss)] *)
Definition ranked : list TopAnomaly.t :=
  JS.sort (fun a b => TopAnomaly.loss b - TopAnomaly.loss a) (map entry anomalies).

Definition topAnomalies : list TopAnomaly.t := JS.slice_to 50 ranked.

End Locals.

End Anomalies.

Definition api_anomalies (invoices : list Invoice.t) (service : option string)
  : AnomaliesResponse.t :=
  {| AnomaliesResponse.totalInvoices := Anomalies.totalInvoices invoices service;
     AnomaliesResponse.anomalyCount := Anomalies.anomalyCount invoices service;
     AnomaliesResponse.anomalyRate :=
       JS.toFixed 2 (Anomalies.anomalyRate invoices service);
     AnomaliesResponse.drift :=
       computeDriftDetection invoices service default_baselineEnd
         default_driftThreshold;
     AnomaliesResponse.topAnomalies := Anomalies.topAnomalies invoices service;
     AnomaliesResponse.filter_service := str_or service "all" |}.

(* ================================================================= *)
(** ** revenueguard-server.js: the [causal_rigor] block of
       [GET /api/deployment-impact] *)

Module CausalRigor.
Record t := { spike_detected : bool; observed_spike_start : option string;
              alignment_status : string }.
End CausalRigor.

Definition causal_rigor (Date_parse : DateParser)
    (serviceInvoices : list Invoice.t) (depTime : string) : CausalRigor.t :=
  let drift := computeDriftDetection serviceInvoices None
                 default_baselineEnd default_driftThreshold in
  let spikeStart :=
    option_map DailyDrift.date
      (find (fun d => JS.gtb (DailyDrift.driftFactor d) 2.0)
            (DriftResult.dailyDrift drift)) in
  let depDate := JS.str_slice10 depTime in
  let alignmentStatus :=
    match spikeStart with
    | Some s =>
        if JS.truthy s then
          match dateDiffDays Date_parse s depDate with
          | Some diff =>
              if JS.geb diff 0 && JS.leb diff 1 then "PERFECT_ALIGNMENT"
              else if JS.gtb diff 1 && JS.leb diff 3
                   then "PROBABLE_LAGGED_CAUSATION"
              else if JS.ltb diff 0
                   then "COINCIDENTAL (SPIKE_PRECEEDED_DEPLOY)"
              else "UNRELATED_TEMPORAL_WINDOW"
          | None => "UNRELATED_TEMPORAL_WINDOW"
          end
        else "UNKNOWN"
    | None => "UNKNOWN"
    end%string in
  {| CausalRigor.spike_detected :=
       match spikeStart with Some s => JS.truthy s | None => false end;
     CausalRigor.observed_spike_start := spikeStart;
     CausalRigor.alignment_status := alignmentStatus |}.

(* ================================================================= *)
(** ** revenueguard-server.js: [GET /api/alerts] *)

Module Alert.
Record t := { id : string; type : string; severity : string; service : string;
              message : text; metric : R; threshold : R; timestamp : text }.
End Alert.

Module Thresholds.
Record t := { anomalyRate : R; revenueLoss : R; driftFactor : R }.
End Thresholds.

Module AlertsResponse.
Record t := { activeAlerts : nat; alerts : list Alert.t;
              thresholds : Thresholds.t }.
End AlertsResponse.

Definition THRESHOLDS : Thresholds.t :=
  {| Thresholds.anomalyRate := 10; Thresholds.revenueLoss := 500;
     Thresholds.driftFactor := 3.0 |}.

(** [severityOrder[severity]]: [None] for a key the object does not have.
    The alerts carry the severities CRITICAL, HIGH and MEDIUM only. *)
Definition severityOrder (severity : string) : option R :=
  if String.eqb severity "CRITICAL" then Some 0
  else if String.eqb severity "HIGH" then Some 1
  else if String.eqb severity "MEDIUM" then Some 2
  else if String.eqb severity "LOW" then Some 3
  else None.

(** [(severityOrder[severity] || 99)] *)
Definition severity_key (severity : string) : R :=
  match severityOrder severity with
  | Some k => if JS.eqb k 0 then 99 else k
  | None => 99
  end.

Section Alerts.
Variables (clock : nat -> Z) (invoices : list Invoice.t).

(** The body of the loop over the services. *)
Definition service_alerts (service : string) : M (list Alert.t) :=
  let serviceInvoices :=
    filter (fun inv => String.eqb (Invoice.service inv) service) invoices in
  let drift := computeDriftDetection invoices (Some service)
                 default_baselineEnd default_driftThreshold in
  anomaly <-
    (if JS.gtb (DriftResult.currentRate drift) (Thresholds.anomalyRate THRESHOLDS)
     then now <- readClock clock ;;
          ret [ {| Alert.id := ("alert-anomaly-" ++ service)%string;
                   Alert.type := "ANOMALY_SPIKE";
                   Alert.severity :=
                     if JS.gtb (DriftResult.currentRate drift) 30
                     then "CRITICAL" else "HIGH";
                   Alert.service := service;
                   Alert.message :=
                     [ Lit "Anomaly rate at "; Num (DriftResult.currentRate drift);
                       Lit "% for "; Lit service; Lit " (baseline: ";
                       Num (DriftResult.baselineRate drift); Lit "%)" ];
                   Alert.metric := DriftResult.currentRate drift;
                   Alert.threshold := Thresholds.anomalyRate THRESHOLDS;
                   Alert.timestamp := [Iso now] |} ]
     else ret []) ;;
  driftAlert <-
    (if JS.gtb (DriftResult.driftFactor drift) (Thresholds.driftFactor THRESHOLDS)
     then now <- readClock clock ;;
          ret [ {| Alert.id := ("alert-drift-" ++ service)%string;
                   Alert.type := "STATISTICAL_DRIFT";
                   Alert.severity := "CRITICAL";
                   Alert.service := service;
                   Alert.message :=
                     [ Lit "Drift factor "; Num (DriftResult.driftFactor drift);
                       Lit "x above baseline for "; Lit service ];
                   Alert.metric := DriftResult.driftFactor drift;
                   Alert.threshold := Thresholds.driftFactor THRESHOLDS;
                   Alert.timestamp := [Iso now] |} ]
     else ret []) ;;
  let serviceLoss :=
    JS.sum_by (fun inv => Invoice.amountExpected inv - Invoice.amountBilled inv)
              (filter underbilled serviceInvoices) in
  loss <-
    (if JS.gtb serviceLoss (Thresholds.revenueLoss THRESHOLDS)
     then now <- readClock clock ;;
          ret [ {| Alert.id := ("alert-loss-" ++ service)%string;
                   Alert.type := "REVENUE_LOSS";
                   Alert.severity :=
                     if JS.gtb serviceLoss 5000 then "CRITICAL"
                     else if JS.gtb serviceLoss 2000 then "HIGH" else "MEDIUM";
                   Alert.service := service;
                   Alert.message :=
                     [ Lit "Cumulative revenue loss of $"; Fixed 2 serviceLoss;
                       Lit " detected in "; Lit service ];
                   Alert.metric := JS.toFixed 2 serviceLoss;
                   Alert.threshold := Thresholds.revenueLoss THRESHOLDS;
                   Alert.timestamp := [Iso now] |} ]
     else ret []) ;;
  ret (anomaly ++ driftAlert ++ loss).

Definition api_alerts : M AlertsResponse.t :=
  billing <- service_alerts "billing-service" ;;
  subscription <- service_alerts "subscription-service" ;;
  tax <- service_alerts "tax-service" ;;
  let alerts :=
    JS.sort (fun a b => severity_key (Alert.severity a)
                        - severity_key (Alert.severity b))
            (billing ++ subscription ++ tax) in
  ret {| AlertsResponse.activeAlerts := List.length alerts;
         AlertsResponse.alerts := alerts;
         AlertsResponse.thresholds := THRESHOLDS |}.

End Alerts.

(* ================================================================= *)
(** ** revenueguard-server.js: the [remediation] block of
       [GET /api/explainability] *)

Module Remediation.
Record t := { status : string; action : text; confidence : R }.
End Remediation.

Module Explain.

Section Locals.
Variables (Date_parse : DateParser) (invoices : list Invoice.t)
          (events : list SysEvent.t) (service : string).

(** [new Date(a.timestamp) - new Date(b.timestamp)]; a comparator
    result of [NaN] counts as [0]. *)
Definition byDateAsc (a b : SysEvent.t) : R :=
  match Date_parse (SysEvent.timestamp a), Date_parse (SysEvent.timestamp b) with
  | Some ta, Some tb => IZR (ta - tb)
  | _, _ => 0
  end.

Definition deployments : list SysEvent.t :=
  JS.sort byDateAsc
    (filter (fun e => String.eqb (SysEvent.eventType e) "deployment"
                      && String.eqb (SysEvent.service e) service) events).

(** [{ ...dep, confidence: conf }] *)
Definition significantDeployments : list (SysEvent.t * Confidence.t) :=
  map (fun dep =>
         (dep, computeConfidence Date_parse invoices service (SysEvent.timestamp dep)))
      deployments.

Definition faultyDep : option (SysEvent.t * Confidence.t) :=
  find (fun d => JS.ltb (Confidence.confidence (snd d)) (-0.1))
       significantDeployments.

Definition fixDep : option (SysEvent.t * Confidence.t) :=
  find (fun d => String.eqb (Confidence.classification (snd d)) "STRONG FIX")
       significantDeployments.

Definition remediation : Remediation.t :=
  {| Remediation.status :=
       match fixDep with Some _ => "FIXED" | None => "PENDING" end;
     Remediation.action :=
       match fixDep with
       | Some fixing =>
           [ Lit "Investigated and resolved by ";
             Lit (SysEvent.version (fst fixing)); Lit "." ]
       | None =>
           match faultyDep with
           | Some faulty =>
               [ Lit "RECOMMENDED: Rollback ";
                 Lit (SysEvent.version (fst faulty)); Lit " immediately." ]
           | None => [ Lit "RECOMMENDED: Audit pricing service logs." ]
           end
       end;
     Remediation.confidence :=
       match fixDep with
       | Some fixing => Confidence.confidence (snd fixing)
       | None =>
           match faultyDep with
           | Some faulty => Rabs (Confidence.confidence (snd faulty))
           | None => 0
           end
       end |}.

End Locals.

End Explain.


(* ================================================================= *)
(** * Properties *)

(** ** Comparisons and rounding *)

Section Comparisons.
Variables a b : R.

Lemma ltb_lt : JS.ltb a b = true <-> a < b.
Proof. unfold JS.ltb; destruct (Rlt_dec a b); split; auto; discriminate. Qed.

Lemma ltb_ge : JS.ltb a b = false <-> b <= a.
Proof.
  unfold JS.ltb; destruct (Rlt_dec a b); split; auto; try discriminate; lra.
Qed.

Lemma leb_le : JS.leb a b = true <-> a <= b.
Proof. unfold JS.leb; destruct (Rle_dec a b); split; auto; discriminate. Qed.

Lemma leb_gt : JS.leb a b = false <-> b < a.
Proof.
  unfold JS.leb; destruct (Rle_dec a b); split; auto; try discriminate; lra.
Qed.

Lemma eqb_eq : JS.eqb a b = true <-> a = b.
Proof. unfold JS.eqb; destruct (Req_dec_T a b); split; auto; discriminate. Qed.

Lemma eqb_neq : JS.eqb a b = false <-> a <> b.
Proof.
  unfold JS.eqb; destruct (Req_dec_T a b); split; auto; try discriminate.
  intros H; contradiction.
Qed.
End Comparisons.

(** Decide one comparison between Numbers whose operands are known. *)
Ltac js_decide :=
  unfold JS.gtb, JS.geb in *;
  match goal with
  | |- context [JS.ltb ?x ?y] =>
      first [ rewrite (proj2 (ltb_lt x y)) by lra
            | rewrite (proj2 (ltb_ge x y)) by lra ]
  | |- context [JS.leb ?x ?y] =>
      first [ rewrite (proj2 (leb_le x y)) by lra
            | rewrite (proj2 (leb_gt x y)) by lra ]
  | |- context [JS.eqb ?x ?y] =>
      first [ rewrite (proj2 (eqb_eq x y)) by lra
            | rewrite (proj2 (eqb_neq x y)) by lra ]
  end.

(** Split on one comparison whose outcome is not known. *)
Ltac js_split :=
  unfold JS.gtb, JS.geb in *;
  match goal with
  | |- context [JS.ltb ?x ?y] =>
      let H := fresh "Hc" in
      destruct (JS.ltb x y) eqn:H;
      [ apply ltb_lt in H | apply ltb_ge in H ]
  | |- context [JS.leb ?x ?y] =>
      let H := fresh "Hc" in
      destruct (JS.leb x y) eqn:H;
      [ apply leb_le in H | apply leb_gt in H ]
  | |- context [JS.eqb ?x ?y] =>
      let H := fresh "Hc" in
      destruct (JS.eqb x y) eqn:H;
      [ apply eqb_eq in H | apply eqb_neq in H ]
  end.

Lemma or_zero_id (x : R) : JS.or_zero x = x.
Proof. unfold JS.or_zero; js_split; congruence. Qed.

Lemma pow10_pos (k : nat) : 0 < JS.pow10 k.
Proof.
  unfold JS.pow10; apply IZR_lt.
  apply Z.pow_pos_nonneg; lia.
Qed.

Lemma round_half_up_le (x y : R) :
  x <= y -> (JS.round_half_up x <= JS.round_half_up y)%Z.
Proof. intros H; unfold JS.round_half_up; apply Zfloor_le; lra. Qed.

Lemma round_half_up_nonneg (x : R) : 0 <= x -> (0 <= JS.round_half_up x)%Z.
Proof. intros H; unfold JS.round_half_up; apply Zfloor_lub; simpl; lra. Qed.

Lemma round_half_up_IZR (z : Z) : JS.round_half_up (IZR z) = z.
Proof. unfold JS.round_half_up; apply Zfloor_eq; lra. Qed.

(** Rounding to [k] decimals keeps the order of Numbers. *)
Lemma toFixed_mono (k : nat) (x y : R) :
  x <= y -> JS.toFixed k x <= JS.toFixed k y.
Proof.
  intros Hxy. pose proof (pow10_pos k) as Hp.
  assert (Hdiv : forall u v : Z, (u <= v)%Z ->
                   IZR u / JS.pow10 k <= IZR v / JS.pow10 k).
  { intros u v Huv. apply IZR_le in Huv.
    apply Rmult_le_compat_r; [ left; now apply Rinv_0_lt_compat | exact Huv ]. }
  unfold JS.toFixed.
  destruct (JS.ltb x 0) eqn:Hx; destruct (JS.ltb y 0) eqn:Hy;
    try apply ltb_lt in Hx; try apply ltb_ge in Hx;
    try apply ltb_lt in Hy; try apply ltb_ge in Hy.
  - apply Ropp_le_contravar, Hdiv, round_half_up_le. nra.
  - assert (Hnn : forall u : Z, (0 <= u)%Z -> 0 <= IZR u / JS.pow10 k).
    { intros u Hu. apply Rmult_le_pos; [ now apply IZR_le | ].
      left; now apply Rinv_0_lt_compat. }
    pose proof (Hnn _ (round_half_up_nonneg (- x * JS.pow10 k) ltac:(nra))).
    pose proof (Hnn _ (round_half_up_nonneg (y * JS.pow10 k) ltac:(nra))).
    lra.
  - lra.
  - apply Hdiv, round_half_up_le. nra.
Qed.

(** A Number with at most [k] decimals is its own rounding. *)
Lemma toFixed_grid (k : nat) (n : Z) :
  JS.toFixed k (IZR n / JS.pow10 k) = IZR n / JS.pow10 k.
Proof.
  pose proof (pow10_pos k) as Hp. unfold JS.toFixed.
  destruct (JS.ltb (IZR n / JS.pow10 k) 0) eqn:Hs.
  - replace (- (IZR n / JS.pow10 k) * JS.pow10 k) with (IZR (- n))
      by (rewrite opp_IZR; field; lra).
    rewrite round_half_up_IZR, opp_IZR. field; lra.
  - replace (IZR n / JS.pow10 k * JS.pow10 k) with (IZR n) by (field; lra).
    now rewrite round_half_up_IZR.
Qed.

Lemma toFixed_IZR (k : nat) (z : Z) : JS.toFixed k (IZR z) = IZR z.
Proof.
  pose proof (pow10_pos k) as Hp.
  replace (IZR z) with (IZR (z * 10 ^ Z.of_nat k) / JS.pow10 k) at 1 2.
  - apply toFixed_grid.
  - rewrite mult_IZR. unfold JS.pow10 in *. field. lra.
Qed.

(** Rounding keeps a Number between two integers it lies between. *)
Lemma toFixed_between (k : nat) (lo hi : Z) (x : R) :
  IZR lo <= x <= IZR hi -> IZR lo <= JS.toFixed k x <= IZR hi.
Proof.
  intros [H1 H2]. split.
  - rewrite <- (toFixed_IZR k lo). now apply toFixed_mono.
  - rewrite <- (toFixed_IZR k hi). now apply toFixed_mono.
Qed.

(* ================================================================= *)
(** ** The order of binary64 numbers *)

Section SpecOrder.

Lemma SFcompare_refl (a : spec_float) :
  a <> S754_nan -> SFcompare a a = Some Eq.
Proof.
  destruct a as [s|s| |s m e]; intros H; simpl; try congruence.
  - destruct s; reflexivity.
  - rewrite Z.compare_refl.
    change (PosDef.Pos.compare_cont Eq m m) with (Pos.compare m m).
    rewrite Pos.compare_refl. destruct s; reflexivity.
Qed.

Lemma SFcompare_lt_gt (a b : spec_float) :
  SFcompare a b = Some Lt -> SFcompare b a = Some Gt.
Proof.
  destruct a as [sa|sa| |sa ma ea], b as [sb|sb| |sb mb eb]; simpl;
    try congruence;
    try (destruct sa; congruence); try (destruct sb; congruence);
    try (destruct sa, sb; congruence).
  rewrite (Z.compare_antisym ea eb).
  change PosDef.Pos.compare_cont with Pos.compare_cont.
  fold (Pos.compare ma mb). fold (Pos.compare mb ma).
  rewrite (Pos.compare_antisym ma mb).
  destruct sa, sb; try congruence;
    destruct (ea ?= eb)%Z; simpl; try congruence;
    destruct (ma ?= mb)%positive; simpl; congruence.
Qed.

Lemma SFcompare_le_lt_trans (a b c : spec_float) :
  SFleb a b = true -> SFltb b c = true -> SFltb a c = true.
Proof.
  unfold SFltb, SFleb.
  destruct a as [sa|sa| |sa ma ea], b as [sb|sb| |sb mb eb],
           c as [sc|sc| |sc mc ec]; simpl; try congruence;
    try (destruct sa; simpl; congruence);
    try (destruct sb; simpl; congruence);
    try (destruct sc; simpl; congruence);
    try (destruct sa, sb; simpl; congruence);
    try (destruct sa, sc; simpl; congruence);
    try (destruct sb, sc; simpl; congruence);
    try (destruct sa, sb, sc; simpl; congruence).
  change PosDef.Pos.compare_cont with Pos.compare_cont.
  fold (Pos.compare ma mb). fold (Pos.compare mb mc). fold (Pos.compare ma mc).
  destruct sa, sb, sc; simpl; try congruence;
    destruct (Z.compare_spec ea eb), (Z.compare_spec eb ec), (Z.compare_spec ea ec);
    simpl; try congruence; try lia; subst;
    destruct (Pos.compare_spec ma mb), (Pos.compare_spec mb mc),
             (Pos.compare_spec ma mc); simpl; try congruence; try lia.
Qed.

Lemma SFabs_nan (a : spec_float) : SFabs a = S754_nan <-> a = S754_nan.
Proof. destruct a; simpl; split; congruence. Qed.

Lemma SFabs_lt_nonnan (a b : spec_float) :
  SFltb (SFabs a) (SFabs b) = true -> a <> S754_nan /\ b <> S754_nan.
Proof.
  unfold SFltb. destruct a, b; simpl; intros H; split; congruence.
Qed.

Lemma SFabs_total (a b : spec_float) :
  a <> S754_nan -> b <> S754_nan ->
  SFltb (SFabs a) (SFabs b) = false -> SFleb (SFabs b) (SFabs a) = true.
Proof.
  unfold SFltb, SFleb.
  destruct a as [sa|sa| |sa ma ea], b as [sb|sb| |sb mb eb]; simpl;
    intros Ha Hb H; try congruence.
  rewrite (Z.compare_antisym ea eb).
  change (PosDef.Pos.compare_cont Eq mb ma) with (Pos.compare mb ma).
  change (PosDef.Pos.compare_cont Eq ma mb) with (Pos.compare ma mb) in H.
  rewrite (Pos.compare_antisym ma mb).
  destruct (ea ?= eb)%Z; simpl in *; try congruence.
  destruct (ma ?= mb)%positive; simpl in *; congruence.
Qed.

Lemma SFabs_lt_le (a b : spec_float) :
  SFltb (SFabs a) (SFabs b) = true -> SFleb (SFabs a) (SFabs b) = true.
Proof.
  unfold SFltb, SFleb. destruct (SFcompare (SFabs a) (SFabs b)) as [[]|]; congruence.
Qed.

Lemma SFabs_le_refl (a : spec_float) :
  a <> S754_nan -> SFleb (SFabs a) (SFabs a) = true.
Proof.
  intros H. unfold SFleb. rewrite SFcompare_refl; [ reflexivity | ].
  now rewrite SFabs_nan.
Qed.

End SpecOrder.

Section DoubleOrder.
#[local] Open Scope float_scope.
Variables a b c : float.

Lemma is_nan_spec : is_nan a = true <-> Prim2SF a = S754_nan.
Proof.
  unfold is_nan. rewrite FloatAxioms.eqb_spec. unfold SFeqb.
  destruct (Prim2SF a) as [s|s| |s m e] eqn:E.
  - simpl. split; discriminate.
  - rewrite SFcompare_refl by discriminate. split; discriminate.
  - simpl. split; reflexivity.
  - rewrite SFcompare_refl by discriminate. split; discriminate.
Qed.

Lemma is_nan_false : is_nan a = false <-> Prim2SF a <> S754_nan.
Proof.
  rewrite <- is_nan_spec. destruct (is_nan a); split; congruence.
Qed.

End DoubleOrder.

Section Magnitudes.
#[local] Open Scope float_scope.
Variables a b c : float.

Lemma is_nan_abs : is_nan (abs a) = is_nan a.
Proof.
  destruct (is_nan a) eqn:E.
  - apply is_nan_spec. rewrite abs_spec. apply SFabs_nan. now apply is_nan_spec.
  - apply is_nan_false. rewrite abs_spec, SFabs_nan. now apply is_nan_false.
Qed.

(** [Math.abs(a) < Math.abs(b)] holds of no [NaN]. *)
Lemma abs_lt_nonnan :
  (abs a <? abs b) = true -> is_nan a = false /\ is_nan b = false.
Proof.
  rewrite ltb_spec, !abs_spec, !is_nan_false. apply SFabs_lt_nonnan.
Qed.

Lemma abs_total :
  is_nan a = false -> is_nan b = false ->
  (abs a <? abs b) = false -> (abs b <=? abs a) = true.
Proof.
  rewrite ltb_spec, leb_spec, !abs_spec, !is_nan_false. apply SFabs_total.
Qed.

Lemma abs_le_lt_trans :
  (abs a <=? abs b) = true -> (abs b <? abs c) = true -> (abs a <? abs c) = true.
Proof. rewrite !ltb_spec, leb_spec, !abs_spec. apply SFcompare_le_lt_trans. Qed.

Lemma abs_lt_le : (abs a <? abs b) = true -> (abs a <=? abs b) = true.
Proof. rewrite ltb_spec, leb_spec, !abs_spec. apply SFabs_lt_le. Qed.

Lemma abs_le_refl : is_nan a = false -> (abs a <=? abs a) = true.
Proof. rewrite leb_spec, !abs_spec, is_nan_false. apply SFabs_le_refl. Qed.

Lemma ltb_not_leb : (a <? b) = true -> (b <=? a) = false.
Proof.
  rewrite ltb_spec, leb_spec. unfold SFltb, SFleb.
  destruct (SFcompare (Prim2SF a) (Prim2SF b)) as [[]|] eqn:E; try discriminate.
  intros _. now rewrite (SFcompare_lt_gt _ _ E).
Qed.

Lemma leb_nan_r : is_nan b = true -> (a <=? b) = false.
Proof.
  rewrite is_nan_spec, leb_spec. intros ->. unfold SFleb.
  destruct (Prim2SF a); reflexivity.
Qed.

Lemma leb_ltb_trans :
  (a <=? b) = true -> (b <? c) = true -> (a <? c) = true.
Proof. rewrite !ltb_spec, leb_spec. apply SFcompare_le_lt_trans. Qed.

(** Multiplication of doubles is commutative. *)
Lemma mul_comm : a * b = b * a.
Proof.
  apply Prim2SF_inj. rewrite !mul_spec.
  destruct (Prim2SF a) as [sa|sa| |sa ma ea], (Prim2SF b) as [sb|sb| |sb mb eb];
    unfold SF64mul; simpl; rewrite ?(xorb_comm sa sb); try reflexivity.
  now rewrite Pos.mul_comm, Z.add_comm.
Qed.

End Magnitudes.

(** A positive finite double divided by itself is [1]: the quotient of the
    mantissas is exact. *)
Lemma SFdiv_self (s : bool) (m : positive) (e : Z) :
  SF64div (S754_finite s m e) (S754_finite s m e) = Prim2SF 1%float.
Proof.
  unfold SF64div, SFdiv, SFdiv_core_binary. cbv zeta.
  rewrite !Z.sub_diag.
  change (IntDef.Z.min (fexp prec emax 0) 0) with (-53)%Z.
  change (0 - -53)%Z with 53%Z. cbv iota.
  change IntDef.Z.shiftl with Z.shiftl. change IntDef.Z.div_eucl with Z.div_eucl.
  rewrite Z.shiftl_mul_pow2 by lia.
  assert (E : Z.div_eucl (Z.pos m * 2 ^ 53) (Z.pos m) = (2 ^ 53, 0)%Z).
  { assert (G : forall a b, Z.div_eucl a b = (a / b, a mod b)%Z).
    { intros a b. unfold Z.div, Z.modulo. now destruct (Z.div_eucl a b). }
    rewrite G, (Z.mul_comm (Z.pos m)), Z.div_mul, Z.mod_mul by lia.
    reflexivity. }
  rewrite E. destruct s; simpl xorb.
  all: unfold new_location, new_location_even, new_location_odd;
    destruct (IntDef.Z.even (Z.pos m)); vm_compute; reflexivity.
Qed.

Lemma div_self (x : float) :
  (0 <? x)%float = true -> (x <? PrimFloat.infinity)%float = true ->
  (x / x)%float = 1%float.
Proof.
  rewrite !ltb_spec. unfold SFltb. intros H0 Hinf.
  apply Prim2SF_inj. rewrite div_spec.
  change (Prim2SF PrimFloat.infinity) with (S754_infinity false) in Hinf.
  change (Prim2SF 0) with (S754_zero false) in H0.
  destruct (Prim2SF x) as [s|s| |s m e] eqn:E.
  - simpl in H0. destruct s; discriminate.
  - simpl in *. destruct s; discriminate.
  - simpl in Hinf. discriminate.
  - apply SFdiv_self.
Qed.

Lemma pos_not_zero (x : float) : (0 <? x)%float = true -> (x =? 0)%float = false.
Proof.
  rewrite ltb_spec, FloatAxioms.eqb_spec. unfold SFltb, SFeqb.
  change (Prim2SF 0) with (S754_zero false).
  destruct (Prim2SF x) as [s|s| |s m e]; simpl; try discriminate;
    destruct s; simpl; congruence.
Qed.

(* ================================================================= *)
(** ** Rounding of binary64 products and square roots

    The operations of the doubles are specified on mantissa and exponent
    ([SpecFloat]): a result is computed exactly, shifted down to 53 digits
    and rounded to nearest, ties to even. *)

Section Rounding.
#[local] Open Scope Z_scope.

Lemma digits2_pos_spec (p : positive) :
  2 ^ (Z.pos (digits2_pos p) - 1) <= Z.pos p < 2 ^ Z.pos (digits2_pos p).
Proof.
  induction p as [p IH|p IH|]; cbn [digits2_pos].
  - change PosDef.Pos.succ with Pos.succ. rewrite Pos2Z.inj_succ.
    replace (Z.succ (Z.pos (digits2_pos p)) - 1) with (Z.pos (digits2_pos p) - 1 + 1) by lia.
    rewrite Z.pow_succ_r by lia. rewrite Z.pow_add_r by lia.
    change (2 ^ 1) with 2. lia.
  - change PosDef.Pos.succ with Pos.succ. rewrite Pos2Z.inj_succ.
    replace (Z.succ (Z.pos (digits2_pos p)) - 1) with (Z.pos (digits2_pos p) - 1 + 1) by lia.
    rewrite Z.pow_succ_r by lia. rewrite Z.pow_add_r by lia.
    change (2 ^ 1) with 2. lia.
  - simpl. lia.
Qed.

Lemma digits2_pos_unique (p : positive) (d : Z) :
  2 ^ (d - 1) <= Z.pos p < 2 ^ d -> Z.pos (digits2_pos p) = d.
Proof.
  intros [Hlo Hhi]. pose proof (digits2_pos_spec p) as [Plo Phi].
  set (k := Z.pos (digits2_pos p)) in *.
  assert (0 < d).
  { destruct d as [|d|d]; [ simpl in Hhi; lia | lia | ].
    rewrite Z.pow_neg_r in Hhi by lia. lia. }
  destruct (Z.lt_trichotomy k d) as [Hlt | [Heq | Hgt]]; [ | exact Heq | ].
  - assert (2 ^ k <= 2 ^ (d - 1)) by (apply Z.pow_le_mono_r; lia). lia.
  - assert (2 ^ d <= 2 ^ (k - 1)) by (apply Z.pow_le_mono_r; lia). lia.
Qed.

(** One step of the right shift, and [n] steps. *)
Lemma shr_1_spec (m : Z) (r s : bool) :
  0 <= m ->
  shr_1 {| shr_m := m; shr_r := r; shr_s := s |}
  = {| shr_m := Z.div2 m; shr_r := Z.odd m; shr_s := r || s |}.
Proof.
  intros Hm. destruct m as [|p|p]; [ reflexivity | | lia ].
  destruct p; reflexivity.
Qed.

Lemma iter_shr_1 (n : nat) (m : Z) :
  0 <= m ->
  Nat.iter (S n) shr_1 {| shr_m := m; shr_r := false; shr_s := false |}
  = {| shr_m := m / 2 ^ Z.of_nat (S n);
       shr_r := Z.odd (m / 2 ^ Z.of_nat n);
       shr_s := negb (m mod 2 ^ Z.of_nat n =? 0) |}.
Proof.
  intros Hm. induction n as [|n IH].
  - unfold Nat.iter. cbn [nat_rect]. rewrite shr_1_spec by exact Hm.
    change (2 ^ Z.of_nat 1) with 2. change (2 ^ Z.of_nat 0) with 1.
    rewrite Z.div2_div, Z.div_1_r, Z.mod_1_r. reflexivity.
  - change (Nat.iter (S (S n)) shr_1 ?x) with (shr_1 (Nat.iter (S n) shr_1 x)).
    rewrite IH.
    assert (Hp : 0 < 2 ^ Z.of_nat n) by (apply Z.pow_pos_nonneg; lia).
    assert (Hp1 : 0 < 2 ^ Z.of_nat (S n)) by (apply Z.pow_pos_nonneg; lia).
    rewrite shr_1_spec by (apply Z.div_pos; lia).
    f_equal.
    + rewrite Z.div2_div, Z.div_div by lia.
      f_equal. rewrite (Nat2Z.inj_succ (S n)), Z.pow_succ_r by lia. lia.
    + assert (E : 2 ^ Z.of_nat (S n) = 2 ^ Z.of_nat n * 2)
        by (rewrite Nat2Z.inj_succ, Z.pow_succ_r by lia; lia).
      rewrite E, Z.rem_mul_r by lia.
      pose proof (Z.mod_pos_bound m (2 ^ Z.of_nat n) Hp) as Hb.
      rewrite (Zmod_odd (m / 2 ^ Z.of_nat n)).
      destruct (Z.odd (m / 2 ^ Z.of_nat n)); simpl orb.
      * destruct (Z.eqb_spec (m mod 2 ^ Z.of_nat n + 2 ^ Z.of_nat n * 1) 0);
          [ exfalso; lia | reflexivity ].
      * now rewrite Z.mul_0_r, Z.add_0_r.
Qed.

Lemma iter_pos_nat {A} (f : A -> A) (p : positive) (x : A) :
  SpecFloat.iter_pos f p x = Nat.iter (Pos.to_nat p) f x.
Proof.
  revert x. induction p as [p IH|p IH|]; intros x; cbn [SpecFloat.iter_pos].
  - rewrite !IH, Pos2Nat.inj_xI.
    replace (S (2 * Pos.to_nat p))%nat with (Pos.to_nat p + S (Pos.to_nat p))%nat
      by lia.
    rewrite Nat.iter_add, Nat.iter_succ_r. reflexivity.
  - rewrite !IH, Pos2Nat.inj_xO.
    replace (2 * Pos.to_nat p)%nat with (Pos.to_nat p + Pos.to_nat p)%nat by lia.
    now rewrite Nat.iter_add.
  - reflexivity.
Qed.

Lemma shr_spec (n : nat) (m e : Z) :
  0 <= m ->
  shr {| shr_m := m; shr_r := false; shr_s := false |} e (Z.of_nat (S n))
  = ({| shr_m := m / 2 ^ Z.of_nat (S n);
        shr_r := Z.odd (m / 2 ^ Z.of_nat n);
        shr_s := negb (m mod 2 ^ Z.of_nat n =? 0) |}, e + Z.of_nat (S n)).
Proof.
  intros Hm. unfold shr.
  destruct (Z.of_nat (S n)) as [|p|p] eqn:E; [ lia | | lia ].
  f_equal. rewrite iter_pos_nat.
  replace (Pos.to_nat p) with (S n) by lia.
  rewrite <- E. apply (iter_shr_1 n m Hm).
Qed.

(** Rounding to nearest of [m / 2^(n+1)]: the result is within half a
    unit of the exact quotient. *)
Lemma round_shr_spec (n : nat) (m : Z) :
  0 <= m ->
  let mrs := {| shr_m := m / 2 ^ Z.of_nat (S n);
                shr_r := Z.odd (m / 2 ^ Z.of_nat n);
                shr_s := negb (m mod 2 ^ Z.of_nat n =? 0) |} in
  let q := round_nearest_even (shr_m mrs) (loc_of_shr_record mrs) in
  m / 2 ^ Z.of_nat (S n) <= q <= m / 2 ^ Z.of_nat (S n) + 1 /\
  - 2 ^ Z.of_nat n <= q * 2 ^ Z.of_nat (S n) - m <= 2 ^ Z.of_nat n.
Proof.
  intros Hm. cbv zeta. cbn [shr_m].
  assert (Hp : 0 < 2 ^ Z.of_nat n) by (apply Z.pow_pos_nonneg; lia).
  assert (E : 2 ^ Z.of_nat (S n) = 2 ^ Z.of_nat n * 2)
    by (rewrite Nat2Z.inj_succ, Z.pow_succ_r by lia; lia).
  pose proof (Z.div_mod m (2 ^ Z.of_nat n) ltac:(lia)) as D1.
  pose proof (Z.mod_pos_bound m (2 ^ Z.of_nat n) Hp) as B1.
  pose proof (Z.div_mod (m / 2 ^ Z.of_nat n) 2 ltac:(lia)) as D2.
  pose proof (Zmod_odd (m / 2 ^ Z.of_nat n)) as Hodd.
  assert (Q : m / 2 ^ Z.of_nat (S n) = m / 2 ^ Z.of_nat n / 2)
    by (rewrite E, Z.div_div by lia; reflexivity).
  rewrite Q, E.
  set (a := m / 2 ^ Z.of_nat n) in *. set (b := m mod 2 ^ Z.of_nat n) in *.
  set (P := 2 ^ Z.of_nat n) in *.
  unfold loc_of_shr_record, round_nearest_even.
  destruct (Z.odd a); destruct (Z.eqb_spec b 0) as [Eb | Eb]; simpl negb; cbv iota.
  - destruct (IntDef.Z.even (a / 2)); nia.
  - nia.
  - nia.
  - nia.
Qed.

Lemma fexp_normal (d e : Z) :
  -1074 <= d + e - 53 -> fexp prec emax (d + e) = d + e - 53.
Proof.
  intros H. unfold fexp, SpecFloat.emin, prec, emax.
  change IntDef.Z.max with Z.max. lia.
Qed.

(** Rounding an exact integer of [53 + S n] digits to 53 digits. *)
Lemma binary_round_exact (n : nat) (x : positive) (e : Z) :
  Z.pos (digits2_pos x) = 53 + Z.of_nat (S n) ->
  -1074 <= e + Z.of_nat (S n) -> e + Z.of_nat (S n) <= 970 ->
  exists q : positive,
    binary_round_aux prec emax false (Z.pos x) e loc_Exact
    = (if (Z.pos q =? 2 ^ 53) then S754_finite false (4503599627370496%positive) (e + Z.of_nat (S n) + 1)
       else S754_finite false q (e + Z.of_nat (S n))) /\
    2 ^ 52 <= Z.pos q <= 2 ^ 53 /\
    - 2 ^ Z.of_nat n <= Z.pos q * 2 ^ Z.of_nat (S n) - Z.pos x <= 2 ^ Z.of_nat n.
Proof.
  intros Hd Hlo Hhi.
  pose proof (digits2_pos_spec x) as [Xlo Xhi]. rewrite Hd in Xlo, Xhi.
  unfold binary_round_aux, shr_fexp. cbn [Zdigits2 shr_record_of_loc].
  rewrite Hd, fexp_normal by lia.
  replace (53 + Z.of_nat (S n) + e - 53 - e) with (Z.of_nat (S n)) by lia.
  rewrite shr_spec by lia.
  destruct (round_shr_spec n (Z.pos x) ltac:(lia)) as [Hq Herr].
  cbv zeta in Hq, Herr.
  set (mrs := {| shr_m := Z.pos x / 2 ^ Z.of_nat (S n);
                 shr_r := Z.odd (Z.pos x / 2 ^ Z.of_nat n);
                 shr_s := negb (Z.pos x mod 2 ^ Z.of_nat n =? 0) |}) in *.
  set (q := round_nearest_even (shr_m mrs) (loc_of_shr_record mrs)) in *.
  assert (Hp : 0 < 2 ^ Z.of_nat (S n)) by (apply Z.pow_pos_nonneg; lia).
  assert (Hdiv : 2 ^ 52 <= Z.pos x / 2 ^ Z.of_nat (S n) < 2 ^ 53).
  { replace (53 + Z.of_nat (S n) - 1) with (52 + Z.of_nat (S n)) in Xlo by lia.
    rewrite Z.pow_add_r in Xlo, Xhi by lia. split.
    - apply Z.div_le_lower_bound; lia.
    - apply Z.div_lt_upper_bound; lia. }
  assert (Hq52 : 2 ^ 52 <= q <= 2 ^ 53) by (cbn [shr_m] in Hq; lia).
  destruct q as [|p|p] eqn:Eq; [ lia | | lia ].
  exists p. split; [ | split; [ exact Hq52 | exact Herr ] ].
  cbv iota beta.
  destruct (Z.eqb_spec (Z.pos p) (2 ^ 53)) as [E53 | E53].
  - injection E53 as ->. vm_compute Zdigits2.
    unfold fexp, SpecFloat.emin, prec, emax. change IntDef.Z.max with Z.max.
    replace (Z.max (54 + (e + Z.of_nat (S n)) - 53) (3 - 1024 - 53) - (e + Z.of_nat (S n)))
      with 1 by lia.
    cbn [shr SpecFloat.iter_pos shr_1 shr_m].
    destruct (Z.leb_spec (e + Z.of_nat (S n) + 1) (1024 - 53)); [ reflexivity | lia ].
  - assert (Hdq : Z.pos (digits2_pos p) = 53) by (apply digits2_pos_unique; lia).
    cbn [Zdigits2]. rewrite Hdq, fexp_normal by lia.
    replace (53 + (e + Z.of_nat (S n)) - 53 - (e + Z.of_nat (S n))) with 0 by lia.
    cbn [shr shr_m].
    destruct (Z.leb_spec (e + Z.of_nat (S n)) (emax - prec)) as [L | L];
      [ reflexivity | unfold emax, prec in L; lia ].
Qed.

Lemma sq_lt_inv (a b : Z) : 0 <= a -> 0 <= b -> a * a < b * b -> a < b.
Proof. intros Ha Hb H. nia. Qed.

Lemma sq_le_mono (a b : Z) : 0 <= a -> a <= b -> a * a <= b * b.
Proof. intros Ha H. nia. Qed.

(** The square of a 53-digit mantissa, rounded to 53 digits. *)
Lemma SFmul_self (m : positive) (e : Z) :
  Z.pos (digits2_pos m) = 53 -> -552 <= e <= 448 ->
  exists (q : positive) (n : nat),
    SF64mul (S754_finite false m e) (S754_finite false m e)
    = S754_finite false q (e + e + Z.of_nat (S n)) /\
    (n = 51 \/ n = 52)%nat /\
    2 ^ 52 <= Z.pos q < 2 ^ 53 /\
    - 2 ^ Z.of_nat n <= Z.pos q * 2 ^ Z.of_nat (S n) - Z.pos m * Z.pos m
      <= 2 ^ Z.of_nat n /\
    (n = 52%nat -> 2 ^ 52 < Z.pos m).
Proof.
  intros Hd He.
  pose proof (digits2_pos_spec m) as [Mlo Mhi]. rewrite Hd in Mlo, Mhi.
  change (2 ^ (53 - 1)) with 4503599627370496 in Mlo.
  change (2 ^ 53) with 9007199254740992 in Mhi.
  pose proof (sq_le_mono 4503599627370496 (Z.pos m) ltac:(lia) Mlo) as Slo.
  pose proof (sq_le_mono (Z.pos m) 9007199254740991 ltac:(lia) ltac:(lia)) as Shi.
  unfold SF64mul, SFmul. simpl xorb.
  destruct (Z.ltb_spec (Z.pos m * Z.pos m) (2 ^ 105)) as [H105 | H105].
  - (* 105 digits *)
    assert (Hdx : Z.pos (digits2_pos (m * m)) = 53 + Z.of_nat 52).
    { apply digits2_pos_unique. rewrite Pos2Z.inj_mul.
      change (2 ^ (53 + Z.of_nat 52 - 1)) with (4503599627370496 * 4503599627370496).
      change (2 ^ (53 + Z.of_nat 52)) with (2 ^ 105). lia. }
    destruct (binary_round_exact 51 (m * m) (e + e) Hdx) as (q & Hq & Hr & Herr);
      [ change (Z.of_nat 52) with 52; lia | change (Z.of_nat 52) with 52; lia | ].
    rewrite Pos2Z.inj_mul in Herr.
    change (2 ^ Z.of_nat 51) with 2251799813685248 in Herr.
    change (2 ^ Z.of_nat 52) with 4503599627370496 in Herr.
    change (2 ^ 52) with 4503599627370496 in Hr.
    change (2 ^ 53) with 9007199254740992 in Hr.
    change (2 ^ 105) with 40564819207303340847894502572032 in H105.
    assert (Hno : Z.pos q <> 2 ^ 53).
    { change (2 ^ 53) with 9007199254740992. intros E. rewrite E in Herr.
      destruct (Z.le_gt_cases (Z.pos m) 6369051672525772) as [Hc | Hc].
      - pose proof (sq_le_mono (Z.pos m) 6369051672525772 ltac:(lia) Hc). lia.
      - pose proof (sq_le_mono 6369051672525773 (Z.pos m) ltac:(lia) ltac:(lia)). lia. }
    rewrite (proj2 (Z.eqb_neq _ _) Hno) in Hq.
    exists q, 51%nat. split; [ exact Hq | ]. split; [ now left | ].
    change (2 ^ 53) with 9007199254740992 in Hno.
    change (2 ^ 52) with 4503599627370496. change (2 ^ 53) with 9007199254740992.
    change (2 ^ Z.of_nat 51) with 2251799813685248.
    change (2 ^ Z.of_nat 52) with 4503599627370496.
    split; [ lia | ]. split; [ lia | ]. intros E; discriminate.
  - (* 106 digits *)
    assert (Hdx : Z.pos (digits2_pos (m * m)) = 53 + Z.of_nat 53).
    { apply digits2_pos_unique. rewrite Pos2Z.inj_mul.
      change (2 ^ (53 + Z.of_nat 53 - 1)) with (2 ^ 105).
      change (2 ^ (53 + Z.of_nat 53)) with 81129638414606681695789005144064.
      lia. }
    destruct (binary_round_exact 52 (m * m) (e + e) Hdx) as (q & Hq & Hr & Herr);
      [ change (Z.of_nat 53) with 53; lia | change (Z.of_nat 53) with 53; lia | ].
    rewrite Pos2Z.inj_mul in Herr.
    change (2 ^ Z.of_nat 52) with 4503599627370496 in Herr.
    change (2 ^ Z.of_nat 53) with 9007199254740992 in Herr.
    change (2 ^ 52) with 4503599627370496 in Hr.
    change (2 ^ 53) with 9007199254740992 in Hr.
    change (2 ^ 105) with 40564819207303340847894502572032 in H105.
    assert (Hno : Z.pos q <> 2 ^ 53).
    { change (2 ^ 53) with 9007199254740992. intros E. rewrite E in Herr. lia. }
    rewrite (proj2 (Z.eqb_neq _ _) Hno) in Hq.
    exists q, 52%nat. split; [ exact Hq | ]. split; [ now right | ].
    change (2 ^ 53) with 9007199254740992 in Hno.
    change (2 ^ 52) with 4503599627370496. change (2 ^ 53) with 9007199254740992.
    change (2 ^ Z.of_nat 52) with 4503599627370496.
    change (2 ^ Z.of_nat 53) with 9007199254740992.
    split; [ lia | ]. split; [ lia | ]. intros _.
    destruct (Z.eq_dec (Z.pos m) 4503599627370496) as [E | E]; [ | lia ].
    rewrite E in H105. simpl in H105. lia.
Qed.

(** Rounding a 53-digit integer square root with its remainder's location. *)
Lemma binary_round_53 (s : positive) (e : Z) (l : location) :
  2 ^ 52 <= Z.pos s < 2 ^ 53 -> -1074 <= e <= 971 ->
  2 ^ 52 <= round_nearest_even (Z.pos s) l < 2 ^ 53 ->
  binary_round_aux prec emax false (Z.pos s) e l
  = match round_nearest_even (Z.pos s) l with
    | Z.pos r => S754_finite false r e
    | _ => S754_nan
    end.
Proof.
  intros Hs He Hr.
  assert (Hds : Z.pos (digits2_pos s) = 53) by (apply digits2_pos_unique; lia).
  unfold binary_round_aux, shr_fexp. cbn [Zdigits2].
  rewrite Hds, fexp_normal by lia.
  replace (53 + e - 53 - e) with 0 by lia. cbn [shr].
  assert (El : loc_of_shr_record (shr_record_of_loc (Z.pos s) l) = l)
    by (destruct l as [|[]]; reflexivity).
  assert (Em : shr_m (shr_record_of_loc (Z.pos s) l) = Z.pos s)
    by (destruct l as [|[]]; reflexivity).
  rewrite El, Em.
  destruct (round_nearest_even (Z.pos s) l) as [|r|r] eqn:Er; [ lia | | lia ].
  assert (Hdr : Z.pos (digits2_pos r) = 53) by (apply digits2_pos_unique; lia).
  cbn [Zdigits2 shr_record_of_loc]. rewrite Hdr, fexp_normal by lia.
  replace (53 + e - 53 - e) with 0 by lia. cbn [shr shr_m].
  destruct (Z.leb_spec e (emax - prec)) as [L | L];
    [ reflexivity | unfold emax, prec in L; lia ].
Qed.

Lemma SFsqrt_of_square (m q : positive) (e : Z) (n : nat) :
  Z.pos (digits2_pos m) = 53 -> -552 <= e <= 448 ->
  (n = 51 \/ n = 52)%nat ->
  2 ^ 52 <= Z.pos q < 2 ^ 53 ->
  - 2 ^ Z.of_nat n <= Z.pos q * 2 ^ Z.of_nat (S n) - Z.pos m * Z.pos m
    <= 2 ^ Z.of_nat n ->
  (n = 52%nat -> 2 ^ 52 < Z.pos m) ->
  SF64sqrt (S754_finite false q (e + e + Z.of_nat (S n))) = S754_finite false m e.
Proof.
  intros Hd He Hn Hq Herr Hm.
  pose proof (digits2_pos_spec m) as [Mlo Mhi]. rewrite Hd in Mlo, Mhi.
  change (2 ^ (53 - 1)) with 4503599627370496 in Mlo.
  change (2 ^ 53) with 9007199254740992 in Mhi, Hq.
  change (2 ^ 52) with 4503599627370496 in Hq, Hm.
  assert (Hdq : Z.pos (digits2_pos q) = 53)
    by (apply digits2_pos_unique;
        change (2 ^ (53 - 1)) with 4503599627370496;
        change (2 ^ 53) with 9007199254740992; lia).
  unfold SF64sqrt, SFsqrt, SFsqrt_core_binary. cbn [Zdigits2]. rewrite Hdq.
  change IntDef.Z.div2 with Z.div2. change IntDef.Z.min with Z.min.
  change IntDef.Z.shiftl with Z.shiftl. change IntDef.Z.sqrtrem with Z.sqrtrem.
  assert (E1 : Z.div2 (53 + (e + e + Z.of_nat (S n)) + 1) = e + 53).
  { rewrite Z.div2_div. destruct Hn as [-> | ->].
    - change (Z.of_nat 52) with 52. symmetry; apply Z.div_unique with 0; lia.
    - change (Z.of_nat 53) with 53. symmetry; apply Z.div_unique with 1; lia. }
  assert (E2 : Z.div2 (e + e + Z.of_nat (S n)) = e + 26).
  { rewrite Z.div2_div. destruct Hn as [-> | ->].
    - change (Z.of_nat 52) with 52. symmetry; apply Z.div_unique with 0; lia.
    - change (Z.of_nat 53) with 53. symmetry; apply Z.div_unique with 1; lia. }
  rewrite E1, E2.
  replace (e + 53) with (53 + e) by lia. rewrite fexp_normal by lia.
  replace (Z.min (53 + e - 53) (e + 26)) with e by lia.
  cbv zeta.
  replace (e + e + Z.of_nat (S n) - 2 * e) with (Z.of_nat (S n)) by lia.
  assert (Es : match Z.of_nat (S n) with
               | 0 => Z.pos q
               | Z.pos _ => Z.shiftl (Z.pos q) (Z.of_nat (S n))
               | Z.neg _ => 0
               end = Z.pos q * 2 ^ Z.of_nat (S n)).
  { destruct (Z.of_nat (S n)) eqn:E; [ lia | | lia ].
    rewrite <- E. apply Z.shiftl_mul_pow2. lia. }
  rewrite Es. clear Es.
  set (N := Z.pos q * 2 ^ Z.of_nat (S n)) in *.
  assert (HN : 0 <= N) by (unfold N; apply Z.mul_nonneg_nonneg; [ lia | apply Z.pow_nonneg; lia ]).
  pose proof (Z.sqrtrem_spec N HN) as Hspec.
  destruct (Z.sqrtrem N) as [s r]. destruct Hspec as [HNs Hr].
  assert (P52 : 2 ^ Z.of_nat n <= 4503599627370496).
  { destruct Hn as [-> | ->]; [ change (2 ^ Z.of_nat 51) with 2251799813685248; lia
                            | change (2 ^ Z.of_nat 52) with 4503599627370496; lia ]. }
  assert (Pn : n = 52%nat \/ 2 ^ Z.of_nat n = 2251799813685248).
  { destruct Hn as [-> | ->]; [ right; reflexivity | now left ]. }
  assert (Hs0 : 0 <= s) by lia.
  destruct (Z.le_gt_cases (Z.pos m * Z.pos m) N) as [Hge | Hlt].
  - (* the product was rounded up or is exact: the root is [m] *)
    assert (Hsm : s = Z.pos m).
    { assert (s < Z.pos m + 1) by (apply sq_lt_inv; nia).
      assert (Z.pos m < s + 1) by (apply sq_lt_inv; nia). lia. }
    subst s.
    assert (Hrm : r <= Z.pos m) by nia.
    rewrite binary_round_53.
    + destruct (Z.eqb_spec r 0); [ reflexivity | ].
      destruct (Z.leb_spec r (Z.pos m)); [ reflexivity | lia ].
    + change (2 ^ 52) with 4503599627370496. change (2 ^ 53) with 9007199254740992. lia.
    + lia.
    + change (2 ^ 52) with 4503599627370496. change (2 ^ 53) with 9007199254740992.
      destruct (Z.eqb_spec r 0); [ simpl; lia | ].
      destruct (Z.leb_spec r (Z.pos m)); [ simpl; lia | lia ].
  - (* the product was rounded down: the root is [m - 1], rounded up *)
    assert (Hm1 : 4503599627370496 < Z.pos m).
    { destruct Pn as [-> | Pn]; [ now apply Hm | ].
      destruct (Z.eq_dec (Z.pos m) 4503599627370496) as [E | E]; [ | lia ].
      exfalso. destruct Hn as [-> | ->]; [ | discriminate Pn || (simpl in Pn; lia) ].
      unfold N in *. change (2 ^ Z.of_nat 52) with 4503599627370496 in *.
      change (2 ^ Z.of_nat 51) with 2251799813685248 in *. rewrite E in *. lia. }
    assert (Hsm : s = Z.pos m - 1).
    { assert (s < Z.pos m) by (apply sq_lt_inv; nia).
      assert (Z.pos m - 1 < s + 1) by (apply sq_lt_inv; nia). lia. }
    assert (Hrm : s < r) by nia.
    destruct s as [|s|s]; [ lia | | lia ].
    rewrite binary_round_53.
    + destruct (Z.eqb_spec r 0); [ lia | ].
      destruct (Z.leb_spec r (Z.pos s)); [ lia | ].
      unfold round_nearest_even. rewrite Hsm.
      replace (Z.pos m - 1 + 1) with (Z.pos m) by lia. reflexivity.
    + change (2 ^ 52) with 4503599627370496. change (2 ^ 53) with 9007199254740992. lia.
    + lia.
    + change (2 ^ 52) with 4503599627370496. change (2 ^ 53) with 9007199254740992.
      destruct (Z.eqb_spec r 0); [ lia | ].
      destruct (Z.leb_spec r (Z.pos s)); [ lia | ].
      unfold round_nearest_even. lia.
Qed.

End Rounding.

Section SquareRoot.
#[local] Open Scope float_scope.

Lemma lower_bound_SF : Prim2SF 0x1p-500 = S754_finite false 4503599627370496 (-552).
Proof. vm_compute. reflexivity. Qed.

Lemma upper_bound_SF : Prim2SF 0x1p+500 = S754_finite false 4503599627370496 448.
Proof. vm_compute. reflexivity. Qed.

Lemma in_range_finite (x : float) :
  (0x1p-500 <=? x) = true -> (x <=? 0x1p+500) = true ->
  exists (m : positive) (e : Z),
    Prim2SF x = S754_finite false m e /\
    Z.pos (digits2_pos m) = 53%Z /\ (-552 <= e <= 448)%Z.
Proof.
  rewrite !leb_spec, lower_bound_SF, upper_bound_SF. intros Hlo Hhi.
  pose proof (Prim2SF_valid x) as Hv.
  unfold SFleb in Hlo, Hhi.
  destruct (Prim2SF x) as [s|s| |s m e]; cbn [SFcompare] in Hlo, Hhi;
    try discriminate; try (destruct s; discriminate).
  destruct s; [ discriminate | ].
  assert (He : (-552 <= e <= 448)%Z).
  { split.
    - destruct (Z.compare_spec (-552) e); try lia; discriminate.
    - destruct (Z.compare_spec e 448); try lia; discriminate. }
  exists m, e. split; [ reflexivity | ]. split; [ | exact He ].
  unfold SpecFloat.valid_binary, bounded, canonical_mantissa in Hv.
  apply andb_prop in Hv as [Hc _]. apply Z.eqb_eq in Hc.
  unfold fexp, SpecFloat.emin, prec, emax in Hc.
  change IntDef.Z.max with Z.max in Hc. lia.
Qed.

Lemma sqrt_mul_self (x : float) :
  (0x1p-500 <=? x) = true -> (x <=? 0x1p+500) = true -> PrimFloat.sqrt (x * x) = x.
Proof.
  intros Hlo Hhi.
  destruct (in_range_finite x Hlo Hhi) as (m & e & Hx & Hd & He).
  apply Prim2SF_inj. rewrite sqrt_spec, mul_spec, Hx.
  destruct (SFmul_self m e Hd He) as (q & n & Hmul & Hn & Hq & Herr & Hm).
  rewrite Hmul. now apply SFsqrt_of_square.
Qed.

End SquareRoot.

Lemma below_not_above (lo hi a : float) :
  (hi <? lo)%float = false -> (a <? lo)%float = true -> (hi <=? a)%float = false.
Proof.
  intros Hc Ha. destruct (hi <=? a)%float eqn:E; [ | reflexivity ].
  rewrite (leb_ltb_trans _ _ _ E Ha) in Hc. discriminate.
Qed.

(* ================================================================= *)
(** ** Lag search ([bestLagCorrelation]) *)

Section LagSearch.
Import Double.
#[local] Open Scope float_scope.
Variables xs ys : list float.

Lemma bestLagSearch_S (n : nat) :
  bestLagSearch xs ys (S n) = lag_step xs ys (bestLagSearch xs ys n) (S n).
Proof.
  unfold bestLagSearch. rewrite seq_S, fold_left_app. reflexivity.
Qed.

(** What the loop has established after trying the lags [1..n]: a [NaN]
    at lag 0 is never displaced; otherwise [best] is not [NaN], no
    candidate that is a number exceeds it in magnitude, and every such
    candidate at a smaller lag is strictly below it. *)
Lemma bestLagSearch_invariant (n : nat) :
  let b := bestLagSearch xs ys n in
  (best_lag b <= n)%nat /\
  best_r b = candidate xs ys (best_lag b) /\
  (is_nan (candidate xs ys 0) = true -> best_lag b = 0%nat) /\
  (is_nan (candidate xs ys 0) = false ->
     is_nan (best_r b) = false /\
     (forall k, (k <= n)%nat -> is_nan (candidate xs ys k) = false ->
                (abs (candidate xs ys k) <=? abs (best_r b)) = true) /\
     (forall k, (k < best_lag b)%nat -> is_nan (candidate xs ys k) = false ->
                (abs (candidate xs ys k) <? abs (best_r b)) = true)).
Proof.
  induction n as [|n IH]; cbv zeta in *.
  - unfold bestLagSearch; simpl. repeat split; auto.
    + intros k Hk Hn. assert (k = 0%nat) by lia. subst. simpl.
      now apply abs_le_refl.
    + intros k Hk. lia.
  - rewrite bestLagSearch_S. destruct IH as (Hle & Hr & Hnan & Hok).
    unfold lag_step.
    destruct (abs (best_r (bestLagSearch xs ys n))
              <? abs (laggedPearson xs ys (S n))) eqn:Hcmp.
    + destruct (abs_lt_nonnan _ _ Hcmp) as [Hb Hnew].
      assert (H0 : is_nan (candidate xs ys 0) = false).
      { destruct (is_nan (candidate xs ys 0)) eqn:E; [ | reflexivity ].
        specialize (Hnan eq_refl). rewrite Hr, Hnan in Hb. congruence. }
      destruct (Hok H0) as (_ & Hmax & _).
      cbn [best_lag best_r]. split; [ lia | ]. split; [ reflexivity | ].
      split; [ congruence | ]. intros _. split; [ exact Hnew | ]. split.
      * intros k Hk Hc. destruct (Nat.eq_dec k (S n)) as [->|Hne].
        -- simpl. now apply abs_le_refl.
        -- apply abs_lt_le.
           apply (abs_le_lt_trans _ (best_r (bestLagSearch xs ys n))); auto.
           apply Hmax; [ lia | exact Hc ].
      * intros k Hk Hc.
        apply (abs_le_lt_trans _ (best_r (bestLagSearch xs ys n))); auto.
        apply Hmax; [ lia | exact Hc ].
    + split; [ lia | ]. split; [ exact Hr | ]. split; [ exact Hnan | ].
      intros H0. destruct (Hok H0) as (Hb & Hmax & Hfirst).
      split; [ exact Hb | ]. split; [ | exact Hfirst ].
      intros k Hk Hc. destruct (Nat.eq_dec k (S n)) as [->|Hne].
      * simpl in *. now apply abs_total.
      * apply Hmax; [ lia | exact Hc ].
Qed.

End LagSearch.

Lemma classifyCorrelation_buckets (r : float) :
  ((0.7 <=? abs r)%float = true ->
   Double.classifyCorrelation r = "STRONG"%string) /\
  ((0.4 <=? abs r)%float = true -> (abs r <? 0.7)%float = true ->
   Double.classifyCorrelation r = "MODERATE"%string) /\
  ((0.2 <=? abs r)%float = true -> (abs r <? 0.4)%float = true ->
   Double.classifyCorrelation r = "WEAK"%string) /\
  ((abs r <? 0.2)%float = true ->
   Double.classifyCorrelation r = "NEGLIGIBLE"%string) /\
  (is_nan r = true -> Double.classifyCorrelation r = "NEGLIGIBLE"%string).
Proof.
  unfold Double.classifyCorrelation. cbv zeta. repeat split.
  - intros ->. reflexivity.
  - intros H4 H7. now rewrite (ltb_not_leb _ _ H7), H4.
  - intros H2 H4.
    rewrite (below_not_above 0.4 0.7 _ eq_refl H4), (ltb_not_leb _ _ H4), H2.
    reflexivity.
  - intros H2.
    rewrite (below_not_above 0.2 0.7 _ eq_refl H2),
            (below_not_above 0.2 0.4 _ eq_refl H2), (ltb_not_leb _ _ H2).
    reflexivity.
  - intros Hn. rewrite <- is_nan_abs in Hn.
    now rewrite !(leb_nan_r _ _ Hn).
Qed.

(** C8 (as the code has it, on doubles). For all series [xs], [ys] and
    every [maxLag], [bestLagCorrelation] returns a lag in [0, maxLag], as
    [r] the correlation of that lag rounded to four decimals, and as
    strength the bucket of its absolute value: at least 0.7 STRONG, at
    least 0.4 MODERATE, at least 0.2 WEAK, below 0.2 or [NaN] NEGLIGIBLE.
    The candidates are [pearson xs ys] (lag 0) and [laggedPearson xs ys k]
    for [k = 1..maxLag].  When the candidate at lag 0 is [NaN] the result
    is lag 0, whatever the other candidates are.  Otherwise the chosen
    correlation is a number, no candidate that is a number has a larger
    absolute value, and every such candidate at a smaller lag has a
    strictly smaller one (ties go to the smaller lag); a candidate that is
    [NaN] is passed over. *)
Theorem bestLagCorrelation_argmax (toFixed : nat -> float -> float)
    (xs ys : list float) (maxLag : nat) :
  let res := Double.bestLagCorrelation toFixed xs ys (Some maxLag) in
  let c := Double.candidate xs ys in
  let chosen := c (Double.lag res) in
  (Double.lag res <= maxLag)%nat /\
  Double.r res = toFixed 4%nat chosen /\
  (is_nan (c 0%nat) = true -> Double.lag res = 0%nat) /\
  (is_nan (c 0%nat) = false ->
     is_nan chosen = false /\
     (forall k, (k <= maxLag)%nat -> is_nan (c k) = false ->
                (abs (c k) <=? abs chosen)%float = true) /\
     (forall k, (k < Double.lag res)%nat -> is_nan (c k) = false ->
                (abs (c k) <? abs chosen)%float = true)) /\
  ((0.7 <=? abs chosen)%float = true -> Double.strength res = "STRONG"%string) /\
  ((0.4 <=? abs chosen)%float = true -> (abs chosen <? 0.7)%float = true ->
   Double.strength res = "MODERATE"%string) /\
  ((0.2 <=? abs chosen)%float = true -> (abs chosen <? 0.4)%float = true ->
   Double.strength res = "WEAK"%string) /\
  ((abs chosen <? 0.2)%float = true ->
   Double.strength res = "NEGLIGIBLE"%string) /\
  (is_nan chosen = true -> Double.strength res = "NEGLIGIBLE"%string).
Proof.
  cbv zeta. unfold Double.bestLagCorrelation.
  cbn [Double.lag Double.r Double.strength].
  destruct (bestLagSearch_invariant xs ys maxLag) as (Hle & Hr & Hnan & Hok).
  rewrite <- Hr.
  destruct (classifyCorrelation_buckets
              (Double.best_r (Double.bestLagSearch xs ys maxLag)))
    as (B1 & B2 & B3 & B4 & B5).
  split; [ exact Hle | ]. split; [ reflexivity | ]. split; [ exact Hnan | ].
  split; [ exact Hok | ]. repeat split; assumption.
Qed.

(** C8 as stated fails when the correlation at lag 0 overflows: for
    [xs = [1, 2, 3, 4, 1e200]], [ys = [1e200, 1, 2, 3, 4]] and [maxLag = 1]
    the sums of [pearson xs ys] reach infinity and the quotient is [NaN];
    at lag 1 both slices are [[1, 2, 3, 4]] and correlate with 1.  No
    comparison with [NaN] holds, so the search keeps lag 0: the result is
    lag 0 with strength NEGLIGIBLE, though lag 1 has the larger absolute
    correlation, a STRONG one. *)
Lemma bestLagCorrelation_nan_first :
  Double.best_lag (Double.bestLagSearch Double.Overflow.xs Double.Overflow.ys 1)
  = 0%nat /\
  is_nan (Double.best_r
            (Double.bestLagSearch Double.Overflow.xs Double.Overflow.ys 1))
  = true /\
  Double.candidate Double.Overflow.xs Double.Overflow.ys 0 
  = Double.best_r (Double.bestLagSearch Double.Overflow.xs Double.Overflow.ys 1) /\
  Double.candidate Double.Overflow.xs Double.Overflow.ys 1 = 1%float /\
  Double.classifyCorrelation
    (Double.candidate Double.Overflow.xs Double.Overflow.ys 1)
  = "STRONG"%string /\
  (forall toFixed,
     Double.lag (Double.bestLagCorrelation toFixed Double.Overflow.xs
                   Double.Overflow.ys (Some 1%nat)) = 0%nat /\
     Double.strength (Double.bestLagCorrelation toFixed Double.Overflow.xs
                        Double.Overflow.ys (Some 1%nat))
     = "NEGLIGIBLE"%string).
Proof.
  repeat split; vm_compute; reflexivity.
Qed.

(** Leaving [maxLag] out searches the lags up to 3. *)
Lemma bestLagCorrelation_default (toFixed : nat -> float -> float)
    (xs ys : list float) :
  Double.bestLagCorrelation toFixed xs ys None
  = Double.bestLagCorrelation toFixed xs ys (Some 3%nat).
Proof. reflexivity. Qed.

(* ================================================================= *)
(** ** Sums and slices *)

Section Sums.
Import Analysis.

Lemma sum_by_app {A} (f : A -> R) (l1 l2 : list A) :
  JS.sum_by f (l1 ++ l2) = JS.sum_by f l1 + JS.sum_by f l2.
Proof.
  unfold JS.sum_by. rewrite fold_left_app.
  generalize (fold_left (fun s v => s + f v) l1 0). 
  induction l2 as [|x l2 IH]; intros a; simpl.
  - lra.
  - rewrite IH, (IH (0 + f x)). lra.
Qed.

Lemma sum_by_cons {A} (f : A -> R) (x : A) (l : list A) :
  JS.sum_by f (x :: l) = f x + JS.sum_by f l.
Proof.
  change (x :: l) with ([x] ++ l). rewrite sum_by_app.
  unfold JS.sum_by at 1; simpl. lra.
Qed.

Lemma sum_by_nonneg {A} (f : A -> R) (l : list A) :
  (forall x, 0 <= f x) -> 0 <= JS.sum_by f l.
Proof.
  intros Hf. induction l as [|x l IH].
  - unfold JS.sum_by; simpl; lra.
  - rewrite sum_by_cons. specialize (Hf x). lra.
Qed.

Lemma sq_nonneg (m : R) (l : list R) : 0 <= squaredDeviations m l.
Proof. apply sum_by_nonneg. intros x. apply pow2_ge_0. Qed.

Lemma slice_to_all {A} (l : list A) :
  JS.slice_to (Z.of_nat (List.length l)) l = l.
Proof.
  unfold JS.slice_to.
  destruct (Z.ltb_spec (Z.of_nat (List.length l)) 0); [ lia | ].
  rewrite Z.min_id, Nat2Z.id. apply firstn_all.
Qed.

Lemma slice_to_prefix {A} (n : nat) (l : list A) :
  (n <= List.length l)%nat -> JS.slice_to (Z.of_nat n) l = firstn n l.
Proof.
  intros H. unfold JS.slice_to.
  destruct (Z.ltb_spec (Z.of_nat n) 0); [ lia | ].
  rewrite Z.min_l by lia. now rewrite Nat2Z.id.
Qed.

End Sums.

(* ================================================================= *)
(** ** Pearson correlation *)

Section PearsonLoop.
Import Double.
#[local] Open Scope float_scope.

Lemma squaredDeviations_snoc (m x : float) (l : list float) :
  squaredDeviations m (l ++ [x]) = squaredDeviations m l + (x - m) * (x - m).
Proof. unfold squaredDeviations. now rewrite fold_left_app. Qed.

(** On equal series the three accumulators of the loop stay equal to the
    sum of squared deviations of the elements visited so far. *)
Lemma pearson_loop_self (m : float) (l ext : list float) :
  fold_left (pearson_step (l ++ ext) (l ++ ext) m m) (seq 0 (List.length l))
            {| num := 0; dx2 := 0; dy2 := 0 |}
  = {| num := squaredDeviations m l; dx2 := squaredDeviations m l;
       dy2 := squaredDeviations m l |}.
Proof.
  revert ext. induction l as [|x l IH] using rev_ind; intros ext.
  - reflexivity.
  - rewrite length_app, Nat.add_comm. simpl List.length.
    rewrite seq_S, fold_left_app, <- app_assoc. simpl app.
    rewrite IH. simpl fold_left. unfold pearson_step. simpl Nat.add.
    rewrite nth_middle. cbn [num dx2 dy2].
    rewrite squaredDeviations_snoc. reflexivity.
Qed.

Lemma pearson_self_value (xs : list float) :
  (3 <= List.length xs)%nat ->
  pearson xs xs =
    let s := squaredDeviations (mean xs) xs in
    if PrimFloat.sqrt (s * s) =? 0 then 0 else s / PrimFloat.sqrt (s * s).
Proof.
  intros Hn. unfold pearson. rewrite Nat.min_id.
  destruct (Nat.ltb_spec (List.length xs) 3); [ lia | ].
  cbv zeta. rewrite slice_to_all.
  pose proof (pearson_loop_self (mean xs) xs []) as Hloop.
  rewrite app_nil_r in Hloop. rewrite Hloop. reflexivity.
Qed.

Lemma pearson_short (xs ys : list float) :
  (List.length xs < 3 \/ List.length ys < 3)%nat -> pearson xs ys = 0.
Proof.
  intros H. unfold pearson.
  destruct (Nat.ltb_spec (Nat.min (List.length xs) (List.length ys)) 3);
    [ reflexivity | lia ].
Qed.

Lemma pearson_loop_swap (xs ys : list float) (mx my : float) (l : list nat)
    (a : Acc) :
  fold_left (pearson_step ys xs my mx) l (acc_swap a)
  = acc_swap (fold_left (pearson_step xs ys mx my) l a).
Proof.
  revert a. induction l as [|i l IH]; intros a; simpl; [ reflexivity | ].
  rewrite <- IH. f_equal. unfold pearson_step, acc_swap. simpl.
  f_equal. f_equal. apply mul_comm.
Qed.

Lemma pearson_sym (xs ys : list float) : pearson xs ys = pearson ys xs.
Proof.
  unfold pearson. rewrite (Nat.min_comm (List.length ys)).
  destruct (Nat.min (List.length xs) (List.length ys) <? 3)%nat; [ reflexivity | ].
  cbv zeta.
  set (n := Nat.min _ _).
  set (mx := mean (JS.slice_to _ xs)).
  set (my := mean (JS.slice_to _ ys)).
  set (z := {| num := 0; dx2 := 0; dy2 := 0 |}).
  assert (E : fold_left (pearson_step ys xs my mx) (seq 0 n) z
              = acc_swap (fold_left (pearson_step xs ys mx my) (seq 0 n) z)).
  { rewrite <- pearson_loop_swap. reflexivity. }
  rewrite E. unfold acc_swap. cbn [num dx2 dy2].
  rewrite (mul_comm (dy2 _) (dx2 _)). reflexivity.
Qed.

Lemma candidate_short (xs ys : list float) (k : nat) :
  (List.length xs < 3 \/ List.length ys < 3)%nat -> candidate xs ys k = 0.
Proof.
  intros H. destruct k as [|k]; simpl; [ now apply pearson_short | ].
  apply pearson_short. unfold JS.slice_to, JS.slice_from.
  rewrite length_firstn, length_skipn. cbv zeta.
  destruct (Z.ltb_spec (Z.of_nat (List.length xs) - Z.of_nat (S k)) 0); lia.
Qed.

Lemma bestLagSearch_short (xs ys : list float) (n : nat) :
  (List.length xs < 3 \/ List.length ys < 3)%nat ->
  bestLagSearch xs ys n = {| best_lag := 0; best_r := 0 |}.
Proof.
  intros H. induction n as [|n IH].
  - unfold bestLagSearch. simpl. now rewrite pearson_short.
  - rewrite bestLagSearch_S, IH. unfold lag_step.
    change (laggedPearson xs ys (S n)) with (candidate xs ys (S n)).
    rewrite candidate_short by exact H. reflexivity.
Qed.

End PearsonLoop.

(** C9 (as the code has it, on doubles). [pearson xs xs] is [0] for a
    series of fewer than three values.  For three values or more the three
    sums of the loop are one and the same number [s], the sum of the
    squared deviations from the mean as the doubles accumulate it; when
    [s] lies between [2^-500] and [2^500], so that [s * s] neither
    underflows nor overflows, the square root of [s * s] is [s] and
    [pearson xs xs] is exactly [1]. *)
Theorem pearson_self (xs : list float) :
  let s := Double.squaredDeviations (Double.mean xs) xs in
  ((List.length xs < 3)%nat -> Double.pearson xs xs = 0%float) /\
  ((3 <= List.length xs)%nat ->
   (0x1p-500 <=? s)%float = true -> (s <=? 0x1p+500)%float = true ->
   Double.pearson xs xs = 1%float).
Proof.
  cbv zeta. split.
  - intros H. apply pearson_short. now left.
  - intros Hn Hlo Hhi. rewrite (pearson_self_value xs Hn). cbv zeta.
    rewrite (sqrt_mul_self _ Hlo Hhi).
    destruct (in_range_finite _ Hlo Hhi) as (m & e & Hs & _ & _).
    assert (Hpos : (0 <? Double.squaredDeviations (Double.mean xs) xs)%float = true).
    { rewrite ltb_spec, Hs. reflexivity. }
    assert (Hfin : (Double.squaredDeviations (Double.mean xs) xs
                    <? PrimFloat.infinity)%float = true).
    { rewrite ltb_spec, Hs. reflexivity. }
    rewrite (pos_not_zero _ Hpos). now apply div_self.
Qed.

(** The series [[1, 2, 3]]: [s] is [2]. *)
Lemma pearson_self_witness :
  Double.pearson [1; 2; 3]%float [1; 2; 3]%float = 1%float.
Proof.
  apply (proj2 (pearson_self [1; 2; 3]%float)).
  - simpl. lia.
  - vm_compute. reflexivity.
  - vm_compute. reflexivity.
Defined.

(** C9 as stated fails below three samples: the series [[1, 2]] has a
    positive standard deviation, and [pearson] answers [0] for it. *)
Lemma pearson_self_two_samples :
  (0 <? Double.stddev [1; 2])%float = true /\
  Double.pearson [1; 2]%float [1; 2]%float = 0%float.
Proof. vm_compute. split; reflexivity. Qed.

(** With three values or more the product [s * s] can leave the range of
    the doubles.  For [[1e-160, 2e-160, 3e-160]] it underflows to [0] and
    [pearson] answers [0]; for [[1e200, 2e200, 3e200]] the sum is infinite
    and the quotient [NaN].  The standard deviation is positive in both
    cases. *)
Lemma pearson_self_out_of_range :
  (0 <? Double.stddev [1e-160; 2e-160; 3e-160])%float = true /\
  Double.pearson [1e-160; 2e-160; 3e-160]%float [1e-160; 2e-160; 3e-160]%float
  = 0%float /\
  (0 <? Double.stddev [1e200; 2e200; 3e200])%float = true /\
  is_nan (Double.pearson [1e200; 2e200; 3e200]%float
                         [1e200; 2e200; 3e200]%float) = true.
Proof. vm_compute. repeat split. Qed.

(* ================================================================= *)
(** ** Drift detection *)

#[local] Arguments JS.ltb : simpl never.
#[local] Arguments JS.leb : simpl never.
#[local] Arguments JS.eqb : simpl never.
#[local] Arguments JS.toFixed : simpl never.
#[local] Arguments sqrt : simpl never.

Lemma toFixed_nonneg_value (k : nat) (x : R) (n : Z) :
  0 <= x -> IZR n <= x * JS.pow10 k + / 2 < IZR n + 1 ->
  JS.toFixed k x = IZR n / JS.pow10 k.
Proof.
  intros Hx Hn. unfold JS.toFixed.
  rewrite (proj2 (ltb_ge x 0)) by exact Hx.
  unfold JS.round_half_up. now rewrite (Zfloor_eq n).
Qed.

Lemma toFixed_neg_value (k : nat) (x : R) (n : Z) :
  x < 0 -> IZR n <= - x * JS.pow10 k + / 2 < IZR n + 1 ->
  JS.toFixed k x = - (IZR n / JS.pow10 k).
Proof.
  intros Hx Hn. unfold JS.toFixed.
  rewrite (proj2 (ltb_lt x 0)) by exact Hx.
  unfold JS.round_half_up. now rewrite (Zfloor_eq n).
Qed.

(** Evaluate the rounding of a known Number, given the integer it rounds to. *)
Ltac js_round n :=
  match goal with
  | |- context [JS.toFixed ?k ?x] =>
      first [ rewrite (toFixed_nonneg_value k x n)
                by (try split; change (JS.pow10 k) with (IZR (10 ^ Z.of_nat k));
                    simpl Z.pow; lra)
            | rewrite (toFixed_neg_value k x n)
                by (try split; change (JS.pow10 k) with (IZR (10 ^ Z.of_nat k));
                    simpl Z.pow; lra) ];
      change (JS.pow10 k) with (IZR (10 ^ Z.of_nat k)); simpl Z.pow
  end.

Ltac js_sqrt v :=
  match goal with
  | |- context [sqrt ?x] =>
      replace (sqrt x) with v by (symmetry; apply sqrt_lem_1; lra)
  end.

Ltac drift_unfold :=
  unfold computeDriftDetection, Drift.statistical_significance, Drift.zScore,
    Drift.stdDev, Drift.variance, Drift.spike, Drift.driftFactor,
    Drift.dailyDrift, Drift.currentRate, Drift.recentRates, Drift.recentDays,
    Drift.sortedDays, Drift.baselineRate, Drift.baselineDays, Drift.byDay,
    Drift.filtered, Drift.rate, JS.sort, JS.slice_last, JS.sum_by, JS.len,
    JS.str_cmp, default_baselineEnd, default_driftThreshold.

Ltac scenario_unfold :=
  unfold Scenario.recovering, Scenario.degrading, Scenario.easing,
    Scenario.fading, Scenario.unclear, Scenario.incident, Scenario.overbilled,
    Scenario.no_baseline, Scenario.leaked, Scenario.sound, Scenario.invoice,
    underbilled.

(** Evaluate a drift computation on a worked input. *)
Ltac drift_eval :=
  drift_unfold; scenario_unfold; simpl; repeat (js_decide; simpl).

Section DriftInvariants.

Lemma bump_wf (day : string) (a : bool) (byDay : Drift.ByDay) :
  Forall Drift.day_wf byDay -> Forall Drift.day_wf (Drift.bump day a byDay).
Proof.
  induction byDay as [|[d v] rest IH]; intros Hwf; simpl.
  - constructor; [ | constructor ]. unfold Drift.day_wf; simpl. destruct a; lia.
  - inversion Hwf as [|? ? Hv Hrest]; subst.
    destruct (String.eqb d day).
    + constructor; [ | exact Hrest ].
      unfold Drift.day_wf in *; simpl in *. destruct a; lia.
    + constructor; [ exact Hv | now apply IH ].
Qed.

Lemma byDay_wf (invoices : list Invoice.t) (service : option string) :
  Forall Drift.day_wf (Drift.byDay invoices service).
Proof.
  unfold Drift.byDay.
  assert (G : forall l acc, Forall Drift.day_wf acc ->
            Forall Drift.day_wf
              (fold_left (fun acc inv =>
                 Drift.bump (JS.str_slice10 (Invoice.timestamp inv))
                            (underbilled inv) acc) l acc)).
  { induction l as [|inv l IH]; intros acc Hacc; simpl; auto.
    apply IH, bump_wf, Hacc. }
  apply G. constructor.
Qed.

Lemma rate_bounds (e : string * Drift.DayCount) :
  Drift.day_wf e -> 0 <= Drift.rate (snd e) <= 1.
Proof.
  intros [H1 H2]. unfold Drift.rate.
  assert (Ht : 0 < INR (Drift.total (snd e))) by (apply lt_0_INR; lia).
  assert (Ha : 0 <= INR (Drift.anomalies (snd e))) by apply pos_INR.
  apply le_INR in H2. split.
  - apply Rmult_le_pos; [ exact Ha | left; now apply Rinv_0_lt_compat ].
  - apply (Rmult_le_reg_r (INR (Drift.total (snd e)))); [ exact Ht | ].
    unfold Rdiv. rewrite Rmult_assoc, Rinv_l by lra. lra.
Qed.

Lemma get_wf (byDay : Drift.ByDay) (day : string) :
  Forall Drift.day_wf byDay -> In day (map fst byDay) ->
  Drift.day_wf (day, Drift.get byDay day).
Proof.
  induction byDay as [|[d v] rest IH]; simpl; intros Hwf Hin; [ tauto | ].
  inversion Hwf as [|? ? Hv Hrest]; subst.
  destruct (String.eqb_spec d day) as [->|Hne].
  - exact Hv.
  - destruct Hin as [Heq | Hin]; [ contradiction | now apply IH ].
Qed.

Lemma sort_insert_In {A} (cmp : A -> A -> R) (x y : A) (l : list A) :
  In y (JS.sort_insert cmp x l) <-> y = x \/ In y l.
Proof.
  induction l as [|z l IH]; simpl.
  - intuition.
  - destruct (JS.gtb (cmp z x) 0); simpl; rewrite ?IH; intuition.
Qed.

Lemma sort_In {A} (cmp : A -> A -> R) (y : A) (l : list A) :
  In y (JS.sort cmp l) <-> In y l.
Proof.
  unfold JS.sort.
  assert (G : forall l acc,
            In y (fold_left (fun acc x => JS.sort_insert cmp x acc) l acc)
            <-> In y acc \/ In y l).
  { clear l. induction l as [|x l IH]; intros acc; simpl.
    - intuition.
    - rewrite IH, sort_insert_In. intuition. }
  rewrite G. simpl. intuition.
Qed.

Lemma slice_last_In {A} (k : nat) (y : A) (l : list A) :
  In y (JS.slice_last k l) -> In y l.
Proof.
  unfold JS.slice_last. intros H.
  rewrite <- (firstn_skipn (List.length l - k) l).
  apply in_or_app. now right.
Qed.

Lemma sum_nonneg (l : list R) :
  Forall (fun r => 0 <= r) l -> 0 <= JS.sum_by (fun r => r) l.
Proof.
  induction 1 as [|r l Hr Hl IH].
  - unfold JS.sum_by; simpl; lra.
  - rewrite sum_by_cons. lra.
Qed.

(** [sum / length] of Numbers that are not negative. *)
Lemma average_nonneg (l : list R) :
  Forall (fun r => 0 <= r) l ->
  0 <= (if (0 <? List.length l)%nat
        then JS.sum_by (fun r => r) l / JS.len l else 0).
Proof.
  intros Hl. destruct (Nat.ltb_spec 0 (List.length l)); [ | lra ].
  apply Rmult_le_pos; [ now apply sum_nonneg | ].
  left. apply Rinv_0_lt_compat. unfold JS.len. apply lt_0_INR. lia.
Qed.

Variables (invoices : list Invoice.t) (service : option string)
          (baselineEnd : string).

Lemma baselineDays_nonneg :
  Forall (fun r => 0 <= r) (Drift.baselineDays invoices service baselineEnd).
Proof.
  unfold Drift.baselineDays. apply Forall_map, Forall_forall.
  intros e He. apply filter_In in He as [He _].
  pose proof (byDay_wf invoices service) as Hwf.
  rewrite Forall_forall in Hwf. apply rate_bounds; auto.
Qed.

Lemma recentRates_nonneg :
  Forall (fun r => 0 <= r) (Drift.recentRates invoices service).
Proof.
  unfold Drift.recentRates, Drift.recentDays, Drift.sortedDays.
  apply Forall_map, Forall_forall. intros d Hd.
  apply slice_last_In, sort_In in Hd.
  apply (rate_bounds (d, _)), get_wf; [ apply byDay_wf | exact Hd ].
Qed.

Lemma baselineRate_nonneg : 0 <= Drift.baselineRate invoices service baselineEnd.
Proof. apply average_nonneg, baselineDays_nonneg. Qed.

Lemma currentRate_nonneg : 0 <= Drift.currentRate invoices service.
Proof. apply average_nonneg, recentRates_nonneg. Qed.

Lemma driftFactor_nonneg : 0 <= Drift.driftFactor invoices service baselineEnd.
Proof.
  unfold Drift.driftFactor. js_split; [ | lra ].
  pose proof currentRate_nonneg.
  apply Rmult_le_pos; [ assumption | left; now apply Rinv_0_lt_compat ].
Qed.

End DriftInvariants.

(** C6 as stated fails on the reported values: the detector returns its
    rates as percentages and rounds every figure to two decimals.  With one
    leaking baseline day followed by two clean days the reported drift
    factor is 0.33, while the reported rates are 33.33 and 100 and the
    ratio of the rates is 1/3. *)
Lemma reported_driftFactor_is_rounded :
  let d := computeDriftDetection Scenario.easing None
             default_baselineEnd default_driftThreshold in
  DriftResult.baselineRate d = 100 /\
  DriftResult.currentRate d = 33.33 /\
  DriftResult.driftFactor d = 0.33 /\
  0 < DriftResult.baselineRate d /\
  DriftResult.driftFactor d
    <> DriftResult.currentRate d / DriftResult.baselineRate d /\
  Drift.currentRate Scenario.easing None
    / Drift.baselineRate Scenario.easing None default_baselineEnd = 1 / 3 /\
  DriftResult.driftFactor d
    <> Drift.currentRate Scenario.easing None
       / Drift.baselineRate Scenario.easing None default_baselineEnd.
Proof.
  cbv zeta.
  assert (Hr : Drift.currentRate Scenario.easing None
               / Drift.baselineRate Scenario.easing None default_baselineEnd
               = 1 / 3).
  { drift_eval. lra. }
  assert (Hb : DriftResult.baselineRate
                 (computeDriftDetection Scenario.easing None
                    default_baselineEnd default_driftThreshold) = 100).
  { simpl. drift_eval. js_round 10000%Z. lra. }
  assert (Hc : DriftResult.currentRate
                 (computeDriftDetection Scenario.easing None
                    default_baselineEnd default_driftThreshold) = 33.33).
  { simpl. drift_eval. js_round 3333%Z. lra. }
  assert (Hf : DriftResult.driftFactor
                 (computeDriftDetection Scenario.easing None
                    default_baselineEnd default_driftThreshold) = 0.33).
  { simpl. drift_eval. js_round 33%Z. lra. }
  rewrite Hb, Hc, Hf, Hr. repeat split; lra.
Qed.

(** C6 (as the code has it). For every invoice list, service filter,
    baseline boundary and non-negative spike threshold: the drift factor is
    [currentRate / baselineRate] when the baseline rate is positive and [0]
    otherwise, so the division never sees a zero baseline; it is never
    negative; the detector reports it rounded to two decimals, still not
    negative, next to the two rates as percentages rounded to two decimals;
    and with no baseline day the baseline rate and the drift factor, raw
    and reported, are [0] and no spike is declared. *)
Theorem driftFactor_guarded (invoices : list Invoice.t)
    (service : option string) (baselineEnd : string) (driftThreshold : R) :
  0 <= driftThreshold ->
  let b := Drift.baselineRate invoices service baselineEnd in
  let c := Drift.currentRate invoices service in
  let f := Drift.driftFactor invoices service baselineEnd in
  let d := computeDriftDetection invoices service baselineEnd driftThreshold in
  (0 < b -> f = c / b) /\
  (~ 0 < b -> f = 0) /\
  0 <= f /\
  DriftResult.driftFactor d = JS.toFixed 2 f /\
  0 <= DriftResult.driftFactor d /\
  DriftResult.baselineRate d = JS.toFixed 2 (b * 100) /\
  DriftResult.currentRate d = JS.toFixed 2 (c * 100) /\
  (Drift.baselineDays invoices service baselineEnd = [] ->
     b = 0 /\ f = 0 /\ DriftResult.baselineRate d = 0 /\
     DriftResult.driftFactor d = 0 /\ DriftResult.spike d = false).
Proof.
  intros Hthr. cbv zeta.
  pose proof (driftFactor_nonneg invoices service baselineEnd) as Hf.
  assert (Hz : JS.toFixed 2 0 = 0) by apply (toFixed_IZR 2 0).
  repeat split.
  - intros Hb. unfold Drift.driftFactor. now js_decide.
  - intros Hb. unfold Drift.driftFactor. js_split; [ contradiction | reflexivity ].
  - exact Hf.
  - simpl. rewrite <- Hz. now apply toFixed_mono.
  - unfold Drift.baselineRate. now rewrite H.
  - unfold Drift.driftFactor, Drift.baselineRate. rewrite H. simpl.
    now js_decide.
  - simpl. unfold Drift.baselineRate. rewrite H. simpl.
    rewrite Rmult_0_l. exact Hz.
  - simpl. unfold Drift.driftFactor, Drift.baselineRate. rewrite H. simpl.
    js_decide. exact Hz.
  - simpl. unfold Drift.spike, Drift.driftFactor, Drift.baselineRate.
    rewrite H. simpl. js_decide. now js_decide.
Qed.

Lemma no_baseline_days :
  Drift.baselineDays Scenario.no_baseline None default_baselineEnd = [].
Proof. reflexivity. Qed.

Lemma driftFactor_guarded_witness :
  DriftResult.spike
    (computeDriftDetection Scenario.no_baseline None
       default_baselineEnd default_driftThreshold) = false.
Proof.
  assert (Hthr : 0 <= default_driftThreshold)
    by (unfold default_driftThreshold; lra).
  pose proof (driftFactor_guarded Scenario.no_baseline None
                default_baselineEnd default_driftThreshold Hthr) as H.
  cbv zeta in H. destruct H as (_ & _ & _ & _ & _ & _ & _ & H).
  apply H, no_baseline_days.
Defined.

(* ================================================================= *)
(** ** Significance tier *)

Lemma tier_of_zScore (invoices : list Invoice.t) (service : option string)
    (baselineEnd : string) :
  let z := Drift.zScore invoices service baselineEnd in
  let t := Drift.statistical_significance invoices service baselineEnd in
  (3 < z -> t = "HIGH_SIGNAL"%string) /\
  (2 < z <= 3 -> t = "MODERATE"%string) /\
  (z <= 2 -> t = "NOISE"%string).
Proof.
  cbv zeta. unfold Drift.statistical_significance.
  repeat split; intros H; repeat js_decide; reflexivity.
Qed.

Lemma tier_rank_mono (invoices1 invoices2 : list Invoice.t)
    (service1 service2 : option string) (baselineEnd1 baselineEnd2 : string) :
  Drift.zScore invoices1 service1 baselineEnd1
    <= Drift.zScore invoices2 service2 baselineEnd2 ->
  (tier_rank (Drift.statistical_significance invoices1 service1 baselineEnd1)
   <= tier_rank (Drift.statistical_significance invoices2 service2 baselineEnd2))%nat.
Proof.
  intros Hz. unfold Drift.statistical_significance.
  repeat js_split; try (exfalso; lra); unfold tier_rank; simpl; lia.
Qed.

(** C7 as stated fails: the tier is decided on the signed z-score.  A
    recovery (anomaly rate falling from 100% to 0%) has z-score -100 and is
    NOISE, while a degradation with z-score 50 is HIGH_SIGNAL. *)
Lemma tier_not_monotone_in_abs_zScore :
  let a := computeDriftDetection Scenario.recovering None
             default_baselineEnd default_driftThreshold in
  let b := computeDriftDetection Scenario.degrading None
             default_baselineEnd default_driftThreshold in
  DriftResult.zScore a = -100 /\
  DriftResult.statistical_significance a = "NOISE"%string /\
  DriftResult.zScore b = 50 /\
  DriftResult.statistical_significance b = "HIGH_SIGNAL"%string /\
  Rabs (DriftResult.zScore b) < Rabs (DriftResult.zScore a) /\
  (tier_rank (DriftResult.statistical_significance a)
   < tier_rank (DriftResult.statistical_significance b))%nat.
Proof.
  cbv zeta.
  assert (Za : Drift.zScore Scenario.recovering None default_baselineEnd = -100).
  { drift_eval. js_sqrt 0.01. js_decide. lra. }
  assert (Zb : Drift.zScore Scenario.degrading None default_baselineEnd = 50).
  { drift_eval. js_sqrt 0.01. js_decide. lra. }
  assert (Ta : Drift.statistical_significance Scenario.recovering None
                 default_baselineEnd = "NOISE"%string).
  { unfold Drift.statistical_significance. rewrite Za.
    repeat js_decide. reflexivity. }
  assert (Tb : Drift.statistical_significance Scenario.degrading None
                 default_baselineEnd = "HIGH_SIGNAL"%string).
  { unfold Drift.statistical_significance. rewrite Zb.
    repeat js_decide. reflexivity. }
  simpl DriftResult.zScore. simpl DriftResult.statistical_significance.
  rewrite Za, Zb, Ta, Tb.
  rewrite (toFixed_IZR 2 (-100)), (toFixed_IZR 2 50).
  rewrite (Rabs_right 50) by lra. rewrite (Rabs_left (-100)) by lra.
  repeat split; try lra. unfold tier_rank; simpl. lia.
Qed.

(** C7 (as the code has it). The significance tier, ordered
    NOISE < MODERATE < HIGH_SIGNAL, is monotonic in the signed z-score: of
    two drift results, the one with the larger z-score -- compared before
    rounding, or strictly larger as reported -- never has the lower tier. *)
Theorem tier_monotone_in_zScore (invoices1 invoices2 : list Invoice.t)
    (service1 service2 : option string) (baselineEnd1 baselineEnd2 : string)
    (threshold1 threshold2 : R) :
  let d1 := computeDriftDetection invoices1 service1 baselineEnd1 threshold1 in
  let d2 := computeDriftDetection invoices2 service2 baselineEnd2 threshold2 in
  Drift.zScore invoices1 service1 baselineEnd1
    <= Drift.zScore invoices2 service2 baselineEnd2
  \/ DriftResult.zScore d1 < DriftResult.zScore d2 ->
  (tier_rank (DriftResult.statistical_significance d1)
   <= tier_rank (DriftResult.statistical_significance d2))%nat.
Proof.
  cbv zeta. simpl. intros [Hz | Hz].
  - now apply tier_rank_mono.
  - apply tier_rank_mono.
    destruct (Rle_dec (Drift.zScore invoices1 service1 baselineEnd1)
                      (Drift.zScore invoices2 service2 baselineEnd2)) as [Hle | Hgt];
      [ exact Hle | ].
    assert (Hrev : Drift.zScore invoices2 service2 baselineEnd2
                   <= Drift.zScore invoices1 service1 baselineEnd1) by lra.
    apply (toFixed_mono 2) in Hrev. lra.
Qed.

Lemma zScore_recovering_le_degrading :
  Drift.zScore Scenario.recovering None default_baselineEnd
    <= Drift.zScore Scenario.degrading None default_baselineEnd.
Proof.
  assert (Za : Drift.zScore Scenario.recovering None default_baselineEnd = -100).
  { drift_eval. js_sqrt 0.01. js_decide. lra. }
  assert (Zb : Drift.zScore Scenario.degrading None default_baselineEnd = 50).
  { drift_eval. js_sqrt 0.01. js_decide. lra. }
  rewrite Za, Zb. lra.
Qed.

Lemma tier_monotone_in_zScore_witness :
  (tier_rank (DriftResult.statistical_significance
                (computeDriftDetection Scenario.recovering None
                   default_baselineEnd default_driftThreshold))
   <= tier_rank (DriftResult.statistical_significance
                   (computeDriftDetection Scenario.degrading None
                      default_baselineEnd default_driftThreshold)))%nat.
Proof.
  apply (tier_monotone_in_zScore Scenario.recovering Scenario.degrading
           None None default_baselineEnd default_baselineEnd
           default_driftThreshold default_driftThreshold).
  left. exact zScore_recovering_le_degrading.
Defined.

(* ================================================================= *)
(** ** Attribution confidence *)

Lemma iso_parse_values :
  IsoDate.parse "2026-02-21T23:59:59Z"%string = Some 1771718399000%Z /\
  IsoDate.parse "1970-01-01"%string = Some 0%Z /\
  IsoDate.parse "2026-02-10"%string = Some 1770681600000%Z /\
  IsoDate.parse "2024-02-29T12:00:00.500Z"%string = Some 1709208000500%Z /\
  IsoDate.parse "2026-02-30"%string = None.
Proof. vm_compute. repeat split. Qed.

Ltac conf_unfold :=
  unfold computeConfidence, Conf.classification, Conf.clampedConfidence,
    Conf.confidence, Conf.impactDelta, Conf.temporalScore, Conf.rateAfter,
    Conf.rateBefore, Conf.anomaliesAfter, Conf.anomaliesBefore, Conf.after,
    Conf.before, Conf.spikeStart, Conf.drift, Conf.serviceInvoices,
    findSpikeStart, str_geb.

(** Evaluate a confidence computation on a worked input. *)
Ltac conf_eval :=
  conf_unfold; drift_unfold; scenario_unfold; simpl;
  repeat (js_decide; simpl).

(** Decide the [Math.min] and [Math.max] of known Numbers. *)
Ltac js_minmax :=
  unfold Rmin, Rmax;
  repeat match goal with
         | |- context [Rle_dec ?x ?y] =>
             first [ destruct (Rle_dec x y); [ | exfalso; lra ]
                   | destruct (Rle_dec x y); [ exfalso; lra | ] ]
         end;
  try lra.

#[local] Arguments dateDiffDays : simpl never.

Lemma clamp_bounds (x : R) : -1 <= Rmax (-1) (Rmin 1 x) <= 1.
Proof.
  split; [ apply Rmax_l | ].
  apply Rmax_lub; [ lra | apply Rmin_l ].
Qed.

(** Rounding moves a Number by at most half a unit of the last decimal. *)
Lemma toFixed_close (k : nat) (x : R) :
  Rabs (JS.toFixed k x - x) <= / 2 * / JS.pow10 k.
Proof.
  pose proof (pow10_pos k) as Hp.
  assert (Hi : 0 < / JS.pow10 k) by now apply Rinv_0_lt_compat.
  assert (G : forall y, Rabs (IZR (JS.round_half_up y) / JS.pow10 k
                              - y / JS.pow10 k) <= / 2 * / JS.pow10 k).
  { intros y. unfold JS.round_half_up.
    pose proof (Zfloor_bound (y + / 2)) as [H1 H2].
    replace (IZR (Zfloor (y + / 2)) / JS.pow10 k - y / JS.pow10 k)
      with ((IZR (Zfloor (y + / 2)) - y) * / JS.pow10 k) by (unfold Rdiv; ring).
    rewrite Rabs_mult, (Rabs_right (/ JS.pow10 k)) by lra.
    apply Rmult_le_compat_r; [ lra | ].
    apply Rabs_le. lra. }
  unfold JS.toFixed. js_split.
  - specialize (G (- x * JS.pow10 k)).
    replace (- x * JS.pow10 k / JS.pow10 k) with (- x) in G by (field; lra).
    rewrite <- Rabs_Ropp.
    replace (- (- (IZR (JS.round_half_up (- x * JS.pow10 k)) / JS.pow10 k) - x))
      with (IZR (JS.round_half_up (- x * JS.pow10 k)) / JS.pow10 k - - x) by ring.
    exact G.
  - specialize (G (x * JS.pow10 k)).
    replace (x * JS.pow10 k / JS.pow10 k) with x in G by (field; lra).
    exact G.
Qed.

Section ConfidenceFacts.
Variables (Date_parse : DateParser) (invoices : list Invoice.t)
          (service deploymentDate : string).

Lemma temporalScore_values :
  let ts := Conf.temporalScore Date_parse invoices service deploymentDate in
  ts = 1 \/ ts = 0.7 \/ ts = -0.5 \/ ts = 0.
Proof.
  cbv zeta. unfold Conf.temporalScore.
  destruct (Conf.spikeStart invoices service) as [s|]; [ | tauto ].
  destruct (JS.truthy s); [ | tauto ].
  destruct (dateDiffDays Date_parse s (JS.str_slice10 deploymentDate)); [ | tauto ].
  destruct (JS.geb r 0 && JS.leb r 1); [ left; lra | ].
  destruct (JS.gtb r 1 && JS.leb r 3); [ tauto | ].
  destruct (JS.ltb r 0); tauto.
Qed.

Lemma classification_thresholds :
  let c := Conf.clampedConfidence Date_parse invoices service deploymentDate in
  let label := Conf.classification Date_parse invoices service deploymentDate in
  (0.7 <= c -> label = "STRONG CAUSAL LINK"%string) /\
  (0.3 <= c < 0.7 -> label = "MODERATE CORRELATION"%string) /\
  (0 <= c < 0.3 -> label = "WEAK SIGNAL"%string) /\
  (c < 0 -> label = "INVERSE CORRELATION"%string).
Proof.
  cbv zeta. unfold Conf.classification.
  repeat split; intros H; repeat js_decide; reflexivity.
Qed.
End ConfidenceFacts.

(** C4 as stated fails on the returned value, which is rounded to four
    decimals.  With anomaly rates of 1/2 before and 1/3 after the
    deployment and no spike, the formula gives -5/6 and the scorer returns
    -0.8333. *)
Lemma confidence_is_rounded :
  let res := computeConfidence IsoDate.parse Scenario.fading
               "billing-service" "2026-02-12T00:00:00.000Z" in
  let delta :=
    Conf.rateAfter Scenario.fading "billing-service" "2026-02-12T00:00:00.000Z"
    - Conf.rateBefore Scenario.fading "billing-service" "2026-02-12T00:00:00.000Z" in
  let formula :=
    Rmax (-1) (Rmin 1 (Confidence.temporalScore res * 0.6 + Rmin (delta * 5) 0.4)) in
  Confidence.temporalScore res = 0 /\
  delta = 1 / 3 - 1 / 2 /\
  formula = - 5 / 6 /\
  Confidence.confidence res = - 0.8333 /\
  Confidence.confidence res <> formula.
Proof.
  cbv zeta.
  assert (Ht : Conf.temporalScore IsoDate.parse Scenario.fading
                 "billing-service" "2026-02-12T00:00:00.000Z" = 0).
  { conf_eval. reflexivity. }
  assert (Hd : Conf.rateAfter Scenario.fading "billing-service"
                 "2026-02-12T00:00:00.000Z"
               - Conf.rateBefore Scenario.fading "billing-service"
                   "2026-02-12T00:00:00.000Z" = 1 / 3 - 1 / 2).
  { conf_eval. lra. }
  assert (Hc : Conf.clampedConfidence IsoDate.parse Scenario.fading
                 "billing-service" "2026-02-12T00:00:00.000Z" = - 5 / 6).
  { unfold Conf.clampedConfidence, Conf.confidence, Conf.impactDelta.
    rewrite Ht, Hd. js_minmax. }
  simpl Confidence.temporalScore. simpl Confidence.confidence.
  rewrite Ht, Hd, Hc.
  assert (Hf : Rmax (-1) (Rmin 1 (0 * 0.6 + Rmin ((1 / 3 - 1 / 2) * 5) 0.4))
               = - 5 / 6) by js_minmax.
  rewrite Hf.
  assert (Hr : JS.toFixed 4 (- 5 / 6) = - 0.8333) by (js_round 8333%Z; lra).
  rewrite Hr. repeat split; lra.
Qed.

(** C4 (as the code has it). For every invoice set, service and candidate
    deployment timestamp, whatever the rates before and after: the clamped
    confidence is clamp(temporal_score × 0.6 + min(impact_delta × 5, 0.4),
    -1, 1); the scorer returns it rounded to four decimals, so within
    0.00005 of the formula; and both lie in [-1, 1]. *)
Theorem confidence_formula (Date_parse : DateParser)
    (invoices : list Invoice.t) (service deploymentDate : string) :
  let res := computeConfidence Date_parse invoices service deploymentDate in
  let impact_delta :=
    Conf.rateAfter invoices service deploymentDate
    - Conf.rateBefore invoices service deploymentDate in
  let formula :=
    Rmax (-1) (Rmin 1 (Confidence.temporalScore res * 0.6
                       + Rmin (impact_delta * 5) 0.4)) in
  Conf.clampedConfidence Date_parse invoices service deploymentDate = formula /\
  Confidence.confidence res = JS.toFixed 4 formula /\
  Rabs (Confidence.confidence res - formula) <= 0.00005 /\
  -1 <= formula <= 1 /\
  -1 <= Confidence.confidence res <= 1.
Proof.
  cbv zeta. simpl Confidence.temporalScore. simpl Confidence.confidence.
  unfold Conf.clampedConfidence, Conf.confidence, Conf.impactDelta.
  split; [ reflexivity | ]. split; [ reflexivity | ].
  split; [ | split ].
  - eapply Rle_trans; [ apply toFixed_close | ].
    change (JS.pow10 4) with 10000. lra.
  - apply clamp_bounds.
  - apply (toFixed_between 4 (-1) 1), clamp_bounds.
Qed.

Lemma incident_spikeStart :
  Conf.spikeStart Scenario.incident "billing-service" = Some "2026-02-10"%string.
Proof.
  conf_eval.
  js_round 100%Z. js_decide. simpl.
  js_round 400%Z. js_decide. simpl. reflexivity.
Qed.

Lemma incident_diffDays :
  dateDiffDays IsoDate.parse "2026-02-10"
    (JS.str_slice10 "2026-02-10T08:00:00.000Z") = Some 0.
Proof.
  unfold dateDiffDays.
  replace (IsoDate.parse (JS.str_slice10 "2026-02-10T08:00:00.000Z"%string))
    with (Some 1770681600000%Z) by (vm_compute; reflexivity).
  replace (IsoDate.parse "2026-02-10"%string) with (Some 1770681600000%Z)
    by (vm_compute; reflexivity).
  rewrite Z.sub_diag. f_equal. unfold Rdiv. ring.
Qed.

Lemma incident_clampedConfidence :
  Conf.clampedConfidence IsoDate.parse Scenario.incident "billing-service"
    "2026-02-10T08:00:00.000Z" = 1.
Proof.
  unfold Conf.clampedConfidence, Conf.confidence, Conf.temporalScore.
  rewrite incident_spikeStart.
  change (JS.truthy "2026-02-10") with true. cbv iota.
  rewrite incident_diffDays.
  repeat js_decide. simpl andb. cbv iota.
  assert (Hd : Conf.impactDelta Scenario.incident "billing-service"
                 "2026-02-10T08:00:00.000Z" = 3 / 4).
  { conf_eval. lra. }
  rewrite Hd. js_minmax.
Qed.

(** C5 as stated fails on the labels: the scorer writes them with spaces,
    not underscores.  A confidence of 1 is labelled "STRONG CAUSAL LINK",
    and the confidence 0 of an empty invoice set "WEAK SIGNAL". *)
Lemma classification_labels_have_spaces :
  Conf.clampedConfidence IsoDate.parse Scenario.incident "billing-service"
    "2026-02-10T08:00:00.000Z" = 1 /\
  Confidence.classification
    (computeConfidence IsoDate.parse Scenario.incident "billing-service"
       "2026-02-10T08:00:00.000Z") = "STRONG CAUSAL LINK"%string /\
  Confidence.classification
    (computeConfidence IsoDate.parse Scenario.incident "billing-service"
       "2026-02-10T08:00:00.000Z") <> "STRONG_CAUSAL_LINK"%string /\
  Conf.clampedConfidence IsoDate.parse [] "billing-service" "2026-02-10" = 0 /\
  Confidence.classification
    (computeConfidence IsoDate.parse [] "billing-service" "2026-02-10")
  = "WEAK SIGNAL"%string /\
  Confidence.classification
    (computeConfidence IsoDate.parse [] "billing-service" "2026-02-10")
  <> "WEAK_SIGNAL"%string.
Proof.
  assert (H1 : Confidence.classification
                 (computeConfidence IsoDate.parse Scenario.incident
                    "billing-service" "2026-02-10T08:00:00.000Z")
               = "STRONG CAUSAL LINK"%string).
  { simpl. unfold Conf.classification. rewrite incident_clampedConfidence.
    js_decide. reflexivity. }
  assert (H0 : Conf.clampedConfidence IsoDate.parse [] "billing-service"
                 "2026-02-10" = 0).
  { conf_eval. js_minmax. }
  assert (H2 : Confidence.classification
                 (computeConfidence IsoDate.parse [] "billing-service" "2026-02-10")
               = "WEAK SIGNAL"%string).
  { simpl. unfold Conf.classification. rewrite H0.
    repeat js_decide. reflexivity. }
  rewrite H1, H2.
  repeat split; try assumption; try discriminate.
  apply incident_clampedConfidence.
Qed.

(** C5 (as the code has it). For every attribution result the
    classification is a function of the clamped confidence alone:
    at least 0.7 "STRONG CAUSAL LINK", at least 0.3 "MODERATE CORRELATION",
    at least 0 "WEAK SIGNAL", below 0 "INVERSE CORRELATION"; so two
    attributions with the same clamped confidence carry the same label. *)
Theorem classification_by_confidence (Date_parse : DateParser)
    (invoices : list Invoice.t) (service deploymentDate : string) :
  let c := Conf.clampedConfidence Date_parse invoices service deploymentDate in
  let label :=
    Confidence.classification
      (computeConfidence Date_parse invoices service deploymentDate) in
  (0.7 <= c -> label = "STRONG CAUSAL LINK"%string) /\
  (0.3 <= c < 0.7 -> label = "MODERATE CORRELATION"%string) /\
  (0 <= c < 0.3 -> label = "WEAK SIGNAL"%string) /\
  (c < 0 -> label = "INVERSE CORRELATION"%string) /\
  (forall Date_parse' invoices' service' deploymentDate',
     Conf.clampedConfidence Date_parse' invoices' service' deploymentDate' = c ->
     Confidence.classification
       (computeConfidence Date_parse' invoices' service' deploymentDate') = label).
Proof.
  cbv zeta. simpl Confidence.classification.
  destruct (classification_thresholds Date_parse invoices service deploymentDate)
    as (T1 & T2 & T3 & T4).
  repeat split; auto.
  intros P' i' s' d' Heq. unfold Conf.classification. now rewrite Heq.
Qed.

(* ================================================================= *)
(** ** The head of a descending sort *)

Lemma sort_insert_head_max {A} (f : A -> R) (x : A) (l : list A) :
  (forall h, hd_error l = Some h -> forall y, In y l -> f y <= f h) ->
  forall h, hd_error (JS.sort_insert (fun a b => f b - f a) x l) = Some h ->
  forall y, In y (JS.sort_insert (fun a b => f b - f a) x l) -> f y <= f h.
Proof.
  intros Hmax h Hh y Hy. apply sort_insert_In in Hy.
  destruct l as [|z l]; simpl in Hh.
  - injection Hh as <-. destruct Hy as [-> | []]. lra.
  - specialize (Hmax z eq_refl).
    destruct (JS.gtb (f x - f z) 0) eqn:Hc; unfold JS.gtb in Hc;
      simpl in Hh; injection Hh as <-.
    + apply ltb_lt in Hc. destruct Hy as [-> | Hy]; [ lra | ].
      specialize (Hmax y Hy). lra.
    + apply ltb_ge in Hc. destruct Hy as [-> | Hy]; [ lra | ].
      now apply Hmax.
Qed.

Lemma sort_head_max {A} (f : A -> R) (l : list A) (h : A) :
  hd_error (JS.sort (fun a b => f b - f a) l) = Some h ->
  In h l /\ forall y, In y l -> f y <= f h.
Proof.
  intros Hh. split.
  - apply (sort_In (fun a b => f b - f a)).
    destruct (JS.sort _ l); simpl in Hh; [ discriminate | ].
    injection Hh as ->. now left.
  - intros y Hy. apply (sort_In (fun a b => f b - f a)) in Hy.
    revert h Hh y Hy. unfold JS.sort.
    assert (G : forall l acc,
              (forall h, hd_error acc = Some h -> forall y, In y acc -> f y <= f h) ->
              forall h,
                hd_error (fold_left (fun acc x =>
                            JS.sort_insert (fun a b => f b - f a) x acc) l acc)
                = Some h ->
                forall y,
                  In y (fold_left (fun acc x =>
                          JS.sort_insert (fun a b => f b - f a) x acc) l acc) ->
                  f y <= f h).
    { clear l. induction l as [|x l IH]; intros acc Hacc; simpl.
      - exact Hacc.
      - apply IH. now apply sort_insert_head_max. }
    apply G. intros h Hh. discriminate.
Qed.

Lemma sort_nonempty {A} (cmp : A -> A -> R) (l : list A) :
  l <> [] -> exists h, hd_error (JS.sort cmp l) = Some h.
Proof.
  intros Hl. destruct l as [|x l]; [ contradiction | ].
  assert (Hin : In x (JS.sort cmp (x :: l))) by (apply sort_In; now left).
  destruct (JS.sort cmp (x :: l)) as [|h t]; [ contradiction | ].
  now exists h.
Qed.

Lemma sort_insert_ext {A} (cmp cmp' : A -> A -> R) (x : A) (l : list A) :
  (forall y, In y l -> cmp y x = cmp' y x) ->
  JS.sort_insert cmp x l = JS.sort_insert cmp' x l.
Proof.
  induction l as [|z l IH]; simpl; intros H; [ reflexivity | ].
  rewrite (H z) by now left.
  destruct (JS.gtb (cmp' z x) 0); [ reflexivity | ].
  f_equal. apply IH. intros y Hy. apply H. now right.
Qed.

(** The sort only consults the comparator on the elements of the array. *)
Lemma sort_ext {A} (cmp cmp' : A -> A -> R) (l : list A) :
  (forall a b, In a l -> In b l -> cmp a b = cmp' a b) ->
  JS.sort cmp l = JS.sort cmp' l.
Proof.
  unfold JS.sort.
  assert (G : forall l acc,
            (forall a b, In a (acc ++ l) -> In b (acc ++ l) -> cmp a b = cmp' a b) ->
            fold_left (fun acc x => JS.sort_insert cmp x acc) l acc
            = fold_left (fun acc x => JS.sort_insert cmp' x acc) l acc).
  { clear l. induction l as [|x l IH]; intros acc H; simpl; [ reflexivity | ].
    rewrite (sort_insert_ext cmp cmp' x acc).
    - apply IH. intros a b Ha Hb.
      apply H; rewrite in_app_iff in *; simpl;
        [ destruct Ha as [Ha | Ha] | destruct Hb as [Hb | Hb] ];
        try (apply sort_insert_In in Ha; intuition);
        try (apply sort_insert_In in Hb; intuition); intuition.
    - intros y Hy. apply H; rewrite in_app_iff; simpl; intuition. }
  intros H. apply G. simpl. exact H.
Qed.

(* ================================================================= *)
(** ** Composite risk score *)

Ltac risk_unfold :=
  unfold computeRiskScore, Risk.category, Risk.score, Risk.lossNorm,
    Risk.anomalyRateNorm, Risk.recency, Risk.latestDeployment,
    Risk.deployments, Risk.lossRatio, Risk.totalLoss, Risk.totalBilled,
    Risk.totalExpected, Risk.anomalyRate, Risk.anomalies, Risk.totalInvoices,
    JS.sort, JS.sum_by, JS.len.

Lemma exp_nonpos_le_1 (y : R) : y <= 0 -> 0 < exp y <= 1.
Proof.
  intros Hy. split; [ apply exp_pos | ].
  destruct Hy as [Hlt | ->]; [ | rewrite exp_0; lra ].
  apply exp_increasing in Hlt. rewrite exp_0 in Hlt. lra.
Qed.

Lemma msPerDay_pos : 0 < msPerDay.
Proof. unfold msPerDay. lra. Qed.

Section RiskFacts.
Variables (Date_parse : DateParser) (invoices : list Invoice.t)
          (events : list SysEvent.t).

Lemma anomalyRate_bounds : 0 <= Risk.anomalyRate invoices <= 1.
Proof.
  unfold Risk.anomalyRate, Risk.anomalies, Risk.totalInvoices, JS.len.
  destruct (Nat.ltb_spec 0 (List.length invoices)) as [Hn | Hn]; [ | lra ].
  assert (Ht : 0 < INR (List.length invoices)) by (apply lt_0_INR; lia).
  pose proof (pos_INR (List.length (filter underbilled invoices))) as Ha.
  pose proof (filter_length_le underbilled invoices) as Hle.
  apply le_INR in Hle. split.
  - apply Rmult_le_pos; [ exact Ha | left; now apply Rinv_0_lt_compat ].
  - apply (Rmult_le_reg_r (INR (List.length invoices))); [ exact Ht | ].
    unfold Rdiv. rewrite Rmult_assoc, Rinv_l by lra. lra.
Qed.

Lemma anomalyRateNorm_bounds : 0 <= Risk.anomalyRateNorm invoices <= 1.
Proof.
  unfold Risk.anomalyRateNorm. pose proof anomalyRate_bounds as [H0 H1].
  split; [ apply Rmin_glb; lra | ].
  eapply Rle_trans; [ apply Rmin_r | lra ].
Qed.

Lemma lossNorm_le_1 : Risk.lossNorm invoices <= 1.
Proof. unfold Risk.lossNorm. eapply Rle_trans; [ apply Rmin_r | lra ]. Qed.

Lemma lossNorm_nonneg :
  Risk.totalBilled invoices <= Risk.totalExpected invoices ->
  0 <= Risk.lossNorm invoices.
Proof.
  intros Hb. unfold Risk.lossNorm, Risk.lossRatio, Risk.totalLoss.
  apply Rmin_glb; [ | lra ].
  js_split; [ | lra ].
  assert (0 <= (Risk.totalExpected invoices - Risk.totalBilled invoices)
               / Risk.totalExpected invoices); [ | lra ].
  apply Rmult_le_pos; [ lra | left; now apply Rinv_0_lt_compat ].
Qed.

Lemma filter_none_deployment :
  (forall e, In e events -> SysEvent.eventType e <> "deployment"%string) ->
  filter (fun e => String.eqb (SysEvent.eventType e) "deployment") events = [].
Proof.
  intros Hnone. induction events as [|x l IH]; simpl; [ reflexivity | ].
  destruct (String.eqb (SysEvent.eventType x) "deployment") eqn:E.
  - apply String.eqb_eq in E. exfalso. apply (Hnone x); [ now left | exact E ].
  - apply IH. intros e He. apply Hnone. now right.
Qed.

Lemma latestDeployment_In (d : SysEvent.t) :
  Risk.latestDeployment Date_parse events = Some d ->
  In d events /\ SysEvent.eventType d = "deployment"%string.
Proof.
  unfold Risk.latestDeployment, Risk.deployments. intros Hd.
  assert (Hin : In d (JS.sort (Risk.byDateDesc Date_parse)
                        (filter (fun e => String.eqb (SysEvent.eventType e)
                                            "deployment") events))).
  { destruct (JS.sort _ _) as [|x l]; simpl in Hd; [ discriminate | ].
    injection Hd as ->. now left. }
  apply sort_In, filter_In in Hin as [Hin He].
  split; [ exact Hin | now apply String.eqb_eq ].
Qed.

(** When every deployment date parses, the deployment the sort puts first
    is a latest one. *)
Lemma latestDeployment_latest (d : SysEvent.t) :
  Risk.deployments_parse Date_parse events ->
  Risk.latestDeployment Date_parse events = Some d ->
  exists t, Date_parse (SysEvent.timestamp d) = Some t /\
    forall e te, In e events -> SysEvent.eventType e = "deployment"%string ->
      Date_parse (SysEvent.timestamp e) = Some te -> (te <= t)%Z.
Proof.
  intros Hp Hd.
  set (f := fun e : SysEvent.t =>
              match Date_parse (SysEvent.timestamp e) with
              | Some t => IZR t
              | None => 0
              end).
  unfold Risk.latestDeployment, Risk.deployments in Hd.
  rewrite (sort_ext _ (fun a b => f b - f a)) in Hd.
  - apply sort_head_max in Hd as [Hin Hmax].
    apply filter_In in Hin as [Hin Hty]. apply String.eqb_eq in Hty.
    destruct (Date_parse (SysEvent.timestamp d)) as [t|] eqn:Ht;
      [ | exfalso; now apply (Hp d) ].
    exists t. split; [ reflexivity | ].
    intros e te He Hte Hpe.
    assert (Hfe : In e (filter (fun e => String.eqb (SysEvent.eventType e)
                                           "deployment") events)).
    { apply filter_In. split; [ exact He | now apply String.eqb_eq ]. }
    specialize (Hmax e Hfe). unfold f in Hmax. rewrite Ht, Hpe in Hmax.
    now apply le_IZR.
  - intros a b Ha Hb.
    apply filter_In in Ha as [Ha Hta]. apply filter_In in Hb as [Hb Htb].
    apply String.eqb_eq in Hta, Htb.
    pose proof (Hp a Ha Hta) as Pa. pose proof (Hp b Hb Htb) as Pb.
    unfold Risk.byDateDesc, f.
    destruct (Date_parse (SysEvent.timestamp a)); [ | contradiction ].
    destruct (Date_parse (SysEvent.timestamp b)); [ | contradiction ].
    apply minus_IZR.
Qed.

Lemma latestDeployment_none :
  Risk.latestDeployment Date_parse events = None <->
  forall e, In e events -> SysEvent.eventType e <> "deployment"%string.
Proof.
  unfold Risk.latestDeployment, Risk.deployments. split.
  - intros Hnone e He Hty.
    destruct (sort_nonempty (Risk.byDateDesc Date_parse)
                (filter (fun e => String.eqb (SysEvent.eventType e) "deployment")
                        events)) as (h & Hh); [ | congruence ].
    intros E.
    assert (Hin : In e (filter (fun e => String.eqb (SysEvent.eventType e)
                                           "deployment") events)).
    { apply filter_In. split; [ exact He | now apply String.eqb_eq ]. }
    rewrite E in Hin. destruct Hin.
  - intros Hnone. rewrite filter_none_deployment; [ reflexivity | exact Hnone ].
Qed.

Lemma recencyFactor_bounds :
  Risk.deployments_dated Date_parse events ->
  exists rf, Recency.recencyFactor (Risk.recency Date_parse events) = Some rf
             /\ 0 <= rf <= 1.
Proof.
  intros Hdated. unfold Risk.recency.
  destruct (Risk.latestDeployment Date_parse events) as [d|] eqn:Hd.
  - apply latestDeployment_In in Hd as [Hin He].
    destruct (Hdated d Hin He) as (t & n & Ht & Hn & Hle).
    unfold computeRecencyFactor, dateDiffDays. rewrite Hn, Ht. simpl.
    eexists; split; [ reflexivity | ].
    apply (toFixed_between 4 0 1).
    assert (Hdays : 0 <= IZR (n - t) / msPerDay).
    { apply Rmult_le_pos; [ apply IZR_le; lia | ].
      left. apply Rinv_0_lt_compat, msPerDay_pos. }
    assert (Hy : - (IZR (n - t) / msPerDay) / 7 <= 0) by lra.
    apply exp_nonpos_le_1 in Hy. lra.
  - simpl. exists 0. split; [ reflexivity | lra ].
Qed.
End RiskFacts.

(** C2 as stated fails on the range: the loss ratio is only capped from
    above.  One invoice billed at ten times the amount due, and no
    deployment, scores -31.5. *)
Lemma riskScore_below_zero :
  RiskScore.score (computeRiskScore IsoDate.parse Scenario.overbilled [])
  = Some (- 31.5) /\ - 31.5 < 0.
Proof.
  split; [ | lra ].
  risk_unfold. scenario_unfold. simpl. repeat (js_decide; simpl).
  f_equal.
  assert (Hl : Rmin ((0 + 100 - (0 + 1000)) / (0 + 100) * 10) 1.0 = - 90)
    by js_minmax.
  assert (Ha : Rmin (0 / 1 * 2) 1.0 = 0) by js_minmax.
  rewrite Hl, Ha. js_round 315000%Z. lra.
Qed.

(** C2 (as the code has it). For every invoice list and event list the
    three weights are 0.4, 0.35 and 0.25 and sum to 1.  When every
    deployment event carries a date that parses: the deployment the recency
    is taken from is a latest one (none exists exactly when the events hold
    no deployment, and the recency factor is then 0, else
    exp(-days / 7) rounded to four decimals for the days between that
    deployment and the reference instant); the score is
    anomaly_rate_norm × 0.4 + loss_ratio_norm × 0.35 + recency_factor × 0.25
    rounded to four decimals, where the norms are min(rate × 2, 1) and
    min(ratio × 10, 1); and the score lies in [0, 1] whenever the invoices
    are not billed above the amount due in total and no deployment is dated
    later than the reference instant of the recency model. *)
Theorem riskScore_formula (Date_parse : DateParser)
    (invoices : list Invoice.t) (events : list SysEvent.t) :
  let res := computeRiskScore Date_parse invoices events in
  let anomaly_rate_norm := Rmin (Risk.anomalyRate invoices * 2) 1 in
  let loss_ratio_norm := Rmin (Risk.lossRatio invoices * 10) 1 in
  let recency_factor := Recency.recencyFactor (Risk.recency Date_parse events) in
  let latest := Risk.latestDeployment Date_parse events in
  AnomalyRateComponent.weight (RiskScore.anomalyRate res) = 0.4 /\
  FinancialImpactComponent.weight (RiskScore.financialImpact res) = 0.35 /\
  DeploymentRecencyComponent.weight (RiskScore.deploymentRecency res) = 0.25 /\
  AnomalyRateComponent.weight (RiskScore.anomalyRate res)
  + FinancialImpactComponent.weight (RiskScore.financialImpact res)
  + DeploymentRecencyComponent.weight (RiskScore.deploymentRecency res) = 1 /\
  (Risk.deployments_parse Date_parse events ->
   (latest = None <->
    forall e, In e events -> SysEvent.eventType e <> "deployment"%string) /\
   (latest = None -> recency_factor = Some 0) /\
   (forall d, latest = Some d ->
      In d events /\ SysEvent.eventType d = "deployment"%string /\
      exists t, Date_parse (SysEvent.timestamp d) = Some t /\
        (forall e te, In e events ->
           SysEvent.eventType e = "deployment"%string ->
           Date_parse (SysEvent.timestamp e) = Some te -> (te <= t)%Z) /\
        (forall n, Date_parse "2026-02-21T23:59:59Z"%string = Some n ->
           recency_factor
           = Some (JS.toFixed 4 (exp (- (IZR (n - t) / msPerDay) / 7))))) /\
   (forall rf, recency_factor = Some rf ->
      RiskScore.score res
      = Some (JS.toFixed 4 (anomaly_rate_norm * 0.4 + loss_ratio_norm * 0.35
                            + rf * 0.25))) /\
   (Risk.totalBilled invoices <= Risk.totalExpected invoices ->
    Risk.deployments_dated Date_parse events ->
    exists s, RiskScore.score res = Some s /\ 0 <= s <= 1)).
Proof.
  cbv zeta. simpl.
  split; [ reflexivity | ]. split; [ reflexivity | ]. split; [ reflexivity | ].
  split; [ lra | ]. intros Hparse.
  split; [ apply latestDeployment_none | ].
  split; [ | split; [ | split ] ].
  - intros Hnone. unfold Risk.recency. now rewrite Hnone.
  - intros d Hd.
    destruct (latestDeployment_In Date_parse events d Hd) as [Hin Hty].
    destruct (latestDeployment_latest Date_parse events d Hparse Hd)
      as (t & Ht & Hmax).
    split; [ exact Hin | ]. split; [ exact Hty | ].
    exists t. split; [ exact Ht | ]. split; [ exact Hmax | ].
    intros n Hn. unfold Risk.recency. rewrite Hd.
    unfold computeRecencyFactor, dateDiffDays. now rewrite Hn, Ht.
  - intros rf Hrf. unfold Risk.score. rewrite Hrf. simpl.
    unfold Risk.anomalyRateNorm, Risk.lossNorm.
    assert (E : 1.0 = 1) by lra. rewrite E. reflexivity.
  - intros Hbilled Hdated.
    destruct (recencyFactor_bounds Date_parse events Hdated) as (rf & Hrf & Hb).
    unfold Risk.score. rewrite Hrf. simpl.
    eexists; split; [ reflexivity | ].
    pose proof (anomalyRateNorm_bounds invoices) as Ha.
    pose proof (lossNorm_le_1 invoices) as Hl1.
    pose proof (lossNorm_nonneg invoices Hbilled) as Hl0.
    apply (toFixed_between 4 0 1). lra.
Qed.

(** The incident of the worked inputs meets the conditions, and its score
    is within range. *)
Lemma riskScore_formula_witness :
  exists s,
    RiskScore.score
      (computeRiskScore IsoDate.parse Scenario.incident
         (events Scenario.incident_records)) = Some s /\
    0 <= s <= 1.
Proof.
  destruct (riskScore_formula IsoDate.parse Scenario.incident
              (events Scenario.incident_records))
    as (_ & _ & _ & _ & Hdates).
  assert (Hdated : Risk.deployments_dated IsoDate.parse
                     (events Scenario.incident_records)).
  { intros e [<- | []] _.
    exists 1770710400000%Z, 1771718399000%Z.
    split; [ vm_compute; reflexivity | ].
    split; [ vm_compute; reflexivity | lia ]. }
  destruct Hdates as (_ & _ & _ & _ & Hrange).
  - intros e He Hty. destruct (Hdated e He Hty) as (t & n & Ht & _).
    rewrite Ht. discriminate.
  - apply Hrange; [ | exact Hdated ].
    risk_unfold. scenario_unfold. simpl. lra.
Defined.

(* ================================================================= *)
(** ** The agent orchestration *)

Ltac run_handler :=
  cbv beta iota zeta delta
    [analyze bind ret get_anomaly_stats get_deployment_history
     get_transaction_failures get_churn_risk logAnalyticProof readClock
     clockReads queryAuditLog lastReasoningTrace cachedAgentLogs].

(** The culprit is a scored deployment of highest confidence. *)
Lemma select_culprit_max (scored : list Culprit.t) (c : Culprit.t) :
  select_culprit scored = Some c ->
  In c scored /\
  forall c', In c' scored -> Culprit.confidence c' <= Culprit.confidence c.
Proof. apply (sort_head_max Culprit.confidence). Qed.

Lemma generate_decision_cases (culprit : option Culprit.t) (drift : DriftResult.t) :
  let d := generate_decision culprit drift in
  (forall c, culprit = Some c -> 0.5 < Culprit.confidence c ->
     Decision.verdict d = "CAUSAL_LINK_CONFIRMED"%string /\
     Decision.recommended_actions d = remediation_actions (Culprit.version c) /\
     Decision.confidence d = Culprit.confidence c) /\
  (forall c, culprit = Some c -> Culprit.confidence c <= 0.5 ->
     Decision.verdict d = "ANOMALY_DETECTED_UNCLEAR_CAUSE"%string /\
     Decision.recommended_actions d = diagnostic_actions /\
     Decision.confidence d = Culprit.confidence c) /\
  (culprit = None ->
     Decision.verdict d = "ANOMALY_DETECTED_UNCLEAR_CAUSE"%string /\
     Decision.recommended_actions d = diagnostic_actions /\
     Decision.confidence d = 0).
Proof.
  cbv zeta. unfold generate_decision, culprit_confident.
  split; [ | split ].
  - intros c -> Hc. simpl. rewrite or_zero_id. repeat js_decide. now repeat split.
  - intros c -> Hc. simpl. rewrite or_zero_id. repeat js_decide. now repeat split.
  - intros ->. now repeat split.
Qed.

Section AgentFacts.
Variables (Date_parse : DateParser) (clock : nat -> Z) (ES_REQUIRED : bool).
Variables (esAvailable : bool) (body : Body) (db : Collections)
          (st : ServerState).

(** Outside limited mode the handler answers with a report, whose
    decision fields are those of [generate_decision] on the selected
    culprit. *)
Lemma analyze_fields :
  ES_REQUIRED && negb esAvailable = false ->
  exists report st',
    analyze Date_parse clock ES_REQUIRED esAvailable body db st = (Ok report, st') /\
    Report.culprit report = Orchestration.culprit Date_parse body db /\
    Report.verdict report
      = Decision.verdict (Orchestration.decision Date_parse body db) /\
    Report.recommended_actions report
      = Decision.recommended_actions (Orchestration.decision Date_parse body db) /\
    Report.confidence_score report
      = Decision.confidence (Orchestration.decision Date_parse body db) /\
    Metadata.id (Report.metadata report)
      = [Lit "AGENT-ANALYTIC-"; Num (IZR (clock (4 + clockReads st)%nat))] /\
    Metadata.timestamp (Report.metadata report)
      = [Iso (clock (5 + clockReads st)%nat)] /\
    clockReads st' = (8 + clockReads st)%nat.
Proof.
  intros Hmode. unfold analyze. rewrite Hmode. run_handler.
  eexists; eexists. split; [ reflexivity | ].
  repeat split.
Qed.
End AgentFacts.

#[local] Arguments computeConfidence : simpl never.
#[local] Arguments computeDriftDetection : simpl never.

Lemma unclear_confidence :
  Confidence.confidence
    (computeConfidence IsoDate.parse Scenario.unclear "billing-service"
       "2026-02-12T00:00:00.000Z") = 0.4.
Proof.
  assert (Hc : Conf.clampedConfidence IsoDate.parse Scenario.unclear
                 "billing-service" "2026-02-12T00:00:00.000Z" = 0.4).
  { conf_eval. js_minmax. }
  unfold computeConfidence. simpl Confidence.confidence. rewrite Hc.
  js_round 4000%Z. lra.
Qed.

Lemma unclear_culprit :
  exists c, Orchestration.culprit IsoDate.parse Scenario.body
              Scenario.unclear_records = Some c /\
            Culprit.confidence c = 0.4.
Proof.
  eexists. split; [ reflexivity | ]. apply unclear_confidence.
Qed.

Lemma incident_confidence :
  Confidence.confidence
    (computeConfidence IsoDate.parse Scenario.incident "billing-service"
       "2026-02-10T08:00:00.000Z") = 1.
Proof.
  unfold computeConfidence. simpl Confidence.confidence.
  rewrite incident_clampedConfidence. apply (toFixed_IZR 4 1).
Qed.

Lemma incident_culprit :
  exists c, Orchestration.culprit IsoDate.parse Scenario.body
              Scenario.incident_records = Some c /\
            Culprit.version c = "v1.0.4"%string /\
            Culprit.confidence c = 1.
Proof.
  eexists. split; [ reflexivity | ]. split; [ reflexivity | ].
  apply incident_confidence.
Qed.

(** The incident of the demonstration data in miniature: the leak starts on
    the day of the deployment, and the agent confirms the causal link and
    recommends the rollback. *)
Lemma incident_is_confirmed :
  exists report st',
    analyze IsoDate.parse (Scenario.clock_at 0) false false Scenario.body
      Scenario.incident_records Scenario.fresh = (Ok report, st') /\
    Report.verdict report = "CAUSAL_LINK_CONFIRMED"%string /\
    Report.recommended_actions report
    = [ "Roll back v1.0.4 immediately"%string;
        "Verify pricing lookup cache"%string ] /\
    Report.confidence_score report = 1.
Proof.
  destruct (analyze_fields IsoDate.parse (Scenario.clock_at 0) false false
              Scenario.body Scenario.incident_records Scenario.fresh eq_refl)
    as (report & st' & Hrun & _ & Hv & Ha & Hs & _).
  exists report, st'. split; [ exact Hrun | ].
  destruct incident_culprit as (c & Hc & Hver & Hconf).
  destruct (generate_decision_cases
              (Orchestration.culprit IsoDate.parse Scenario.body
                 Scenario.incident_records)
              (Orchestration.drift Scenario.body Scenario.incident_records))
    as (Hyes & _ & _).
  destruct (Hyes c Hc ltac:(lra)) as (D1 & D2 & D3).
  rewrite Hv, Ha, Hs. unfold Orchestration.decision. rewrite D1, D2, D3.
  unfold remediation_actions. rewrite Hver, Hconf. now repeat split.
Qed.

(** C1 as stated fails on the confidence of the unclear verdict: it is the
    culprit's own confidence, and 0 only without a culprit.  A deployment
    followed by a higher anomaly rate, with no spike on record, is scored
    0.4: the verdict is ANOMALY_DETECTED_UNCLEAR_CAUSE with the diagnostic
    actions, and the reported confidence is 0.4. *)
Lemma unclear_cause_keeps_confidence :
  exists report st',
    analyze IsoDate.parse (Scenario.clock_at 0) false false Scenario.body
      Scenario.unclear_records Scenario.fresh = (Ok report, st') /\
    Report.verdict report = "ANOMALY_DETECTED_UNCLEAR_CAUSE"%string /\
    Report.recommended_actions report = diagnostic_actions /\
    Report.confidence_score report = 0.4 /\
    Report.confidence_score report <> 0.
Proof.
  destruct (analyze_fields IsoDate.parse (Scenario.clock_at 0) false false
              Scenario.body Scenario.unclear_records Scenario.fresh eq_refl)
    as (report & st' & Hrun & _ & Hv & Ha & Hs & _).
  exists report, st'. split; [ exact Hrun | ].
  destruct unclear_culprit as (c & Hc & Hconf).
  destruct (generate_decision_cases
              (Orchestration.culprit IsoDate.parse Scenario.body
                 Scenario.unclear_records)
              (Orchestration.drift Scenario.body Scenario.unclear_records))
    as (_ & Hno & _).
  destruct (Hno c Hc ltac:(lra)) as (D1 & D2 & D3).
  rewrite Hv, Ha, Hs. unfold Orchestration.decision.
  rewrite D1, D2, D3, Hconf.
  repeat split; lra.
Qed.

(** C1 (as the code has it). Outside limited mode the handler raises no
    error and answers with a report.  When some deployment of the service is
    scored above 0.5, the culprit is one of highest confidence, the verdict
    is CAUSAL_LINK_CONFIRMED with the remediation actions (roll back the
    culprit's version), and the confidence is the culprit's.  In every other
    case the verdict is ANOMALY_DETECTED_UNCLEAR_CAUSE with the diagnostic
    actions and the confidence is the culprit's own, or 0 without a
    culprit; with no deployment event for the service the culprit is null
    and the confidence is 0. *)
Theorem decide_stage (Date_parse : DateParser) (clock : nat -> Z)
    (ES_REQUIRED esAvailable : bool) (body : Body) (db : Collections)
    (st : ServerState) :
  ES_REQUIRED && negb esAvailable = false ->
  exists report st',
    analyze Date_parse clock ES_REQUIRED esAvailable body db st = (Ok report, st') /\
    let scored := Orchestration.scored Date_parse body db in
    ((exists c, In c scored /\ 0.5 < Culprit.confidence c) ->
     exists c, Report.culprit report = Some c /\ In c scored /\
               0.5 < Culprit.confidence c /\
               (forall c', In c' scored ->
                  Culprit.confidence c' <= Culprit.confidence c) /\
               Report.verdict report = "CAUSAL_LINK_CONFIRMED"%string /\
               Report.recommended_actions report
               = remediation_actions (Culprit.version c) /\
               Report.confidence_score report = Culprit.confidence c) /\
    (~ (exists c, In c scored /\ 0.5 < Culprit.confidence c) ->
     Report.verdict report = "ANOMALY_DETECTED_UNCLEAR_CAUSE"%string /\
     Report.recommended_actions report = diagnostic_actions /\
     Report.confidence_score report
     = match Report.culprit report with
       | Some c => Culprit.confidence c
       | None => 0
       end) /\
    (Orchestration.history body db = [] ->
     Report.culprit report = None /\
     Report.verdict report = "ANOMALY_DETECTED_UNCLEAR_CAUSE"%string /\
     Report.recommended_actions report = diagnostic_actions /\
     Report.confidence_score report = 0).
Proof.
  intros Hmode.
  destruct (analyze_fields Date_parse clock ES_REQUIRED esAvailable body db st Hmode)
    as (report & st' & Hrun & Hcul & Hv & Ha & Hs & _).
  exists report, st'. split; [ exact Hrun | ]. cbv zeta.
  rewrite Hcul, Hv, Ha, Hs. unfold Orchestration.decision.
  destruct (generate_decision_cases (Orchestration.culprit Date_parse body db)
              (Orchestration.drift body db)) as (Hyes & Hno & Hnone).
  split; [ | split ].
  - intros (c0 & Hin0 & Hc0).
    destruct (Orchestration.culprit Date_parse body db) as [c|] eqn:Hc.
    + destruct (select_culprit_max _ _ Hc) as (Hin & Hmax).
      assert (Hconf : 0.5 < Culprit.confidence c)
        by (specialize (Hmax c0 Hin0); lra).
      destruct (Hyes c eq_refl Hconf) as (D1 & D2 & D3).
      exists c. now repeat split.
    + exfalso. unfold Orchestration.culprit, select_culprit in Hc.
      destruct (sort_nonempty
                  (fun a b => Culprit.confidence b - Culprit.confidence a)
                  (Orchestration.scored Date_parse body db)) as (h & Hh).
      * intros Hnil. rewrite Hnil in Hin0. contradiction.
      * congruence.
  - intros Hnone'.
    destruct (Orchestration.culprit Date_parse body db) as [c|] eqn:Hc.
    + destruct (select_culprit_max _ _ Hc) as (Hin & _).
      assert (Hconf : Culprit.confidence c <= 0.5).
      { destruct (Rle_dec (Culprit.confidence c) 0.5) as [Hle | Hgt];
          [ exact Hle | ].
        exfalso. apply Hnone'. exists c. split; [ exact Hin | lra ]. }
      destruct (Hno c eq_refl Hconf) as (D1 & D2 & D3). now repeat split.
    + destruct (Hnone eq_refl) as (D1 & D2 & D3). now repeat split.
  - intros Hhist.
    assert (Hc : Orchestration.culprit Date_parse body db = None).
    { unfold Orchestration.culprit, Orchestration.scored. now rewrite Hhist. }
    rewrite Hc in *. destruct (Hnone eq_refl) as (D1 & D2 & D3).
    now repeat split.
Qed.

Lemma decide_stage_witness :
  exists report st',
    analyze IsoDate.parse (Scenario.clock_at 0) false false Scenario.body
      Scenario.no_records Scenario.fresh = (Ok report, st') /\
    Report.culprit report = None /\
    Report.verdict report = "ANOMALY_DETECTED_UNCLEAR_CAUSE"%string /\
    Report.confidence_score report = 0.
Proof.
  destruct (decide_stage IsoDate.parse (Scenario.clock_at 0) false false
              Scenario.body Scenario.no_records Scenario.fresh eq_refl)
    as (report & st' & Hrun & _ & _ & Hempty).
  exists report, st'. split; [ exact Hrun | ].
  destruct (Hempty eq_refl) as (H1 & H2 & _ & H4). now repeat split.
Defined.

(* ================================================================= *)
(** ** Loss projections *)

Lemma analyze_financial (Date_parse : DateParser) (clock : nat -> Z)
    (ES_REQUIRED esAvailable : bool) (body : Body) (db : Collections)
    (st : ServerState) (report : Report.t) (st' : ServerState) :
  analyze Date_parse clock ES_REQUIRED esAvailable body db st = (Ok report, st') ->
  let forecast := forecast_loss (Orchestration.totalLoss body db) in
  FinancialImpact.observed_loss (Report.financial_impact report)
  = Forecast.observed_loss forecast /\
  FinancialImpact.arr_risk (Report.financial_impact report)
  = Forecast.annualized_risk forecast /\
  MeasurableImpact.potential_arr_protected (Report.measurable_impact report)
  = Forecast.protected_arr forecast.
Proof.
  unfold analyze. destruct (ES_REQUIRED && negb esAvailable).
  - unfold ret. intros H. discriminate.
  - run_handler. intros H. injection H as <- _. now repeat split.
Qed.

(** C3 as stated fails for the orchestrator's projector: it scales the
    observed loss by fixed factors.  A loss of 100 is projected to 140 per
    month and 240 per year, which is no daily average times 30 and 365. *)
Lemma forecast_is_not_a_daily_average :
  let f := forecast_loss 100 in
  Forecast.monthly_projection f = 140 /\
  Forecast.annualized_risk f = 240 /\
  ~ (exists avg_daily_loss,
       Forecast.monthly_projection f = avg_daily_loss * 30 /\
       Forecast.annualized_risk f = avg_daily_loss * 365).
Proof.
  cbv zeta. simpl. split; [ lra | ]. split; [ lra | ].
  intros (d & H1 & H2). lra.
Qed.

(** C3 (as the code has it). The projector of the orchestrator returns the
    observed loss, 1.4 times it as the monthly projection, 12 × 0.2 times
    it as the annualized risk and 8 times it as the protected revenue, and
    a report carries the last two for the loss of the service's underbilled
    invoices.  The projections average daily loss × 30 and × 365 are those
    of the financial-loss endpoint, where the average is the total loss
    over the 21 days of the data set and the reported figures are rounded
    to two decimals. *)
Theorem loss_projections :
  (forall totalLoss,
     let f := forecast_loss totalLoss in
     Forecast.observed_loss f = totalLoss /\
     Forecast.monthly_projection f = totalLoss * 1.4 /\
     Forecast.annualized_risk f = totalLoss * 12 * 0.2 /\
     Forecast.protected_arr f = totalLoss * 8) /\
  (forall Date_parse clock ES_REQUIRED esAvailable body db st report st',
     analyze Date_parse clock ES_REQUIRED esAvailable body db st
     = (Ok report, st') ->
     let observed_loss :=
       FinancialImpact.observed_loss (Report.financial_impact report) in
     observed_loss = Orchestration.totalLoss body db /\
     FinancialImpact.arr_risk (Report.financial_impact report)
     = observed_loss * 12 * 0.2 /\
     MeasurableImpact.potential_arr_protected (Report.measurable_impact report)
     = observed_loss * 8) /\
  (forall invoices service,
     let avg_daily_loss := Loss.totalLoss invoices service / 21 in
     let out := financialLoss invoices service in
     Loss.monthlyLoss invoices service = avg_daily_loss * 30 /\
     Loss.annualizedLoss invoices service = avg_daily_loss * 365 /\
     FinancialLoss.projected_monthly_loss out = JS.toFixed 2 (avg_daily_loss * 30) /\
     FinancialLoss.projected_annualized_loss out
     = JS.toFixed 2 (avg_daily_loss * 365)).
Proof.
  split; [ | split ].
  - intros totalLoss. cbv zeta. now repeat split.
  - intros P clock ES esAvailable body db st report st' Hrun. cbv zeta.
    destruct (analyze_financial _ _ _ _ _ _ _ _ _ Hrun) as (H1 & H2 & H3).
    rewrite H1, H2, H3. now repeat split.
  - intros invoices service. cbv zeta. now repeat split.
Qed.

(* ================================================================= *)
(** ** Reproducibility of a report *)

(** C10 as stated fails: the handler stamps the report with the system
    clock.  Two runs on the same request, the same records and the same
    server state, one at clock reading 1000 and one at 2000, return
    different reports. *)
Lemma report_changes_with_the_clock :
  fst (analyze IsoDate.parse (Scenario.clock_at 1000) false false
         Scenario.body Scenario.no_records Scenario.fresh)
  <> fst (analyze IsoDate.parse (Scenario.clock_at 2000) false false
            Scenario.body Scenario.no_records Scenario.fresh).
Proof.
  destruct (analyze_fields IsoDate.parse (Scenario.clock_at 1000) false false
              Scenario.body Scenario.no_records Scenario.fresh eq_refl)
    as (r1 & s1 & Hrun1 & _ & _ & _ & _ & Hid1 & _).
  destruct (analyze_fields IsoDate.parse (Scenario.clock_at 2000) false false
              Scenario.body Scenario.no_records Scenario.fresh eq_refl)
    as (r2 & s2 & Hrun2 & _ & _ & _ & _ & Hid2 & _).
  rewrite Hrun1, Hrun2. simpl fst. intros Heq. injection Heq as ->.
  rewrite Hid1 in Hid2. unfold Scenario.clock_at in Hid2.
  injection Hid2 as Hz. apply eq_IZR in Hz. discriminate.
Qed.

(** C10 (as the code has it). Two runs of the handler on the same request
    and the same record collections, at any clock readings, in any server
    state and with or without Elasticsearch answering, return reports that
    agree on every field except [metadata.id] and [metadata.timestamp],
    which are the clock readings taken while the report is assembled, and
    [reasoning_trace.mode], which tells whether Elasticsearch answered; the
    reports are equal exactly when those readings and that answer are. *)
Theorem report_reproducible_up_to_clock (Date_parse : DateParser)
    (ES_REQUIRED : bool) (body : Body) (db : Collections)
    (clock1 clock2 : nat -> Z) (esAvailable1 esAvailable2 : bool)
    (st1 st2 : ServerState) :
  ES_REQUIRED && negb esAvailable1 = false ->
  ES_REQUIRED && negb esAvailable2 = false ->
  exists r1 s1 r2 s2,
    analyze Date_parse clock1 ES_REQUIRED esAvailable1 body db st1 = (Ok r1, s1) /\
    analyze Date_parse clock2 ES_REQUIRED esAvailable2 body db st2 = (Ok r2, s2) /\
    Metadata.id (Report.metadata r1)
    = [Lit "AGENT-ANALYTIC-"; Num (IZR (clock1 (4 + clockReads st1)%nat))] /\
    Metadata.id (Report.metadata r2)
    = [Lit "AGENT-ANALYTIC-"; Num (IZR (clock2 (4 + clockReads st2)%nat))] /\
    Metadata.timestamp (Report.metadata r1) = [Iso (clock1 (5 + clockReads st1)%nat)] /\
    Metadata.timestamp (Report.metadata r2) = [Iso (clock2 (5 + clockReads st2)%nat)] /\
    ReasoningTrace.mode (Report.reasoning_trace r1)
    = (if esAvailable1 then "LIVE_ES" else "FALLBACK")%string /\
    ReasoningTrace.mode (Report.reasoning_trace r2)
    = (if esAvailable2 then "LIVE_ES" else "FALLBACK")%string /\
    Metadata.service (Report.metadata r1) = Metadata.service (Report.metadata r2) /\
    Metadata.query (Report.metadata r1) = Metadata.query (Report.metadata r2) /\
    Metadata.role (Report.metadata r1) = Metadata.role (Report.metadata r2) /\
    Report.measurable_impact r1 = Report.measurable_impact r2 /\
    Report.verdict r1 = Report.verdict r2 /\
    Report.culprit r1 = Report.culprit r2 /\
    Report.financial_impact r1 = Report.financial_impact r2 /\
    ReasoningTrace.steps (Report.reasoning_trace r1)
    = ReasoningTrace.steps (Report.reasoning_trace r2) /\
    ReasoningTrace.confidence (Report.reasoning_trace r1)
    = ReasoningTrace.confidence (Report.reasoning_trace r2) /\
    Report.reasoning_steps r1 = Report.reasoning_steps r2 /\
    Report.executive_summary r1 = Report.executive_summary r2 /\
    Report.recommended_actions r1 = Report.recommended_actions r2 /\
    Report.confidence_score r1 = Report.confidence_score r2 /\
    (r1 = r2 <->
     clock1 (4 + clockReads st1)%nat = clock2 (4 + clockReads st2)%nat /\
     clock1 (5 + clockReads st1)%nat = clock2 (5 + clockReads st2)%nat /\
     esAvailable1 = esAvailable2).
Proof.
  intros Hmode1 Hmode2.
  destruct st1 as [n1 q1 l1 c1], st2 as [n2 q2 l2 c2].
  unfold analyze. rewrite Hmode1, Hmode2. run_handler.
  do 4 eexists. split; [ reflexivity | ]. split; [ reflexivity | ].
  repeat (split; [ reflexivity | ]).
  simpl Nat.add. split.
  - intros Heq.
    pose proof (f_equal (fun r => Metadata.id (Report.metadata r)) Heq) as Hid.
    pose proof (f_equal (fun r => Metadata.timestamp (Report.metadata r)) Heq)
      as Hts.
    pose proof (f_equal (fun r => ReasoningTrace.mode (Report.reasoning_trace r))
                  Heq) as Hmo.
    simpl in Hid, Hts, Hmo.
    injection Hid as Hid. apply eq_IZR in Hid. injection Hts as Hts.
    repeat split; try assumption.
    destruct esAvailable1, esAvailable2; try reflexivity; discriminate.
  - intros (E1 & E2 & E3). rewrite E1, E2, E3. reflexivity.
Qed.

Lemma report_reproducible_up_to_clock_witness :
  exists r1 s1 r2 s2,
    analyze IsoDate.parse (Scenario.clock_at 1000) false false Scenario.body
      Scenario.unclear_records Scenario.fresh = (Ok r1, s1) /\
    analyze IsoDate.parse (Scenario.clock_at 2000) false true Scenario.body
      Scenario.unclear_records Scenario.fresh = (Ok r2, s2) /\
    Report.verdict r1 = Report.verdict r2 /\
    Report.culprit r1 = Report.culprit r2 /\
    Report.executive_summary r1 = Report.executive_summary r2.
Proof.
  destruct (report_reproducible_up_to_clock IsoDate.parse false Scenario.body
              Scenario.unclear_records (Scenario.clock_at 1000)
              (Scenario.clock_at 2000) false true Scenario.fresh Scenario.fresh
              eq_refl eq_refl)
    as (r1 & s1 & r2 & s2 & H1 & H2 & _ & _ & _ & _ & _ & _ & _ & _ & _ & _
        & Hv & Hc & _ & _ & _ & _ & Hx & _).
  exists r1, s1, r2, s2. now repeat split.
Defined.

(* ================================================================= *)
(** * Further properties of the analysis code *)

(** ** Mean and standard deviation *)

Lemma sum_by_bounds {A} (f : A -> R) (lo hi : R) (l : list A) :
  (forall x, In x l -> lo <= f x <= hi) ->
  JS.len l * lo <= JS.sum_by f l <= JS.len l * hi.
Proof.
  unfold JS.len. induction l as [|x l IH]; intros Hb.
  - unfold JS.sum_by; simpl; lra.
  - rewrite sum_by_cons. change (List.length (x :: l)) with (S (List.length l)).
    rewrite S_INR.
    specialize (Hb x (or_introl eq_refl)) as Hx.
    assert (Hl : forall y, In y l -> lo <= f y <= hi)
      by (intros y Hy; apply Hb; now right).
    specialize (IH Hl). lra.
Qed.

Lemma len_pos {A} (l : list A) : l <> [] -> 0 < JS.len l.
Proof.
  intros Hl. unfold JS.len. apply lt_0_INR.
  destruct l; [ contradiction | simpl; lia ].
Qed.

Lemma mean_between (arr : list R) (lo hi : R) :
  arr <> [] -> (forall v, In v arr -> lo <= v <= hi) ->
  lo <= Analysis.mean arr <= hi.
Proof.
  intros Hne Hb.
  pose proof (len_pos arr Hne) as Hn.
  pose proof (sum_by_bounds (fun v => v) lo hi arr Hb) as [H1 H2].
  unfold Analysis.mean. destruct arr as [|x arr]; [ contradiction | ].
  split.
  - apply (Rmult_le_reg_r (JS.len (x :: arr))); [ exact Hn | ].
    unfold Rdiv. rewrite Rmult_assoc, Rinv_l by lra. lra.
  - apply (Rmult_le_reg_r (JS.len (x :: arr))); [ exact Hn | ].
    unfold Rdiv. rewrite Rmult_assoc, Rinv_l by lra. lra.
Qed.

Lemma sum_by_zero_iff {A} (f : A -> R) (l : list A) :
  (forall x, 0 <= f x) ->
  (JS.sum_by f l = 0 <-> forall x, In x l -> f x = 0).
Proof.
  intros Hf. induction l as [|x l IH].
  - split; [ intros _ y [] | intros _; reflexivity ].
  - rewrite sum_by_cons. pose proof (sum_by_nonneg f l Hf) as Hl.
    pose proof (Hf x) as Hx. split.
    + intros Hs y [<- | Hy]; [ lra | ]. apply IH; [ lra | exact Hy ].
    + intros Hall. rewrite (Hall x (or_introl eq_refl)).
      rewrite (proj2 IH); [ lra | ]. intros y Hy. apply Hall. now right.
Qed.

Lemma stddev_facts (arr : list R) :
  0 <= Analysis.stddev arr /\
  ((List.length arr < 2)%nat -> Analysis.stddev arr = 0) /\
  ((2 <= List.length arr)%nat ->
   (Analysis.stddev arr = 0 <-> forall v, In v arr -> v = Analysis.mean arr)).
Proof.
  unfold Analysis.stddev. split; [ | split ].
  - destruct (List.length arr <? 2)%nat; [ lra | apply sqrt_pos ].
  - intros Hn. destruct (Nat.ltb_spec (List.length arr) 2); [ reflexivity | lia ].
  - intros Hn. destruct (Nat.ltb_spec (List.length arr) 2); [ lia | ].
    cbv zeta. fold (Analysis.squaredDeviations (Analysis.mean arr) arr).
    assert (Hd : 0 < JS.len arr - 1).
    { unfold JS.len. apply le_INR in Hn. simpl in Hn. lra. }
    pose proof (sq_nonneg (Analysis.mean arr) arr) as Hs.
    assert (Hq : 0 <= Analysis.squaredDeviations (Analysis.mean arr) arr
                      / (JS.len arr - 1)).
    { apply Rmult_le_pos; [ exact Hs | left; now apply Rinv_0_lt_compat ]. }
    assert (Hz : Analysis.squaredDeviations (Analysis.mean arr) arr = 0
                 <-> forall v, In v arr -> v = Analysis.mean arr).
    { unfold Analysis.squaredDeviations.
      rewrite (sum_by_zero_iff (fun v => (v - Analysis.mean arr) ^ 2))
        by (intros x; apply pow2_ge_0).
      split; intros Hall v Hv; specialize (Hall v Hv).
      - assert (v - Analysis.mean arr = 0) by nra. lra.
      - rewrite Hall. ring. }
    rewrite <- Hz. split.
    + intros H0. apply sqrt_eq_0 in H0; [ | exact Hq ].
      apply Rmult_integral in H0 as [H0 | H0]; [ exact H0 | ].
      exfalso. apply (Rinv_neq_0_compat (JS.len arr - 1)); lra.
    + intros ->. unfold Rdiv. rewrite Rmult_0_l. apply sqrt_0.
Qed.

(* ================================================================= *)
(** ** Pearson correlation and its lagged form *)

(** X2. [pearson] does not depend on the order of its two series: on
    doubles too, exchanging them gives the very same number, [NaN]
    included. *)
Theorem pearson_symmetric (xs ys : list float) :
  Double.pearson xs ys = Double.pearson ys xs.
Proof. apply pearson_sym. Qed.

(** X4. [laggedPearson] at lag 0 is [pearson]; it is [0] as soon as fewer
    than three values of [ys] remain behind the lag, or fewer than three
    values of [xs] before it.  A lag beyond the length of [xs] makes the
    end index of [xs.slice] negative, which counts from the end of [xs]
    again. *)
Theorem laggedPearson_edges (xs ys : list float) (lag : nat) :
  Double.laggedPearson xs ys 0 = Double.pearson xs ys /\
  ((List.length ys < lag + 3)%nat -> Double.laggedPearson xs ys lag = 0%float) /\
  ((lag <= List.length xs < lag + 3)%nat ->
   Double.laggedPearson xs ys lag = 0%float) /\
  ((List.length xs < lag)%nat ->
   Double.laggedPearson xs ys lag
   = Double.pearson (firstn (2 * List.length xs - lag) xs) (skipn lag ys)).
Proof.
  split; [ | split; [ | split ] ].
  - unfold Double.laggedPearson. cbv zeta.
    change (Z.of_nat 0) with 0%Z. rewrite Z.sub_0_r, slice_to_all. reflexivity.
  - intros H. apply pearson_short. right.
    unfold JS.slice_from. rewrite length_skipn. lia.
  - intros H. apply pearson_short. left.
    replace (Z.of_nat (List.length xs) - Z.of_nat lag)%Z
      with (Z.of_nat (List.length xs - lag)) by lia.
    rewrite slice_to_prefix by lia. rewrite length_firstn. lia.
  - intros H. unfold Double.laggedPearson, JS.slice_to, JS.slice_from. cbv zeta.
    destruct (Z.ltb_spec (Z.of_nat (List.length xs) - Z.of_nat lag) 0); [ | lia ].
    f_equal. f_equal. lia.
Qed.



(** X5. The strength bucket does not depend on the sign of the correlation
    and never decreases when its absolute value grows. *)
Theorem classifyCorrelation_monotone (r1 r2 : R) :
  Rabs r1 <= Rabs r2 ->
  Analysis.classifyCorrelation (- r1) = Analysis.classifyCorrelation r1 /\
  (strength_rank (Analysis.classifyCorrelation r1)
   <= strength_rank (Analysis.classifyCorrelation r2))%nat.
Proof.
  intros H. split.
  - unfold Analysis.classifyCorrelation. now rewrite Rabs_Ropp.
  - unfold Analysis.classifyCorrelation. cbv zeta.
    repeat js_split; try (exfalso; lra); unfold strength_rank; simpl; lia.
Qed.

Lemma classifyCorrelation_monotone_witness :
  Analysis.classifyCorrelation (- (0.5)) = Analysis.classifyCorrelation 0.5 /\
  (strength_rank (Analysis.classifyCorrelation 0.5)
   <= strength_rank (Analysis.classifyCorrelation 0.8))%nat.
Proof.
  apply (classifyCorrelation_monotone 0.5 0.8).
  rewrite (Rabs_right 0.5), (Rabs_right 0.8); lra.
Defined.

(** X6. When one of the two series has fewer than three values the search
    finds nothing, whatever [maxLag] is: [best] stays at lag 0 with
    correlation 0, and the report is lag 0, the rounding of 0, strength
    NEGLIGIBLE. *)
Theorem bestLagCorrelation_report (xs ys : list float) :
  (List.length xs < 3 \/ List.length ys < 3)%nat ->
  (forall n, Double.bestLagSearch xs ys n
             = {| Double.best_lag := 0; Double.best_r := 0%float |}) /\
  (forall toFixed maxLag,
     Double.bestLagCorrelation toFixed xs ys maxLag
     = {| Double.lag := 0; Double.r := toFixed 4%nat 0%float;
          Double.strength := "NEGLIGIBLE" |}).
Proof.
  intros H. split.
  - intros n. now apply bestLagSearch_short.
  - intros toFixed maxLag. unfold Double.bestLagCorrelation. cbv zeta.
    rewrite bestLagSearch_short by exact H. reflexivity.
Qed.

Lemma bestLagCorrelation_report_witness :
  (forall n, Double.bestLagSearch [1; 2]%float [5; 6; 7; 8]%float n
             = {| Double.best_lag := 0; Double.best_r := 0%float |}) /\
  (forall toFixed maxLag,
     Double.bestLagCorrelation toFixed [1; 2]%float [5; 6; 7; 8]%float maxLag
     = {| Double.lag := 0; Double.r := toFixed 4%nat 0%float;
          Double.strength := "NEGLIGIBLE" |}).
Proof.
  apply (bestLagCorrelation_report [1; 2]%float [5; 6; 7; 8]%float).
  left. simpl. lia.
Defined.

(* ================================================================= *)
(** ** Welch's t-test *)





(* ================================================================= *)
(** ** [groupBy] *)

Section GroupBy.
Context {A : Type}.
Import Investigation.

Lemma group_push (key : string) (item : A) (acc : list (string * list A))
    (k : string) :
  group (push_group key item acc) k
  = if String.eqb key k then group acc k ++ [item] else group acc k.
Proof.
  induction acc as [|[k0 g] rest IH]; simpl.
  - destruct (String.eqb key k); reflexivity.
  - destruct (String.eqb k0 key) eqn:E0; simpl.
    + apply String.eqb_eq in E0. subst k0.
      destruct (String.eqb key k); reflexivity.
    + destruct (String.eqb k0 k) eqn:E1; [ | exact IH ].
      apply String.eqb_eq in E1. subst k0. now rewrite String.eqb_sym, E0.
Qed.

Lemma groupBy_fold_group (keyFn : A -> string) (arr : list A)
    (acc : list (string * list A)) (k : string) :
  group (fold_left (fun acc item => push_group (keyFn item) item acc) arr acc) k
  = group acc k ++ filter (fun x => String.eqb (keyFn x) k) arr.
Proof.
  revert acc. induction arr as [|x arr IH]; intros acc; simpl.
  - now rewrite app_nil_r.
  - rewrite IH, group_push. destruct (String.eqb (keyFn x) k).
    + now rewrite <- app_assoc.
    + reflexivity.
Qed.

Lemma push_group_keys (key : string) (item : A) (acc : list (string * list A)) :
  map fst (push_group key item acc)
  = if existsb (String.eqb key) (map fst acc) then map fst acc
    else map fst acc ++ [key].
Proof.
  induction acc as [|[k0 g] rest IH]; simpl; [ reflexivity | ].
  rewrite (String.eqb_sym key k0).
  destruct (String.eqb k0 key); simpl; [ reflexivity | ].
  rewrite IH. destruct (existsb (String.eqb key) (map fst rest)); reflexivity.
Qed.

Lemma push_group_NoDup (key : string) (item : A) (acc : list (string * list A)) :
  NoDup (map fst acc) -> NoDup (map fst (push_group key item acc)).
Proof.
  intros H. rewrite push_group_keys.
  destruct (existsb (String.eqb key) (map fst acc)) eqn:E; [ exact H | ].
  apply NoDup_app; [ exact H | constructor; [ intros [] | constructor ] | ].
  intros k Hk [<- | []].
  assert (existsb (String.eqb key) (map fst acc) = true); [ | congruence ].
  apply existsb_exists. exists key. split; [ exact Hk | apply String.eqb_refl ].
Qed.

Lemma push_group_nonempty (key : string) (item : A) (acc : list (string * list A)) :
  (forall k g, In (k, g) acc -> g <> []) ->
  forall k g, In (k, g) (push_group key item acc) -> g <> [].
Proof.
  induction acc as [|[k0 g0] rest IH]; intros Hacc k g; simpl.
  - intros [E | []]. inversion E. discriminate.
  - destruct (String.eqb k0 key).
    + intros [E | H].
      * inversion E. intros E'. apply app_eq_nil in E' as [_ E']. discriminate.
      * apply (Hacc k g). now right.
    + intros [E | H].
      * apply (Hacc k g). now left.
      * apply (IH (fun k g H => Hacc k g (or_intror H)) k g H).
Qed.

Lemma push_group_size (key : string) (item : A) (acc : list (string * list A)) :
  List.length (List.concat (map snd (push_group key item acc)))
  = S (List.length (List.concat (map snd acc))).
Proof.
  induction acc as [|[k0 g0] rest IH]; simpl; [ reflexivity | ].
  destruct (String.eqb k0 key); simpl.
  - rewrite !length_app. simpl. lia.
  - rewrite !length_app, IH. lia.
Qed.

Lemma groupBy_fold_raised (keyFn : A -> string) (arr : list A) :
  fold_left (fun acc item =>
               match acc with
               | Some groups =>
                   let key := keyFn item in
                   if inherited key then None
                   else Some (push_group key item groups)
               | None => None
               end) arr None = None.
Proof. induction arr as [|x arr IH]; simpl; [ reflexivity | exact IH ]. Qed.

(** The reduction fails exactly on an item with an inherited key, and
    is the plain grouping otherwise. *)
Lemma groupBy_fold_option (keyFn : A -> string) (arr : list A)
    (acc : list (string * list A)) :
  fold_left (fun acc item =>
               match acc with
               | Some groups =>
                   let key := keyFn item in
                   if inherited key then None
                   else Some (push_group key item groups)
               | None => None
               end) arr (Some acc)
  = if existsb (fun item => inherited (keyFn item)) arr then None
    else Some (fold_left (fun acc item => push_group (keyFn item) item acc) arr acc).
Proof.
  revert acc. induction arr as [|x arr IH]; intros acc; simpl; [ reflexivity | ].
  destruct (inherited (keyFn x)); simpl.
  - apply groupBy_fold_raised.
  - apply IH.
Qed.

Lemma groupBy_fold_invariant (keyFn : A -> string) (arr : list A)
    (acc : list (string * list A)) :
  NoDup (map fst acc) -> (forall k g, In (k, g) acc -> g <> []) ->
  let res := fold_left (fun acc item => push_group (keyFn item) item acc) arr acc in
  NoDup (map fst res) /\ (forall k g, In (k, g) res -> g <> []) /\
  List.length (List.concat (map snd res))
  = (List.length (List.concat (map snd acc)) + List.length arr)%nat.
Proof.
  revert acc. induction arr as [|x arr IH]; intros acc Hk Hg; simpl.
  - split; [ exact Hk | split; [ exact Hg | lia ] ].
  - destruct (IH (push_group (keyFn x) x acc)) as (I1 & I2 & I3).
    + now apply push_group_NoDup.
    + now apply push_group_nonempty.
    + split; [ exact I1 | split; [ exact I2 | ] ].
      rewrite I3, push_group_size. lia.
Qed.
End GroupBy.

(** X9. [groupBy] raises a [TypeError] exactly when some item has a key that
    names a property inherited from [Object.prototype].  Otherwise it
    partitions the array: looking up a key that is not inherited gives
    exactly the items with that key, in their order in the array ([[]] for
    a key no item has); no key occurs twice, no group is empty, and the
    groups together have as many items as the array. *)
Theorem groupBy_partition {A : Type} (arr : list A) (keyFn : A -> string) :
  (Investigation.groupBy arr keyFn = None <->
   exists item, In item arr /\ Investigation.inherited (keyFn item) = true) /\
  (forall groups, Investigation.groupBy arr keyFn = Some groups ->
     (forall k, Investigation.inherited k = false ->
        Investigation.group groups k
        = filter (fun x => String.eqb (keyFn x) k) arr) /\
     NoDup (map fst groups) /\
     (forall k g, In (k, g) groups -> g <> []) /\
     List.length (List.concat (map snd groups)) = List.length arr).
Proof.
  unfold Investigation.groupBy. rewrite groupBy_fold_option.
  destruct (existsb (fun item => Investigation.inherited (keyFn item)) arr) eqn:E.
  - split; [ | intros groups Hg; discriminate ].
    split; [ intros _ | reflexivity ].
    apply existsb_exists in E as (item & Hin & Hk). now exists item.
  - split.
    + split; [ discriminate | ].
      intros (item & Hin & Hk).
      assert (existsb (fun item => Investigation.inherited (keyFn item)) arr = true)
        by (apply existsb_exists; now exists item).
      congruence.
    + intros groups Hg. injection Hg as <-. split.
      * intros k _. now rewrite groupBy_fold_group.
      * apply (groupBy_fold_invariant keyFn arr []).
        -- constructor.
        -- intros k g [].
Qed.

(* ================================================================= *)
(** ** Anomaly detection ([detectAnomalies]) *)




Lemma detect_fold (metricName : string) (m sd : R) (series : list Point.t)
    (acc : list Anomaly.t) :
  fold_left
    (fun detected d =>
       let z := Analysis.zScore (Point.value d) m sd in
       if JS.gtb (Rabs z) Investigation.Z_THRESHOLD
       then detected ++
            [ {| Anomaly.date := Point.date d;
                 Anomaly.metric := metricName;
                 Anomaly.value := JS.toFixed 4 (Point.value d);
                 Anomaly.mean := JS.toFixed 4 m;
                 Anomaly.stddev := JS.toFixed 4 sd;
                 Anomaly.zScore := JS.toFixed 4 z;
                 Anomaly.direction :=
                   if JS.gtb z 0 then "ABOVE_NORMAL" else "BELOW_NORMAL" |} ]
       else detected)
    series acc
  = acc ++ map (anomalyOf metricName m sd)
             (filter (fun d => JS.gtb (Rabs (Analysis.zScore (Point.value d) m sd))
                                      Investigation.Z_THRESHOLD) series).
Proof.
  revert acc. induction series as [|d series IH]; intros acc; simpl.
  - now rewrite app_nil_r.
  - rewrite IH.
    destruct (JS.gtb (Rabs (Analysis.zScore (Point.value d) m sd))
                     Investigation.Z_THRESHOLD); [ | reflexivity ].
    simpl. rewrite <- app_assoc. reflexivity.
Qed.

Lemma mean_single (v : R) : Analysis.mean [v] = v.
Proof. unfold Analysis.mean, JS.sum_by, JS.len. simpl. field. Qed.

(** On the points of the series the test [|z| > 2] on the z-score is the
    test [|value - mean| > 2 * stddev]. *)
Lemma zScore_test (series : list Point.t) (d : Point.t) :
  In d series ->
  JS.gtb (Rabs (Analysis.zScore (Point.value d)
                  (Analysis.mean (map Point.value series))
                  (Analysis.stddev (map Point.value series))))
         Investigation.Z_THRESHOLD
  = beyond_two_sigma (Analysis.mean (map Point.value series))
                     (Analysis.stddev (map Point.value series)) d.
Proof.
  intros Hd. unfold beyond_two_sigma, Investigation.Z_THRESHOLD, Analysis.zScore.
  set (m := Analysis.mean (map Point.value series)).
  set (sd := Analysis.stddev (map Point.value series)).
  destruct (stddev_facts (map Point.value series)) as (Hnn & Hshort & Hflat).
  fold sd in Hnn, Hshort, Hflat. fold m in Hflat.
  destruct (JS.eqb sd 0) eqn:Hsd.
  - apply eqb_eq in Hsd.
    assert (Hv : Point.value d = m).
    { destruct (Nat.lt_ge_cases (List.length (map Point.value series)) 2) as [Hl | Hl].
      - rewrite length_map in Hl. unfold m.
        destruct series as [|d0 [|d1 series']]; [ destruct Hd | | simpl in Hl; lia ].
        destruct Hd as [<- | []]. cbn [map]. now rewrite mean_single.
      - apply (proj1 (Hflat Hl) Hsd). now apply in_map. }
    rewrite Hv, Hsd. unfold Rminus. rewrite Rplus_opp_r, Rabs_R0.
    unfold JS.gtb. rewrite (proj2 (ltb_ge 2.0 0)) by lra.
    rewrite (proj2 (ltb_ge (2 * 0) 0)) by lra. reflexivity.
  - apply eqb_neq in Hsd. assert (Hpos : 0 < sd) by lra.
    unfold Rdiv. rewrite Rabs_mult, Rabs_inv, (Rabs_right sd) by lra.
    set (X := Rabs (Point.value d - m)).
    assert (Hi : 0 < / sd) by now apply Rinv_0_lt_compat.
    assert (E : X * / sd * sd = X) by (field; lra).
    unfold JS.gtb. destruct (Rlt_dec (2 * sd) X) as [Hlt | Hge].
    + rewrite (proj2 (ltb_lt (2 * sd) X)) by exact Hlt.
      apply ltb_lt. apply (Rmult_lt_reg_r sd); [ exact Hpos | ]. rewrite E. lra.
    + rewrite (proj2 (ltb_ge (2 * sd) X)) by lra.
      apply ltb_ge. apply (Rmult_le_reg_r sd); [ exact Hpos | ]. rewrite E. lra.
Qed.

Lemma detectAnomalies_filter (series : list Point.t) (metricName : string) :
  Investigation.detectAnomalies series metricName
  = map (anomalyOf metricName (Analysis.mean (map Point.value series))
                   (Analysis.stddev (map Point.value series)))
        (filter (beyond_two_sigma (Analysis.mean (map Point.value series))
                                  (Analysis.stddev (map Point.value series)))
                series).
Proof.
  unfold Investigation.detectAnomalies. cbv zeta.
  rewrite detect_fold. simpl app. f_equal.
  apply filter_ext_in. intros d Hd. now apply zScore_test.
Qed.


(** X11. Every reported anomaly carries the metric name it was asked for and a
    z-score of magnitude at least 2 after rounding: at least 2 with the
    value not below the mean when the direction is ABOVE_NORMAL, at most
    -2 with the value not above the mean otherwise. *)
Theorem detectAnomalies_entries (series : list Point.t) (metricName : string)
    (a : Anomaly.t) :
  In a (Investigation.detectAnomalies series metricName) ->
  Anomaly.metric a = metricName /\
  (Anomaly.direction a = "ABOVE_NORMAL"%string /\
   2 <= Anomaly.zScore a /\ Anomaly.mean a <= Anomaly.value a
   \/
   Anomaly.direction a = "BELOW_NORMAL"%string /\
   Anomaly.zScore a <= -2 /\ Anomaly.value a <= Anomaly.mean a).
Proof.
  unfold Investigation.detectAnomalies. cbv zeta. rewrite detect_fold. simpl app.
  set (m := Analysis.mean (map Point.value series)).
  set (sd := Analysis.stddev (map Point.value series)).
  intros Ha. apply in_map_iff in Ha as (d & <- & Hd).
  apply filter_In in Hd as [_ Hz]. unfold JS.gtb in Hz. apply ltb_lt in Hz.
  unfold Investigation.Z_THRESHOLD in Hz.
  split; [ reflexivity | ]. unfold anomalyOf. cbv zeta.
  cbn [Anomaly.direction Anomaly.zScore Anomaly.mean Anomaly.value].
  assert (Hval : forall z, z = Analysis.zScore (Point.value d) m sd ->
            (0 < z -> m <= Point.value d) /\ (z < 0 -> Point.value d <= m)).
  { intros z ->. unfold Analysis.zScore.
    destruct (JS.eqb sd 0) eqn:Hsd; [ split; lra | apply eqb_neq in Hsd ].
    pose proof (proj1 (stddev_facts (map Point.value series))) as Hnn.
    fold sd in Hnn. assert (Hpos : 0 < sd) by lra.
    assert (Hi : 0 < / sd) by now apply Rinv_0_lt_compat.
    unfold Rdiv. split; intros Hs.
    - destruct (Rle_dec m (Point.value d)); [ assumption | exfalso ].
      assert ((Point.value d - m) * / sd < 0); [ | lra ].
      replace ((Point.value d - m) * / sd)
        with (- ((m - Point.value d) * / sd)) by ring.
      assert (0 < (m - Point.value d) * / sd); [ | lra ].
      apply Rmult_lt_0_compat; lra.
    - destruct (Rle_dec (Point.value d) m); [ assumption | exfalso ].
      assert (0 < (Point.value d - m) * / sd); [ | lra ].
      apply Rmult_lt_0_compat; lra. }
  specialize (Hval _ eq_refl) as [Hup Hdown].
  set (z := Analysis.zScore (Point.value d) m sd) in *.
  unfold JS.gtb. destruct (JS.ltb 0 z) eqn:Hs.
  - apply ltb_lt in Hs. left. rewrite (Rabs_right z) in Hz by lra.
    split; [ reflexivity | split ].
    + rewrite <- (toFixed_IZR 4 2). apply toFixed_mono. lra.
    + apply toFixed_mono. now apply Hup.
  - apply ltb_ge in Hs. right.
    assert (Hneg : z < 0).
    { destruct (Req_dec z 0) as [E | E]; [ | lra ].
      rewrite E, Rabs_R0 in Hz. lra. }
    rewrite (Rabs_left z) in Hz by exact Hneg.
    split; [ reflexivity | split ].
    + rewrite <- (toFixed_IZR 4 (-2)). apply toFixed_mono. lra.
    + apply toFixed_mono. now apply Hdown.
Qed.

Lemma sample_mean : Analysis.mean (map Point.value Sample.series) = 1.
Proof. unfold Analysis.mean, JS.sum_by, JS.len. simpl. lra. Qed.

Lemma sample_stddev : Analysis.stddev (map Point.value Sample.series) = 3.
Proof.
  unfold Analysis.stddev. change (List.length (map Point.value Sample.series) <? 2)%nat
    with false. cbv zeta. rewrite sample_mean.
  unfold JS.sum_by, JS.len. simpl. apply sqrt_lem_1; lra.
Qed.

Lemma sample_peak_detected :
  In (anomalyOf "REVENUE_DELTA" 1 3 Sample.peak)
     (Investigation.detectAnomalies Sample.series "REVENUE_DELTA").
Proof.
  rewrite detectAnomalies_filter, sample_mean, sample_stddev.
  apply in_map, filter_In. split; [ simpl; tauto | ].
  unfold beyond_two_sigma, JS.gtb. apply ltb_lt.
  change (Point.value Sample.peak) with 9. rewrite Rabs_right; lra.
Qed.

Lemma detectAnomalies_entries_witness :
  Anomaly.metric (anomalyOf "REVENUE_DELTA" 1 3 Sample.peak) = "REVENUE_DELTA"%string /\
  (Anomaly.direction (anomalyOf "REVENUE_DELTA" 1 3 Sample.peak) = "ABOVE_NORMAL"%string /\
   2 <= Anomaly.zScore (anomalyOf "REVENUE_DELTA" 1 3 Sample.peak) /\
   Anomaly.mean (anomalyOf "REVENUE_DELTA" 1 3 Sample.peak)
   <= Anomaly.value (anomalyOf "REVENUE_DELTA" 1 3 Sample.peak)
   \/
   Anomaly.direction (anomalyOf "REVENUE_DELTA" 1 3 Sample.peak) = "BELOW_NORMAL"%string /\
   Anomaly.zScore (anomalyOf "REVENUE_DELTA" 1 3 Sample.peak) <= -2 /\
   Anomaly.value (anomalyOf "REVENUE_DELTA" 1 3 Sample.peak)
   <= Anomaly.mean (anomalyOf "REVENUE_DELTA" 1 3 Sample.peak)).
Proof.
  apply (detectAnomalies_entries Sample.series "REVENUE_DELTA").
  exact sample_peak_detected.
Defined.




(* ================================================================= *)
(** ** Composite confidence of the investigation *)







(* ================================================================= *)
(** * Further properties of the server code *)

(** ** The order of strings and [Array.prototype.sort] *)

Lemma str_ltb_irrefl (a : string) : String.ltb a a = false.
Proof.
  pose proof (proj2 (OrderedTypeEx.String_as_OT.cmp_eq a a) eq_refl) as H.
  unfold OrderedTypeEx.String_as_OT.cmp in H. unfold String.ltb. now rewrite H.
Qed.

Lemma str_ltb_asym (a b : string) : String.ltb a b = true -> String.ltb b a = false.
Proof.
  unfold String.ltb. rewrite (String.compare_antisym b a).
  destruct (String.compare a b); simpl; congruence.
Qed.

Lemma str_ltb_trans (a b c : string) :
  String.ltb a b = true -> String.ltb b c = true -> String.ltb a c = true.
Proof.
  unfold String.ltb. intros Hab Hbc.
  assert (H1 : String.compare a b = Lt) by (destruct (String.compare a b); congruence).
  assert (H2 : String.compare b c = Lt) by (destruct (String.compare b c); congruence).
  apply OrderedTypeEx.String_as_OT.cmp_lt in H1, H2.
  pose proof (OrderedTypeEx.String_as_OT.lt_trans _ _ _ H1 H2) as H3.
  apply OrderedTypeEx.String_as_OT.cmp_lt in H3.
  unfold OrderedTypeEx.String_as_OT.cmp in H3. now rewrite H3.
Qed.

Lemma str_ltb_total (a b : string) :
  String.ltb a b = false -> String.ltb b a = false -> a = b.
Proof.
  unfold String.ltb. rewrite (String.compare_antisym b a).
  destruct (String.compare a b) eqn:E; simpl; try congruence.
  intros _ _. now apply String.compare_eq_iff.
Qed.

Lemma str_cmp_gt (y x : string) : JS.gtb (JS.str_cmp y x) 0 = String.ltb x y.
Proof.
  unfold JS.str_cmp, JS.gtb.
  destruct (String.ltb y x) eqn:Hyx.
  - rewrite (str_ltb_asym y x Hyx). apply ltb_ge. lra.
  - destruct (String.ltb x y); [ apply ltb_lt | apply ltb_ge ]; lra.
Qed.

Lemma sort_insert_perm {A} (cmp : A -> A -> R) (x : A) (l : list A) :
  Permutation (JS.sort_insert cmp x l) (x :: l).
Proof.
  induction l as [|y l IH]; simpl; [ reflexivity | ].
  destruct (JS.gtb (cmp y x) 0); [ reflexivity | ].
  rewrite IH. apply perm_swap.
Qed.

(** Sorting rearranges the array and nothing else. *)
Lemma sort_perm {A} (cmp : A -> A -> R) (l : list A) :
  Permutation (JS.sort cmp l) l.
Proof.
  unfold JS.sort.
  assert (G : forall l acc,
            Permutation (fold_left (fun acc x => JS.sort_insert cmp x acc) l acc)
                        (acc ++ l)).
  { clear l. induction l as [|x l IH]; intros acc; simpl.
    - now rewrite app_nil_r.
    - rewrite IH, sort_insert_perm. apply Permutation_middle. }
  apply (G l []).
Qed.

Lemma sort_insert_str_sorted (x : string) (l : list string) :
  StronglySorted (fun a b => String.ltb b a = false) l ->
  StronglySorted (fun a b => String.ltb b a = false) (JS.sort_insert JS.str_cmp x l).
Proof.
  induction 1 as [|y l Hl IH Hy]; simpl.
  - repeat constructor.
  - rewrite str_cmp_gt. destruct (String.ltb x y) eqn:Hxy.
    + constructor; [ now constructor | ].
      constructor; [ now apply str_ltb_asym | ].
      rewrite Forall_forall in *. intros z Hz. specialize (Hy z Hz).
      destruct (String.ltb z x) eqn:Hzx; [ | reflexivity ].
      rewrite (str_ltb_trans z x y Hzx Hxy) in Hy. discriminate.
    + constructor; [ exact IH | ].
      rewrite Forall_forall in *. intros z Hz.
      apply sort_insert_In in Hz as [-> | Hz]; [ exact Hxy | now apply Hy ].
Qed.

Lemma sort_str_sorted (l : list string) :
  StronglySorted (fun a b => String.ltb b a = false) (JS.sort JS.str_cmp l).
Proof.
  unfold JS.sort.
  assert (G : forall l acc,
            StronglySorted (fun a b => String.ltb b a = false) acc ->
            StronglySorted (fun a b => String.ltb b a = false)
              (fold_left (fun acc x => JS.sort_insert JS.str_cmp x acc) l acc)).
  { clear l. induction l as [|x l IH]; intros acc Hacc; simpl; [ exact Hacc | ].
    apply IH, sort_insert_str_sorted, Hacc. }
  apply G. constructor.
Qed.

(** Sorting distinct strings puts them in strictly ascending order. *)
Lemma sort_str_ascending (l : list string) :
  NoDup l ->
  StronglySorted (fun a b => String.ltb a b = true) (JS.sort JS.str_cmp l).
Proof.
  intros Hnd.
  assert (Hnd' : NoDup (JS.sort JS.str_cmp l)).
  { eapply Permutation_NoDup; [ symmetry; apply sort_perm | exact Hnd ]. }
  pose proof (sort_str_sorted l) as Hs.
  induction Hs as [|a r Hr IH Ha]; [ constructor | ].
  apply NoDup_cons_iff in Hnd' as [Hnotin Hnd'].
  constructor; [ now apply IH | ].
  rewrite Forall_forall in *. intros b Hb. specialize (Ha b Hb).
  destruct (String.ltb a b) eqn:Hab; [ reflexivity | exfalso ].
  apply Hnotin. now rewrite (str_ltb_total a b Hab Ha).
Qed.

(* ================================================================= *)
(** ** The per-day counters of [computeDriftDetection] *)

Lemma get_bump (day : string) (a : bool) (byDay : Drift.ByDay) (d : string) :
  Drift.get (Drift.bump day a byDay) d
  = if String.eqb day d
    then {| Drift.total := S (Drift.total (Drift.get byDay d));
            Drift.anomalies := if a then S (Drift.anomalies (Drift.get byDay d))
                               else Drift.anomalies (Drift.get byDay d) |}
    else Drift.get byDay d.
Proof.
  induction byDay as [|[d0 v] rest IH]; simpl.
  - destruct (String.eqb day d); reflexivity.
  - destruct (String.eqb d0 day) eqn:E0; simpl.
    + apply String.eqb_eq in E0. subst d0.
      destruct (String.eqb day d); reflexivity.
    + destruct (String.eqb d0 d) eqn:E1; [ | exact IH ].
      apply String.eqb_eq in E1. subst d0. now rewrite String.eqb_sym, E0.
Qed.

Lemma bump_keys (day : string) (a : bool) (byDay : Drift.ByDay) :
  map fst (Drift.bump day a byDay)
  = if existsb (String.eqb day) (map fst byDay) then map fst byDay
    else map fst byDay ++ [day].
Proof.
  induction byDay as [|[d0 v] rest IH]; simpl; [ reflexivity | ].
  rewrite (String.eqb_sym day d0).
  destruct (String.eqb d0 day); simpl; [ reflexivity | ].
  rewrite IH. destruct (existsb (String.eqb day) (map fst rest)); reflexivity.
Qed.

Lemma existsb_eqb_In (day : string) (l : list string) :
  existsb (String.eqb day) l = true <-> In day l.
Proof.
  rewrite existsb_exists. split.
  - intros (x & Hx & E). apply String.eqb_eq in E. now subst.
  - intros H. exists day. split; [ exact H | apply String.eqb_refl ].
Qed.

Lemma bump_keys_NoDup (day : string) (a : bool) (byDay : Drift.ByDay) :
  NoDup (map fst byDay) -> NoDup (map fst (Drift.bump day a byDay)).
Proof.
  intros H. rewrite bump_keys.
  destruct (existsb (String.eqb day) (map fst byDay)) eqn:E; [ exact H | ].
  apply NoDup_app; [ exact H | constructor; [ intros [] | constructor ] | ].
  intros k Hk [<- | []]. apply existsb_eqb_In in Hk. congruence.
Qed.

Lemma bump_keys_In (day : string) (a : bool) (byDay : Drift.ByDay) (d : string) :
  In d (map fst (Drift.bump day a byDay)) <-> d = day \/ In d (map fst byDay).
Proof.
  rewrite bump_keys.
  destruct (existsb (String.eqb day) (map fst byDay)) eqn:E.
  - apply existsb_eqb_In in E. split; [ tauto | intros [-> | H]; assumption ].
  - rewrite in_app_iff. simpl. intuition.
Qed.

Lemma byDay_fold (l : list Invoice.t) (acc : Drift.ByDay) :
  let res := fold_left (fun acc inv =>
               Drift.bump (JS.str_slice10 (Invoice.timestamp inv))
                          (underbilled inv) acc) l acc in
  (forall day,
     Drift.total (Drift.get res day)
     = (Drift.total (Drift.get acc day)
        + List.length (filter (fun inv =>
            String.eqb (JS.str_slice10 (Invoice.timestamp inv)) day) l))%nat /\
     Drift.anomalies (Drift.get res day)
     = (Drift.anomalies (Drift.get acc day)
        + List.length (filter (fun inv =>
            String.eqb (JS.str_slice10 (Invoice.timestamp inv)) day
            && underbilled inv) l))%nat) /\
  (NoDup (map fst acc) -> NoDup (map fst res)) /\
  (forall day, In day (map fst res) <->
     In day (map fst acc) \/
     exists inv, In inv l /\ JS.str_slice10 (Invoice.timestamp inv) = day).
Proof.
  cbv zeta. revert acc. induction l as [|inv l IH]; intros acc.
  - simpl. split; [ intros day; split; lia | ]. split; [ auto | ].
    intros day. split; [ auto | intros [H | (inv & [] & _)]; exact H ].
  - simpl fold_left.
    destruct (IH (Drift.bump (JS.str_slice10 (Invoice.timestamp inv))
                             (underbilled inv) acc)) as (Hc & Hn & Hk).
    split; [ | split ].
    + intros day. destruct (Hc day) as [Ht Ha]. rewrite Ht, Ha, get_bump.
      simpl filter.
      destruct (String.eqb (JS.str_slice10 (Invoice.timestamp inv)) day);
        destruct (underbilled inv); simpl; split; lia.
    + intros Hnd. apply Hn, bump_keys_NoDup, Hnd.
    + intros day. rewrite Hk, bump_keys_In. split.
      * intros [[-> | H] | (i & Hi & E)].
        -- right. exists inv. split; [ now left | reflexivity ].
        -- now left.
        -- right. exists i. split; [ now right | exact E ].
      * intros [H | (i & [<- | Hi] & E)].
        -- left. now right.
        -- left. left. now symmetry.
        -- right. exists i. split; assumption.
Qed.

(** X14. When no invoice of the chosen service has a day key that names a
    property inherited from [Object.prototype], the grouping loop counts
    faithfully: for every day, the stored [total] is the number of invoices
    of the chosen service dated that day and [anomalies] the number of
    underbilled ones among them (both [0], the day being absent, when there
    is none); no day is stored twice, and the stored days are exactly the
    days some invoice carries. *)
Theorem byDay_counts (invoices : list Invoice.t) (service : option string) :
  own_day_keys invoices service ->
  let byDay := Drift.byDay invoices service in
  let of_day day inv := String.eqb (JS.str_slice10 (Invoice.timestamp inv)) day in
  (forall day,
     Drift.total (Drift.get byDay day)
     = List.length (filter (of_day day) (Drift.filtered invoices service)) /\
     Drift.anomalies (Drift.get byDay day)
     = List.length (filter (fun inv => of_day day inv && underbilled inv)
                           (Drift.filtered invoices service))) /\
  NoDup (map fst byDay) /\
  (forall day, In day (map fst byDay) <->
     exists inv, In inv (Drift.filtered invoices service) /\
                 JS.str_slice10 (Invoice.timestamp inv) = day).
Proof.
  intros _. cbv zeta. unfold Drift.byDay.
  destruct (byDay_fold (Drift.filtered invoices service) []) as (Hc & Hn & Hk).
  split; [ | split ].
  - intros day. destruct (Hc day) as [Ht Ha]. rewrite Ht, Ha. simpl. split; lia.
  - apply Hn. constructor.
  - intros day. rewrite Hk. simpl. tauto.
Qed.

Lemma incident_own_day_keys : own_day_keys Scenario.incident None.
Proof.
  intros inv Hin. simpl in Hin.
  repeat (destruct Hin as [<- | Hin]; [ reflexivity | ]). destruct Hin.
Qed.

Lemma byDay_counts_witness :
  let byDay := Drift.byDay Scenario.incident None in
  let of_day day inv := String.eqb (JS.str_slice10 (Invoice.timestamp inv)) day in
  (forall day,
     Drift.total (Drift.get byDay day)
     = List.length (filter (of_day day) (Drift.filtered Scenario.incident None)) /\
     Drift.anomalies (Drift.get byDay day)
     = List.length (filter (fun inv => of_day day inv && underbilled inv)
                           (Drift.filtered Scenario.incident None))) /\
  NoDup (map fst byDay) /\
  (forall day, In day (map fst byDay) <->
     exists inv, In inv (Drift.filtered Scenario.incident None) /\
                 JS.str_slice10 (Invoice.timestamp inv) = day).
Proof.
  apply (byDay_counts Scenario.incident None). exact incident_own_day_keys.
Defined.

Lemma byDay_keys_NoDup (invoices : list Invoice.t) (service : option string) :
  NoDup (map fst (Drift.byDay invoices service)).
Proof.
  unfold Drift.byDay.
  destruct (byDay_fold (Drift.filtered invoices service) []) as (_ & Hn & _).
  apply Hn. constructor.
Qed.

Lemma byDay_keys_In (invoices : list Invoice.t) (service : option string)
    (day : string) :
  In day (map fst (Drift.byDay invoices service)) <->
  exists inv, In inv (Drift.filtered invoices service) /\
              JS.str_slice10 (Invoice.timestamp inv) = day.
Proof.
  unfold Drift.byDay.
  destruct (byDay_fold (Drift.filtered invoices service) []) as (_ & _ & Hk).
  rewrite Hk. simpl. tauto.
Qed.

Lemma dailyDrift_dates (invoices : list Invoice.t) (service : option string)
    (baselineEnd : string) :
  map DailyDrift.date (Drift.dailyDrift invoices service baselineEnd)
  = Drift.sortedDays invoices service.
Proof.
  unfold Drift.dailyDrift. rewrite map_map. simpl. apply map_id.
Qed.

Lemma dailyDrift_sorted (invoices : list Invoice.t) (service : option string)
    (baselineEnd : string) :
  StronglySorted (fun a b => String.ltb a b = true)
    (map DailyDrift.date (Drift.dailyDrift invoices service baselineEnd)).
Proof.
  rewrite dailyDrift_dates. apply sort_str_ascending, byDay_keys_NoDup.
Qed.

(** X15. When no invoice of the chosen service has a day key that names a
    property inherited from [Object.prototype], the per-day history lists
    every day that carries an invoice of the chosen service exactly once,
    in strictly ascending order of the date. *)
Theorem dailyDrift_ascending (invoices : list Invoice.t)
    (service : option string) (baselineEnd : string) (driftThreshold : R) :
  own_day_keys invoices service ->
  let dates :=
    map DailyDrift.date
      (DriftResult.dailyDrift
         (computeDriftDetection invoices service baselineEnd driftThreshold)) in
  StronglySorted (fun a b => String.ltb a b = true) dates /\
  (forall day, In day dates <->
     exists inv, In inv (Drift.filtered invoices service) /\
                 JS.str_slice10 (Invoice.timestamp inv) = day).
Proof.
  intros _. cbv zeta. unfold computeDriftDetection. cbn [DriftResult.dailyDrift].
  split; [ apply dailyDrift_sorted | ].
  intros day. rewrite dailyDrift_dates. unfold Drift.sortedDays.
  rewrite sort_In. apply byDay_keys_In.
Qed.

Lemma dailyDrift_ascending_witness :
  let dates :=
    map DailyDrift.date
      (DriftResult.dailyDrift
         (computeDriftDetection Scenario.incident None default_baselineEnd
            default_driftThreshold)) in
  StronglySorted (fun a b => String.ltb a b = true) dates /\
  (forall day, In day dates <->
     exists inv, In inv (Drift.filtered Scenario.incident None) /\
                 JS.str_slice10 (Invoice.timestamp inv) = day).
Proof.
  apply (dailyDrift_ascending Scenario.incident None default_baselineEnd
           default_driftThreshold).
  exact incident_own_day_keys.
Defined.

Lemma find_first_sorted {A B} (lt : B -> B -> Prop) (g : A -> B)
    (f : A -> bool) (l : list A) (x : A) :
  StronglySorted lt (map g l) -> find f l = Some x ->
  In x l /\ f x = true /\
  forall y, In y l -> f y = true -> y = x \/ lt (g x) (g y).
Proof.
  induction l as [|a l IH]; simpl; intros Hs Hf; [ discriminate | ].
  inversion Hs as [|? ? Hs' Ha]; subst.
  destruct (f a) eqn:Hfa.
  - injection Hf as <-. split; [ now left | split; [ exact Hfa | ] ].
    intros y [<- | Hy] _; [ now left | right ].
    rewrite Forall_forall in Ha. apply Ha. now apply in_map.
  - destruct (IH Hs' Hf) as (Hin & Hx & Hfirst).
    split; [ now right | split; [ exact Hx | ] ].
    intros y [<- | Hy] Hfy; [ congruence | now apply Hfirst ].
Qed.

(** X16. [findSpikeStart] on the history of a drift result names the earliest
    day whose drift factor exceeds the threshold; it answers [null] exactly
    when no day does. *)
Theorem spikeStart_earliest (invoices : list Invoice.t)
    (service : option string) (baselineEnd : string)
    (driftThreshold threshold : R) :
  let daily :=
    DriftResult.dailyDrift
      (computeDriftDetection invoices service baselineEnd driftThreshold) in
  match findSpikeStart daily threshold with
  | Some day =>
      exists e, In e daily /\ DailyDrift.date e = day /\
                threshold < DailyDrift.driftFactor e /\
                forall e', In e' daily -> threshold < DailyDrift.driftFactor e' ->
                           e' = e \/ String.ltb day (DailyDrift.date e') = true
  | None => forall e, In e daily -> DailyDrift.driftFactor e <= threshold
  end.
Proof.
  cbv zeta. unfold computeDriftDetection. cbn [DriftResult.dailyDrift].
  unfold findSpikeStart.
  destruct (find _ (Drift.dailyDrift invoices service baselineEnd)) as [e|] eqn:Hf.
  - destruct (find_first_sorted (fun a b => String.ltb a b = true)
                DailyDrift.date _ _ e
                (dailyDrift_sorted invoices service baselineEnd) Hf)
      as (Hin & He & Hfirst).
    exists e. split; [ exact Hin | split; [ reflexivity | ] ].
    unfold JS.gtb in He. apply ltb_lt in He. split; [ exact He | ].
    intros e' Hin' He'. apply Hfirst; [ exact Hin' | ].
    unfold JS.gtb. now apply ltb_lt.
  - intros e Hin. pose proof (find_none _ _ Hf e Hin) as Hn.
    unfold JS.gtb in Hn. now apply ltb_ge in Hn.
Qed.

Lemma average_unit (l : list R) :
  Forall (fun r => 0 <= r <= 1) l ->
  0 <= (if (0 <? List.length l)%nat
        then JS.sum_by (fun r => r) l / JS.len l else 0) <= 1.
Proof.
  intros Hl. destruct (Nat.ltb_spec 0 (List.length l)) as [Hn | Hn]; [ | lra ].
  assert (Hne : l <> []) by (intros ->; simpl in Hn; lia).
  rewrite Forall_forall in Hl.
  pose proof (mean_between l 0 1 Hne Hl) as Hm.
  unfold Analysis.mean in Hm. destruct l; [ contradiction | exact Hm ].
Qed.

Lemma baselineDays_unit (invoices : list Invoice.t) (service : option string)
    (baselineEnd : string) :
  Forall (fun r => 0 <= r <= 1) (Drift.baselineDays invoices service baselineEnd).
Proof.
  unfold Drift.baselineDays. apply Forall_map, Forall_forall.
  intros e He. apply filter_In in He as [He _].
  pose proof (byDay_wf invoices service) as Hwf.
  rewrite Forall_forall in Hwf. apply rate_bounds; auto.
Qed.

Lemma day_rate_unit (invoices : list Invoice.t) (service : option string)
    (day : string) :
  In day (Drift.sortedDays invoices service) ->
  0 <= Drift.rate (Drift.get (Drift.byDay invoices service) day) <= 1.
Proof.
  intros Hd. unfold Drift.sortedDays in Hd. apply sort_In in Hd.
  apply (rate_bounds (day, _)), get_wf; [ apply byDay_wf | exact Hd ].
Qed.

Lemma recentRates_unit (invoices : list Invoice.t) (service : option string) :
  Forall (fun r => 0 <= r <= 1) (Drift.recentRates invoices service).
Proof.
  unfold Drift.recentRates, Drift.recentDays.
  apply Forall_map, Forall_forall. intros d Hd.
  apply slice_last_In in Hd. now apply day_rate_unit.
Qed.

(** X17. The rates a drift result reports are percentages: the baseline rate,
    the current rate and the anomaly rate of every day of the history lie
    in [0, 100]; the reported deviation and the drift factor of every day
    are not negative. *)
Theorem drift_report_ranges (invoices : list Invoice.t)
    (service : option string) (baselineEnd : string) (driftThreshold : R) :
  let d := computeDriftDetection invoices service baselineEnd driftThreshold in
  0 <= DriftResult.baselineRate d <= 100 /\
  0 <= DriftResult.currentRate d <= 100 /\
  0 <= DriftResult.stdDev d /\
  (forall e, In e (DriftResult.dailyDrift d) ->
     0 <= DailyDrift.anomalyRate e <= 100 /\ 0 <= DailyDrift.driftFactor e).
Proof.
  cbv zeta. unfold computeDriftDetection.
  cbn [DriftResult.baselineRate DriftResult.currentRate DriftResult.stdDev
       DriftResult.dailyDrift].
  pose proof (average_unit _ (baselineDays_unit invoices service baselineEnd)) as Hb.
  pose proof (average_unit _ (recentRates_unit invoices service)) as Hc.
  fold (Drift.baselineRate invoices service baselineEnd) in Hb.
  fold (Drift.currentRate invoices service) in Hc.
  split; [ apply (toFixed_between 2 0 100); lra | ].
  split; [ apply (toFixed_between 2 0 100); lra | ].
  split.
  - rewrite <- (toFixed_IZR 4 0). apply toFixed_mono.
    unfold Drift.stdDev.
    pose proof (sqrt_pos (Drift.variance invoices service baselineEnd)). lra.
  - intros e He. unfold Drift.dailyDrift in He.
    apply in_map_iff in He as (day & <- & Hday).
    pose proof (day_rate_unit invoices service day Hday) as Hr.
    cbn [DailyDrift.anomalyRate DailyDrift.driftFactor].
    split; [ apply (toFixed_between 2 0 100); lra | ].
    js_split; [ | lra ].
    rewrite <- (toFixed_IZR 2 0). apply toFixed_mono.
    apply Rmult_le_pos; [ lra | left; now apply Rinv_0_lt_compat ].
Qed.

(** X18. Without any invoice of the chosen service the detector reports no
    drift: both rates, the drift factor and the z-score are [0], the
    deviation is the fallback [sqrt 0.0001] shown as [1], the signal is
    NOISE, the history is empty, and a spike is declared only against a
    negative threshold. *)
Theorem drift_no_invoices (invoices : list Invoice.t)
    (service : option string) (baselineEnd : string) (driftThreshold : R) :
  Drift.filtered invoices service = [] ->
  computeDriftDetection invoices service baselineEnd driftThreshold
  = {| DriftResult.baselineRate := 0; DriftResult.currentRate := 0;
       DriftResult.driftFactor := 0; DriftResult.stdDev := 1;
       DriftResult.zScore := 0;
       DriftResult.statistical_significance := "NOISE";
       DriftResult.spike := JS.gtb 0 driftThreshold;
       DriftResult.threshold := driftThreshold;
       DriftResult.dailyDrift := [] |}.
Proof.
  intros Hnone.
  assert (Hb : Drift.byDay invoices service = [])
    by (unfold Drift.byDay; now rewrite Hnone).
  assert (Hbase : Drift.baselineRate invoices service baselineEnd = 0)
    by (unfold Drift.baselineRate, Drift.baselineDays; now rewrite Hb).
  assert (Hcur : Drift.currentRate invoices service = 0)
    by (unfold Drift.currentRate, Drift.recentRates, Drift.recentDays,
          Drift.sortedDays; now rewrite Hb).
  assert (Hdf : Drift.driftFactor invoices service baselineEnd = 0).
  { unfold Drift.driftFactor. rewrite Hbase. unfold JS.gtb.
    now rewrite (proj2 (ltb_ge 0 0)) by lra. }
  assert (Hsd : Drift.stdDev invoices service baselineEnd = 0.01).
  { unfold Drift.stdDev, Drift.variance, Drift.baselineDays. rewrite Hb. simpl.
    apply sqrt_lem_1; lra. }
  assert (Hz : Drift.zScore invoices service baselineEnd = 0).
  { unfold Drift.zScore. rewrite Hsd, Hcur, Hbase. unfold JS.gtb.
    rewrite (proj2 (ltb_lt 0 0.01)) by lra. lra. }
  unfold computeDriftDetection, Drift.statistical_significance, Drift.spike,
    Drift.dailyDrift, Drift.sortedDays.
  rewrite Hbase, Hcur, Hdf, Hsd, Hz, Hb. simpl map.
  replace (0 * 100) with 0 by lra. replace (0.01 * 100) with 1 by lra.
  rewrite (toFixed_IZR 2 0), (toFixed_IZR 4 1).
  unfold JS.gtb. rewrite (proj2 (ltb_ge 3.0 0)), (proj2 (ltb_ge 2.0 0)) by lra.
  reflexivity.
Qed.

Lemma drift_no_invoices_witness :
  computeDriftDetection Scenario.incident (Some "search-service"%string)
    default_baselineEnd default_driftThreshold
  = {| DriftResult.baselineRate := 0; DriftResult.currentRate := 0;
       DriftResult.driftFactor := 0; DriftResult.stdDev := 1;
       DriftResult.zScore := 0;
       DriftResult.statistical_significance := "NOISE";
       DriftResult.spike := JS.gtb 0 default_driftThreshold;
       DriftResult.threshold := default_driftThreshold;
       DriftResult.dailyDrift := [] |}.
Proof.
  apply (drift_no_invoices Scenario.incident (Some "search-service"%string)).
  reflexivity.
Defined.

(* ================================================================= *)
(** ** Attribution confidence ([computeConfidence]) *)

Lemma fraction_unit {A} (f : A -> bool) (l : list A) :
  0 <= (if (0 <? List.length l)%nat
        then INR (List.length (filter f l)) / JS.len l else 0) <= 1.
Proof.
  unfold JS.len.
  destruct (Nat.ltb_spec 0 (List.length l)) as [Hn | Hn]; [ | lra ].
  assert (Ht : 0 < INR (List.length l)) by (apply lt_0_INR; lia).
  pose proof (pos_INR (List.length (filter f l))) as Ha.
  pose proof (filter_length_le f l) as Hle. apply le_INR in Hle. split.
  - apply Rmult_le_pos; [ exact Ha | left; now apply Rinv_0_lt_compat ].
  - apply (Rmult_le_reg_r (INR (List.length l))); [ exact Ht | ].
    unfold Rdiv. rewrite Rmult_assoc, Rinv_l by lra. lra.
Qed.

Lemma toFixed_4_tenths : JS.toFixed 4 0.4 = 0.4.
Proof.
  replace 0.4 with (IZR 4000 / JS.pow10 4)
    by (change (JS.pow10 4) with (IZR (10 ^ 4)); simpl Z.pow; lra).
  apply toFixed_grid.
Qed.

Section ConfidenceWindows.
Variables (Date_parse : DateParser) (invoices : list Invoice.t)
          (service deploymentDate : string).

Lemma confidence_le_1 :
  Conf.confidence Date_parse invoices service deploymentDate <= 1.
Proof.
  unfold Conf.confidence.
  pose proof (Rmin_r (Conf.impactDelta invoices service deploymentDate * 5) 0.4).
  destruct (temporalScore_values Date_parse invoices service deploymentDate)
    as [E | [E | [E | E]]]; rewrite E; lra.
Qed.

Lemma clamped_above (x : R) :
  x < Conf.clampedConfidence Date_parse invoices service deploymentDate ->
  -1 <= x ->
  x < Conf.confidence Date_parse invoices service deploymentDate.
Proof.
  unfold Conf.clampedConfidence. intros H Hx.
  set (c := Conf.confidence Date_parse invoices service deploymentDate) in *.
  revert H. apply Rmax_case_strong; intros H1 H2; [ lra | ].
  revert H1 H2. apply Rmin_case_strong; intros; lra.
Qed.

(** A reported confidence above 0.4 needs the temporal term: the leak has
    a spike start, and it falls on the day of the deployment or within the
    three days after it. *)
Lemma confident_is_timed :
  0.4 < Confidence.confidence
          (computeConfidence Date_parse invoices service deploymentDate) ->
  exists s d,
    Conf.spikeStart invoices service = Some s /\
    dateDiffDays Date_parse s (JS.str_slice10 deploymentDate) = Some d /\
    0 <= d <= 3.
Proof.
  unfold computeConfidence. cbn [Confidence.confidence]. intros H.
  assert (Hc : 0.4 < Conf.clampedConfidence Date_parse invoices service deploymentDate).
  { destruct (Rlt_dec 0.4 (Conf.clampedConfidence Date_parse invoices service
                             deploymentDate)) as [Hlt | Hge]; [ exact Hlt | ].
    exfalso. rewrite <- toFixed_4_tenths in H.
    assert (Hm := toFixed_mono 4 _ 0.4 (Rnot_lt_le _ _ Hge)). lra. }
  apply clamped_above in Hc; [ | lra ].
  unfold Conf.confidence in Hc.
  pose proof (Rmin_r (Conf.impactDelta invoices service deploymentDate * 5) 0.4).
  assert (Hts : 0 < Conf.temporalScore Date_parse invoices service deploymentDate)
    by lra.
  unfold Conf.temporalScore in Hts.
  destruct (Conf.spikeStart invoices service) as [s|]; [ | lra ].
  destruct (JS.truthy s); [ | lra ].
  destruct (dateDiffDays Date_parse s (JS.str_slice10 deploymentDate)) as [d|]
    eqn:Hd; [ | lra ].
  exists s, d. split; [ reflexivity | split; [ exact Hd | ] ].
  unfold JS.geb, JS.gtb in Hts.
  destruct (JS.leb 0 d) eqn:T0; destruct (JS.leb d 1) eqn:T1;
    destruct (JS.ltb 1 d) eqn:T2; destruct (JS.leb d 3) eqn:T3;
    destruct (JS.ltb d 0) eqn:T4; simpl in Hts;
    try apply leb_le in T0; try apply leb_gt in T0;
    try apply leb_le in T1; try apply leb_gt in T1;
    try apply ltb_lt in T2; try apply ltb_ge in T2;
    try apply leb_le in T3; try apply leb_gt in T3;
    try apply ltb_lt in T4; try apply ltb_ge in T4; lra.
Qed.
End ConfidenceWindows.

(** X19. The deployment date splits the invoices of the service in two: every
    one is counted before it or from it on.  Both anomaly rates are
    reported as percentages in [0, 100].  The raw confidence never exceeds
    1, so only the lower clamp at -1 can act.  Without a spike start the
    temporal score is 0, the reported confidence is at most 0.4 and the
    classification is not the strong one. *)
Theorem confidence_windows (Date_parse : DateParser)
    (invoices : list Invoice.t) (service deploymentDate : string) :
  let res := computeConfidence Date_parse invoices service deploymentDate in
  (List.length (Conf.before invoices service deploymentDate)
   + List.length (Conf.after invoices service deploymentDate)
   = List.length (Conf.serviceInvoices invoices service))%nat /\
  0 <= Confidence.rateBefore res <= 100 /\
  0 <= Confidence.rateAfter res <= 100 /\
  Conf.clampedConfidence Date_parse invoices service deploymentDate
  = Rmax (-1) (Conf.confidence Date_parse invoices service deploymentDate) /\
  (Confidence.spikeStart res = None ->
   Confidence.temporalScore res = 0 /\
   Confidence.confidence res <= 0.4 /\
   Confidence.classification res <> "STRONG CAUSAL LINK"%string).
Proof.
  cbv zeta. unfold computeConfidence.
  cbn [Confidence.rateBefore Confidence.rateAfter Confidence.spikeStart
       Confidence.temporalScore Confidence.confidence Confidence.classification].
  split; [ | split; [ | split; [ | split ] ] ].
  - unfold Conf.before, Conf.after, str_geb. apply filter_length.
  - pose proof (fraction_unit underbilled (Conf.before invoices service deploymentDate)).
    apply (toFixed_between 2 0 100). unfold Conf.rateBefore, Conf.anomaliesBefore. lra.
  - pose proof (fraction_unit underbilled (Conf.after invoices service deploymentDate)).
    apply (toFixed_between 2 0 100). unfold Conf.rateAfter, Conf.anomaliesAfter. lra.
  - unfold Conf.clampedConfidence. f_equal. apply Rmin_right.
    apply confidence_le_1.
  - intros Hnone.
    assert (Hts : Conf.temporalScore Date_parse invoices service deploymentDate = 0)
      by (unfold Conf.temporalScore; now rewrite Hnone).
    assert (Hc : Conf.clampedConfidence Date_parse invoices service deploymentDate
                 <= 0.4).
    { unfold Conf.clampedConfidence, Conf.confidence. rewrite Hts.
      pose proof (Rmin_r (Conf.impactDelta invoices service deploymentDate * 5) 0.4).
      apply Rmax_lub; [ lra | ].
      eapply Rle_trans; [ apply Rmin_r | lra ]. }
    split; [ exact Hts | split ].
    + rewrite <- toFixed_4_tenths. now apply toFixed_mono.
    + unfold Conf.classification. unfold JS.geb.
      rewrite (proj2 (leb_gt 0.7 _)) by lra.
      destruct (JS.leb 0.3 _); [ discriminate | ].
      destruct (JS.leb 0 _); discriminate.
Qed.

(** X20. The verdict CAUSAL_LINK_CONFIRMED is only given for a culprit whose
    reported confidence exceeds 0.5 and whose spike start lies on the day
    of its deployment or within the three days after it. *)
Theorem confirmed_verdict_is_timed (Date_parse : DateParser) (clock : nat -> Z)
    (ES_REQUIRED esAvailable : bool) (body : Body) (db : Collections)
    (st : ServerState) :
  ES_REQUIRED && negb esAvailable = false ->
  exists report st',
    analyze Date_parse clock ES_REQUIRED esAvailable body db st = (Ok report, st') /\
    (Report.verdict report = "CAUSAL_LINK_CONFIRMED"%string ->
     exists c s d,
       Report.culprit report = Some c /\
       0.5 < Culprit.confidence c /\
       Culprit.spikeStart c = Some s /\
       dateDiffDays Date_parse s (JS.str_slice10 (Culprit.timestamp c)) = Some d /\
       0 <= d <= 3).
Proof.
  intros Hmode.
  destruct (analyze_fields Date_parse clock ES_REQUIRED esAvailable body db st Hmode)
    as (report & st' & Hrun & Hcul & Hv & _).
  exists report, st'. split; [ exact Hrun | ].
  rewrite Hv, Hcul. unfold Orchestration.decision.
  destruct (generate_decision_cases (Orchestration.culprit Date_parse body db)
              (Orchestration.drift body db)) as (_ & Hno & Hnone).
  destruct (Orchestration.culprit Date_parse body db) as [c|] eqn:Hc.
  - intros Hver.
    assert (Hconf : 0.5 < Culprit.confidence c).
    { destruct (Rlt_dec 0.5 (Culprit.confidence c)) as [Hlt | Hge]; [ exact Hlt | ].
      destruct (Hno c eq_refl (Rnot_lt_le _ _ Hge)) as (D1 & _).
      rewrite D1 in Hver. discriminate. }
    destruct (select_culprit_max _ _ Hc) as (Hin & _).
    unfold Orchestration.scored, deploymentsWithConfidence in Hin.
    apply in_map_iff in Hin as (dep & <- & _).
    cbn [Culprit.confidence Culprit.spikeStart Culprit.timestamp] in *.
    destruct (confident_is_timed Date_parse (invoices db)
                (Orchestration.service body) (SysEvent.timestamp dep))
      as (s & d & Hs & Hd & Hr); [ lra | ].
    eexists; exists s, d. split; [ reflexivity | ].
    cbn [Culprit.confidence Culprit.spikeStart Culprit.timestamp].
    split; [ exact Hconf | split; [ exact Hs | split; [ exact Hd | exact Hr ] ] ].
  - destruct (Hnone eq_refl) as (D1 & _). rewrite D1. discriminate.
Qed.

Lemma confirmed_verdict_is_timed_witness :
  exists report st',
    analyze IsoDate.parse (Scenario.clock_at 0) false false Scenario.body
      Scenario.incident_records Scenario.fresh = (Ok report, st') /\
    (Report.verdict report = "CAUSAL_LINK_CONFIRMED"%string ->
     exists c s d,
       Report.culprit report = Some c /\
       0.5 < Culprit.confidence c /\
       Culprit.spikeStart c = Some s /\
       dateDiffDays IsoDate.parse s (JS.str_slice10 (Culprit.timestamp c)) = Some d /\
       0 <= d <= 3).
Proof.
  apply (confirmed_verdict_is_timed IsoDate.parse (Scenario.clock_at 0) false false
           Scenario.body Scenario.incident_records Scenario.fresh).
  reflexivity.
Defined.

(* ================================================================= *)
(** ** Recency and the composite risk score *)

(** X21. A later deployment never has a smaller recency factor than an earlier
    one; a deployment at or before the reference instant has a factor of
    at most 1, and exactly 1 at the reference instant itself. *)
Theorem recency_decay (Date_parse : DateParser) (earlier later : string)
    (decayConstant : R) (t1 t2 n : Z) :
  0 < decayConstant ->
  Date_parse earlier = Some t1 -> Date_parse later = Some t2 ->
  Date_parse "2026-02-21T23:59:59Z"%string = Some n ->
  (t1 <= t2)%Z ->
  exists f1 f2,
    Recency.recencyFactor (computeRecencyFactor Date_parse earlier decayConstant)
    = Some f1 /\
    Recency.recencyFactor (computeRecencyFactor Date_parse later decayConstant)
    = Some f2 /\
    0 <= f1 <= f2 /\
    ((t2 <= n)%Z -> f2 <= 1) /\
    (t2 = n -> f2 = 1).
Proof.
  intros Hk H1 H2 Hn Hle.
  unfold computeRecencyFactor, dateDiffDays. rewrite Hn, H1, H2.
  cbn [option_map Recency.recencyFactor].
  do 2 eexists. split; [ reflexivity | split; [ reflexivity | ] ].
  pose proof msPerDay_pos as Hms.
  assert (Hi : 0 < / msPerDay) by now apply Rinv_0_lt_compat.
  assert (Hik : 0 < / decayConstant) by now apply Rinv_0_lt_compat.
  assert (Hmono : forall a b : Z, (a <= b)%Z ->
            - (IZR (n - b) / msPerDay) / decayConstant
            >= - (IZR (n - a) / msPerDay) / decayConstant).
  { intros a b Hab. apply Rle_ge. unfold Rdiv.
    apply Rmult_le_compat_r; [ lra | ].
    apply Ropp_le_contravar. apply Rmult_le_compat_r; [ lra | ].
    apply IZR_le. lia. }
  assert (Hexp : forall x y, x <= y -> exp x <= exp y).
  { intros x y [Hlt | ->]; [ left; now apply exp_increasing | lra ]. }
  split; [ split | split ].
  - rewrite <- (toFixed_IZR 4 0). apply toFixed_mono. left. apply exp_pos.
  - apply toFixed_mono, Hexp, Rge_le, Hmono, Hle.
  - intros Hpast. rewrite <- (toFixed_IZR 4 1). apply toFixed_mono.
    rewrite <- exp_0. apply Hexp.
    assert (0 <= IZR (n - t2) / msPerDay / decayConstant); [ | unfold Rdiv in *; lra ].
    apply Rmult_le_pos; [ | lra ]. apply Rmult_le_pos; [ | lra ].
    apply IZR_le. lia.
  - intros ->. rewrite Z.sub_diag. unfold Rdiv. rewrite Rmult_0_l, Ropp_0, Rmult_0_l.
    rewrite exp_0. apply (toFixed_IZR 4 1).
Qed.

Lemma recency_decay_witness :
  exists f1 f2,
    Recency.recencyFactor
      (computeRecencyFactor IsoDate.parse "2026-02-10T08:00:00.000Z" 7) = Some f1 /\
    Recency.recencyFactor
      (computeRecencyFactor IsoDate.parse "2026-02-21T23:59:59Z" 7) = Some f2 /\
    0 <= f1 <= f2 /\
    ((1771718399000 <= 1771718399000)%Z -> f2 <= 1) /\
    (1771718399000%Z = 1771718399000%Z -> f2 = 1).
Proof.
  apply (recency_decay IsoDate.parse "2026-02-10T08:00:00.000Z"
           "2026-02-21T23:59:59Z" 7 1770710400000 1771718399000 1771718399000).
  - lra.
  - vm_compute. reflexivity.
  - vm_compute. reflexivity.
  - vm_compute. reflexivity.
  - lia.
Defined.

Lemma filter_none {A} (f : A -> bool) (l : list A) :
  (forall x, In x l -> f x = false) -> filter f l = [].
Proof.
  induction l as [|x l IH]; intros H; simpl; [ reflexivity | ].
  rewrite (H x (or_introl eq_refl)). apply IH. intros y Hy. apply H. now right.
Qed.




(* ================================================================= *)
(** ** The choice of the culprit *)

Lemma hd_sort_insert {A} (cmp : A -> A -> R) (x : A) (l : list A) :
  hd_error (JS.sort_insert cmp x l)
  = match l with
    | [] => Some x
    | y :: _ => if JS.gtb (cmp y x) 0 then Some x else Some y
    end.
Proof. destruct l as [|y l]; simpl; [ | destruct (JS.gtb (cmp y x) 0) ]; reflexivity. Qed.

Lemma sort_fold_first_max {A} (f : A -> R) (l acc : list A) (h : A) :
  hd_error (fold_left (fun acc x => JS.sort_insert (fun a b => f b - f a) x acc) l acc)
  = Some h ->
  (hd_error acc = Some h /\ forall y, In y l -> f y <= f h) \/
  (exists l1 l2, l = l1 ++ h :: l2 /\
     (forall y, In y l1 -> f y < f h) /\
     (forall a, hd_error acc = Some a -> f a < f h) /\
     (forall y, In y l2 -> f y <= f h)).
Proof.
  revert acc. induction l as [|x l IH]; intros acc Hh; simpl in Hh.
  - left. split; [ exact Hh | intros y [] ].
  - specialize (IH _ Hh). rewrite hd_sort_insert in IH.
    destruct IH as [[Hhd Hall] | (l1 & l2 & -> & H1 & Hacc & H2)].
    + destruct acc as [|y acc'].
      * injection Hhd as <-. right. exists [], l.
        split; [ reflexivity | ]. split; [ intros y [] | ].
        split; [ discriminate | exact Hall ].
      * destruct (JS.gtb (f x - f y) 0) eqn:Hc; unfold JS.gtb in Hc;
          injection Hhd as <-.
        -- apply ltb_lt in Hc. right. exists [], l.
           split; [ reflexivity | ]. split; [ intros z [] | ].
           split; [ | exact Hall ].
           intros a Ha. injection Ha as <-. lra.
        -- apply ltb_ge in Hc. left. split; [ reflexivity | ].
           intros z [<- | Hz]; [ lra | now apply Hall ].
    + right. exists (x :: l1), l2. split; [ reflexivity | ].
      destruct acc as [|y acc'].
      * specialize (Hacc x eq_refl).
        split; [ intros z [<- | Hz]; [ exact Hacc | now apply H1 ] | ].
        split; [ discriminate | exact H2 ].
      * destruct (JS.gtb (f x - f y) 0) eqn:Hc; unfold JS.gtb in Hc.
        -- apply ltb_lt in Hc. specialize (Hacc x eq_refl).
           split; [ intros z [<- | Hz]; [ exact Hacc | now apply H1 ] | ].
           split; [ | exact H2 ]. intros a Ha. injection Ha as <-. lra.
        -- apply ltb_ge in Hc. specialize (Hacc y eq_refl).
           split; [ intros z [<- | Hz]; [ lra | now apply H1 ] | ].
           split; [ | exact H2 ]. intros a Ha. injection Ha as <-. exact Hacc.
Qed.

(** X23. The culprit is the first deployment, in the order the history lists
    them, among those of highest confidence: every deployment before it
    scores strictly less, every one after it at most as much.  There is no
    culprit exactly when no deployment was scored. *)
Theorem select_culprit_first_max (scored : list Culprit.t) :
  (select_culprit scored = None <-> scored = []) /\
  (forall c, select_culprit scored = Some c ->
     exists l1 l2, scored = l1 ++ c :: l2 /\
       (forall y, In y l1 -> Culprit.confidence y < Culprit.confidence c) /\
       (forall y, In y l2 -> Culprit.confidence y <= Culprit.confidence c)).
Proof.
  unfold select_culprit. split.
  - split.
    + intros Hnone. destruct scored as [|x l]; [ reflexivity | exfalso ].
      destruct (sort_nonempty
                  (fun a b => Culprit.confidence b - Culprit.confidence a) (x :: l))
        as (h & Hh); [ discriminate | congruence ].
    + intros ->. reflexivity.
  - intros c Hc. unfold JS.sort in Hc.
    destruct (sort_fold_first_max Culprit.confidence scored [] c Hc)
      as [[Hhd _] | (l1 & l2 & E & H1 & _ & H2)]; [ discriminate | ].
    exists l1, l2. now repeat split.
Qed.

(* ================================================================= *)
(** ** The audit log and the agent's logs *)

Lemma logAnalyticProof_effect (clock : nat -> Z) (index label : string)
    (count : nat) (st : ServerState) :
  (List.length (queryAuditLog st) <= 50)%nat ->
  let st1 := snd (logAnalyticProof clock index label count st) in
  clockReads st1 = S (clockReads st) /\
  lastReasoningTrace st1 = lastReasoningTrace st /\
  cachedAgentLogs st1 = cachedAgentLogs st /\
  (exists dropped,
     queryAuditLog st ++ [ tool_entry (clock (clockReads st)) index label count ]
     = dropped ++ queryAuditLog st1) /\
  List.length (queryAuditLog st1) = Nat.min 50 (S (List.length (queryAuditLog st))).
Proof.
  intros Hlen. destruct st as [n q t c]. cbv zeta.
  unfold logAnalyticProof, bind, readClock.
  cbn [snd fst clockReads queryAuditLog lastReasoningTrace cachedAgentLogs] in *.
  split; [ reflexivity | ]. split; [ reflexivity | ]. split; [ reflexivity | ].
  fold (tool_entry (clock n) index label count).
  set (e := tool_entry (clock n) index label count).
  assert (Hl : List.length (q ++ [e]) = S (List.length q))
    by (rewrite length_app; cbn [List.length]; lia).
  destruct (Nat.ltb_spec 50 (List.length (q ++ [e]))) as [Hfull | Hroom].
  - destruct q as [|a q']; [ cbn [List.length app] in Hfull; lia | ].
    split; [ exists [a]; reflexivity | ].
    change (tl ((a :: q') ++ [e])) with (q' ++ [e]).
    rewrite length_app. cbn [List.length] in *. lia.
  - split; [ exists []; reflexivity | ]. rewrite Hl. lia.
Qed.

Lemma push_shift_suffix (q : list AuditEntry.t) (e : AuditEntry.t) :
  (List.length q <= 50)%nat ->
  (exists dropped,
     q ++ [e] = dropped ++ (if (50 <? List.length (q ++ [e]))%nat
                            then tl (q ++ [e]) else q ++ [e])) /\
  List.length (if (50 <? List.length (q ++ [e]))%nat
               then tl (q ++ [e]) else q ++ [e])
  = Nat.min 50 (S (List.length q)).
Proof.
  intros Hlen.
  assert (Hl : List.length (q ++ [e]) = S (List.length q))
    by (rewrite length_app; cbn [List.length]; lia).
  destruct (Nat.ltb_spec 50 (List.length (q ++ [e]))) as [Hfull | Hroom].
  - destruct q as [|a q']; [ cbn [List.length app] in Hfull; lia | ].
    split; [ exists [a]; reflexivity | ].
    change (tl ((a :: q') ++ [e])) with (q' ++ [e]).
    rewrite length_app. cbn [List.length] in *. lia.
  - split; [ exists []; reflexivity | ]. rewrite Hl. lia.
Qed.

Lemma suffix_last {A} (X es dropped q : list A) :
  X ++ es = dropped ++ q -> (List.length es <= List.length q)%nat ->
  JS.slice_last (List.length es) q = es.
Proof.
  intros E Hlen. unfold JS.slice_last.
  assert (Hq : q = skipn (List.length dropped) (X ++ es)).
  { rewrite E, skipn_app, skipn_all, Nat.sub_diag. reflexivity. }
  assert (Hl : (List.length X + List.length es
                = List.length dropped + List.length q)%nat)
    by (rewrite <- !length_app; now rewrite E).
  rewrite Hq at 2. rewrite skipn_skipn.
  replace (List.length q - List.length es + List.length dropped)%nat
    with (List.length X) by lia.
  rewrite skipn_app, skipn_all, Nat.sub_diag. reflexivity.
Qed.

Section AnalyzeEffects.
Variables (Date_parse : DateParser) (clock : nat -> Z)
          (ES_REQUIRED esAvailable : bool) (body : Body) (db : Collections)
          (st : ServerState).

(** What one analysis leaves in the server state. *)
Lemma analyze_state :
  ES_REQUIRED && negb esAvailable = false ->
  (List.length (queryAuditLog st) <= 50)%nat ->
  exists report st',
    analyze Date_parse clock ES_REQUIRED esAvailable body db st = (Ok report, st') /\
    clockReads st' = (8 + clockReads st)%nat /\
    lastReasoningTrace st' = Some (Report.reasoning_trace report) /\
    (exists log,
       cachedAgentLogs st' = cachedAgentLogs st ++ [log] /\
       AgentLog.output log = report /\
       AgentLog.action log = "AGENT_ANALYZE"%string /\
       AgentLog.reasoning log = Report.executive_summary report) /\
    (exists dropped,
       queryAuditLog st ++
       [ tool_entry (clock (clockReads st)) "invoices" "Tool: Anomaly Detection"
           (List.length (Orchestration.serviceInvoices body db));
         tool_entry (clock (1 + clockReads st)%nat) "system_events"
           "Tool: Deployment History"
           (List.length (Orchestration.history body db));
         tool_entry (clock (2 + clockReads st)%nat) "transactions"
           "Tool: Transaction Forensic"
           (FinancialImpact.failed_transactions (Report.financial_impact report));
         tool_entry (clock (3 + clockReads st)%nat) "churn_events"
           "Tool: Churn patterns"
           (FinancialImpact.correlated_churn_events (Report.financial_impact report)) ]
       = dropped ++ queryAuditLog st') /\
    List.length (queryAuditLog st')
    = Nat.min 50 (List.length (queryAuditLog st) + 4).
Proof.
  intros Hmode Hlen. destruct st as [n q t c].
  cbn [queryAuditLog clockReads cachedAgentLogs] in *.
  unfold analyze. rewrite Hmode. run_handler.
  do 2 eexists. split; [ reflexivity | ].
  cbn [clockReads lastReasoningTrace cachedAgentLogs queryAuditLog].
  split; [ reflexivity | ]. split; [ reflexivity | ].
  split; [ eexists; split; [ reflexivity | now repeat split ] | ].
  cbn [Report.financial_impact FinancialImpact.failed_transactions
       FinancialImpact.correlated_churn_events].
  fold (Orchestration.service body).
  fold (Orchestration.serviceInvoices body db).
  fold (Orchestration.history body db).
  match goal with
  | |- context [tool_entry (clock n) ?i ?l ?k] =>
      set (e1 := tool_entry (clock n) i l k)
  end.
  match goal with
  | |- context [tool_entry (clock (1 + n)%nat) ?i ?l ?k] =>
      set (e2 := tool_entry (clock (1 + n)%nat) i l k)
  end.
  match goal with
  | |- context [tool_entry (clock (2 + n)%nat) ?i ?l ?k] =>
      set (e3 := tool_entry (clock (2 + n)%nat) i l k)
  end.
  match goal with
  | |- context [tool_entry (clock (3 + n)%nat) ?i ?l ?k] =>
      set (e4 := tool_entry (clock (3 + n)%nat) i l k)
  end.
  set (q1 := if (50 <? List.length (q ++ [e1]))%nat then tl (q ++ [e1]) else q ++ [e1]).
  set (q2 := if (50 <? List.length (q1 ++ [e2]))%nat then tl (q1 ++ [e2]) else q1 ++ [e2]).
  set (q3 := if (50 <? List.length (q2 ++ [e3]))%nat then tl (q2 ++ [e3]) else q2 ++ [e3]).
  set (q4 := if (50 <? List.length (q3 ++ [e4]))%nat then tl (q3 ++ [e4]) else q3 ++ [e4]).
  destruct (push_shift_suffix q e1 Hlen) as ((d1 & S1) & L1). fold q1 in S1, L1.
  assert (Hlen1 : (List.length q1 <= 50)%nat) by lia.
  destruct (push_shift_suffix q1 e2 Hlen1) as ((d2 & S2) & L2). fold q2 in S2, L2.
  assert (Hlen2 : (List.length q2 <= 50)%nat) by lia.
  destruct (push_shift_suffix q2 e3 Hlen2) as ((d3 & S3) & L3). fold q3 in S3, L3.
  assert (Hlen3 : (List.length q3 <= 50)%nat) by lia.
  destruct (push_shift_suffix q3 e4 Hlen3) as ((d4 & S4) & L4). fold q4 in S4, L4.
  change ((exists dropped, q ++ [e1; e2; e3; e4] = dropped ++ q4) /\
          List.length q4 = Nat.min 50 (List.length q + 4)).
  split; [ | lia ].
  exists (d1 ++ d2 ++ d3 ++ d4).
  change [e1; e2; e3; e4] with ([e1] ++ [e2] ++ [e3] ++ [e4]).
  rewrite !app_assoc. rewrite S1.
  rewrite <- (app_assoc d1 q1 [e2]), S2.
  rewrite (app_assoc d1 d2 q2), <- (app_assoc (d1 ++ d2) q2 [e3]), S3.
  rewrite (app_assoc (d1 ++ d2) d3 q3), <- (app_assoc ((d1 ++ d2) ++ d3) q3 [e4]), S4.
  now rewrite !app_assoc.
Qed.
End AnalyzeEffects.

Lemma slice_last_length {A} (k : nat) (l : list A) :
  (List.length (JS.slice_last k l) <= k)%nat.
Proof. unfold JS.slice_last. rewrite length_skipn. lia. Qed.

Lemma slice_last_snoc {A} (k : nat) (l : list A) (x : A) :
  (1 <= k)%nat ->
  exists older, JS.slice_last k (l ++ [x]) = older ++ [x].
Proof.
  intros Hk. unfold JS.slice_last. rewrite skipn_app.
  exists (skipn (List.length (l ++ [x]) - k) l). f_equal.
  rewrite length_app. cbn [List.length].
  replace (List.length l + 1 - k - List.length l)%nat with 0%nat by lia.
  reflexivity.
Qed.

(** X24. What the observability endpoints answer after an analysis has run:
    [GET /api/agent/logs] lists at most 50 entries, newest first, headed by
    the entry of that analysis, which carries the report; the list behind
    it is never trimmed and has grown by one; [GET /api/proof/reasoning]
    returns the reasoning trace of the report; and
    [GET /api/proof/live-analysis] shows at most 50 audit entries, the last
    four of them those of the four tools, in the order of their calls, with
    the record counts of the report. *)
Theorem analysis_is_observable (Date_parse : DateParser) (clock : nat -> Z)
    (ES_REQUIRED esAvailable : bool) (body : Body) (db : Collections)
    (st : ServerState) :
  ES_REQUIRED && negb esAvailable = false ->
  (List.length (queryAuditLog st) <= 50)%nat ->
  exists report st',
    analyze Date_parse clock ES_REQUIRED esAvailable body db st = (Ok report, st') /\
    (exists log older,
       fst (agent_logs st') = log :: older /\
       AgentLog.output log = report /\
       AgentLog.reasoning log = Report.executive_summary report) /\
    (List.length (fst (agent_logs st')) <= 50)%nat /\
    List.length (cachedAgentLogs st') = S (List.length (cachedAgentLogs st)) /\
    ProofReasoning.last_analysis (fst (proof_reasoning clock st'))
    = Trace (Report.reasoning_trace report) /\
    (LiveAnalysis.total_queries_captured (fst (proof_live_analysis st')) <= 50)%nat /\
    JS.slice_last 4 (LiveAnalysis.audit_log (fst (proof_live_analysis st')))
    = [ tool_entry (clock (clockReads st)) "invoices" "Tool: Anomaly Detection"
          (List.length (Orchestration.serviceInvoices body db));
        tool_entry (clock (1 + clockReads st)%nat) "system_events"
          "Tool: Deployment History"
          (List.length (Orchestration.history body db));
        tool_entry (clock (2 + clockReads st)%nat) "transactions"
          "Tool: Transaction Forensic"
          (FinancialImpact.failed_transactions (Report.financial_impact report));
        tool_entry (clock (3 + clockReads st)%nat) "churn_events"
          "Tool: Churn patterns"
          (FinancialImpact.correlated_churn_events (Report.financial_impact report)) ].
Proof.
  intros Hmode Hlen.
  destruct (analyze_state Date_parse clock ES_REQUIRED esAvailable body db st
              Hmode Hlen)
    as (report & st' & Hrun & _ & Htrace & (log & Hlogs & Hout & _ & Hreason)
        & (dropped & Hsuffix) & Hcount).
  exists report, st'. split; [ exact Hrun | ].
  unfold agent_logs, proof_reasoning, proof_live_analysis, bind, readClock.
  cbn [fst snd lastReasoningTrace queryAuditLog cachedAgentLogs clockReads
       ProofReasoning.last_analysis LiveAnalysis.total_queries_captured
       LiveAnalysis.audit_log].
  split; [ | split; [ | split; [ | split; [ | split ] ] ] ].
  - rewrite Hlogs.
    destruct (slice_last_snoc 50 (cachedAgentLogs st) log ltac:(lia)) as (older & ->).
    rewrite rev_unit. exists log, (rev older). now repeat split.
  - rewrite length_rev. apply slice_last_length.
  - rewrite Hlogs, length_app. cbn [List.length]. lia.
  - now rewrite Htrace.
  - lia.
  - apply (suffix_last (queryAuditLog st) _ dropped (queryAuditLog st') Hsuffix).
    cbn [List.length]. lia.
Qed.

Lemma analysis_is_observable_witness :
  exists report st',
    analyze IsoDate.parse (Scenario.clock_at 0) false false Scenario.body
      Scenario.incident_records Scenario.fresh = (Ok report, st') /\
    (exists log older,
       fst (agent_logs st') = log :: older /\
       AgentLog.output log = report /\
       AgentLog.reasoning log = Report.executive_summary report) /\
    (List.length (fst (agent_logs st')) <= 50)%nat /\
    List.length (cachedAgentLogs st')
    = S (List.length (cachedAgentLogs Scenario.fresh)) /\
    ProofReasoning.last_analysis (fst (proof_reasoning (Scenario.clock_at 0) st'))
    = Trace (Report.reasoning_trace report) /\
    (LiveAnalysis.total_queries_captured (fst (proof_live_analysis st')) <= 50)%nat /\
    JS.slice_last 4 (LiveAnalysis.audit_log (fst (proof_live_analysis st')))
    = [ tool_entry (Scenario.clock_at 0 (clockReads Scenario.fresh))
          "invoices" "Tool: Anomaly Detection"
          (List.length (Orchestration.serviceInvoices Scenario.body
                          Scenario.incident_records));
        tool_entry (Scenario.clock_at 0 (1 + clockReads Scenario.fresh)%nat)
          "system_events" "Tool: Deployment History"
          (List.length (Orchestration.history Scenario.body
                          Scenario.incident_records));
        tool_entry (Scenario.clock_at 0 (2 + clockReads Scenario.fresh)%nat)
          "transactions" "Tool: Transaction Forensic"
          (FinancialImpact.failed_transactions (Report.financial_impact report));
        tool_entry (Scenario.clock_at 0 (3 + clockReads Scenario.fresh)%nat)
          "churn_events" "Tool: Churn patterns"
          (FinancialImpact.correlated_churn_events (Report.financial_impact report)) ].
Proof.
  apply (analysis_is_observable IsoDate.parse (Scenario.clock_at 0) false false
           Scenario.body Scenario.incident_records Scenario.fresh).
  - reflexivity.
  - simpl. lia.
Defined.

(** X25. The Correlate step counts nothing without a spike start: with no day
    above the drift factor 2 the report shows no failed transaction and no
    churn event, whatever the records hold.  With a spike start it counts
    the failed transactions, and the churn events, stamped at or after
    it. *)
Theorem correlation_needs_spike (Date_parse : DateParser) (clock : nat -> Z)
    (ES_REQUIRED esAvailable : bool) (body : Body) (db : Collections)
    (st : ServerState) :
  ES_REQUIRED && negb esAvailable = false ->
  exists report st',
    analyze Date_parse clock ES_REQUIRED esAvailable body db st = (Ok report, st') /\
    let spikeStart :=
      findSpikeStart (DriftResult.dailyDrift (Orchestration.drift body db)) 2.0 in
    (spikeStart = None ->
     FinancialImpact.failed_transactions (Report.financial_impact report) = 0%nat /\
     FinancialImpact.correlated_churn_events (Report.financial_impact report) = 0%nat) /\
    (forall s, spikeStart = Some s -> s <> ""%string ->
     FinancialImpact.failed_transactions (Report.financial_impact report)
     = List.length (filter (fun t => String.eqb (Txn.status t) "FAILED"
                                     && str_geb (Txn.timestamp t) s)
                           (transactions db)) /\
     FinancialImpact.correlated_churn_events (Report.financial_impact report)
     = List.length (filter (fun c => str_geb (ChurnEvent.timestamp c) s)
                           (churn db))).
Proof.
  intros Hmode. destruct st as [n q t c].
  unfold analyze. rewrite Hmode. run_handler.
  do 2 eexists. split; [ reflexivity | ].
  cbn [Report.financial_impact FinancialImpact.failed_transactions
       FinancialImpact.correlated_churn_events].
  fold (Orchestration.service body).
  fold (Orchestration.serviceInvoices body db).
  fold (Orchestration.drift body db).
  cbv zeta. split.
  - intros ->. unfold since_spike. split.
    + rewrite filter_none; [ reflexivity | ].
      intros x _. apply andb_false_r.
    + rewrite filter_none; reflexivity.
  - intros s -> Hs. unfold since_spike, JS.truthy.
    rewrite (proj2 (String.eqb_neq s "") Hs). split; reflexivity.
Qed.

Lemma correlation_needs_spike_witness :
  exists report st',
    analyze IsoDate.parse (Scenario.clock_at 0) false false Scenario.body
      Scenario.unclear_records Scenario.fresh = (Ok report, st') /\
    let spikeStart :=
      findSpikeStart
        (DriftResult.dailyDrift
           (Orchestration.drift Scenario.body Scenario.unclear_records)) 2.0 in
    (spikeStart = None ->
     FinancialImpact.failed_transactions (Report.financial_impact report) = 0%nat /\
     FinancialImpact.correlated_churn_events (Report.financial_impact report) = 0%nat) /\
    (forall s, spikeStart = Some s -> s <> ""%string ->
     FinancialImpact.failed_transactions (Report.financial_impact report)
     = List.length (filter (fun t => String.eqb (Txn.status t) "FAILED"
                                     && str_geb (Txn.timestamp t) s)
                           (transactions Scenario.unclear_records)) /\
     FinancialImpact.correlated_churn_events (Report.financial_impact report)
     = List.length (filter (fun c => str_geb (ChurnEvent.timestamp c) s)
                           (churn Scenario.unclear_records))).
Proof.
  apply (correlation_needs_spike IsoDate.parse (Scenario.clock_at 0) false false
           Scenario.body Scenario.unclear_records Scenario.fresh).
  reflexivity.
Defined.

(* ================================================================= *)
(** ** Sorting by a numeric key *)

Lemma sort_insert_key_sorted {A} (cmp : A -> A -> R) (g : A -> R) (x : A)
    (l : list A) :
  (forall a b, cmp a b = g a - g b) ->
  StronglySorted (fun a b => g a <= g b) l ->
  StronglySorted (fun a b => g a <= g b) (JS.sort_insert cmp x l).
Proof.
  intros Hcmp. induction 1 as [|y l Hl IH Hy]; simpl.
  - repeat constructor.
  - rewrite Hcmp. unfold JS.gtb. destruct (JS.ltb 0 (g y - g x)) eqn:Hc.
    + apply ltb_lt in Hc. constructor; [ now constructor | ].
      constructor; [ lra | ].
      rewrite Forall_forall in *. intros z Hz. specialize (Hy z Hz). lra.
    + apply ltb_ge in Hc. constructor; [ exact IH | ].
      rewrite Forall_forall in *. intros z Hz.
      apply sort_insert_In in Hz as [-> | Hz]; [ lra | now apply Hy ].
Qed.

(** A comparator that subtracts keys sorts by ascending key. *)
Lemma sort_key_sorted {A} (cmp : A -> A -> R) (g : A -> R) (l : list A) :
  (forall a b, cmp a b = g a - g b) ->
  StronglySorted (fun a b => g a <= g b) (JS.sort cmp l).
Proof.
  intros Hcmp. unfold JS.sort.
  assert (G : forall l acc,
            StronglySorted (fun a b => g a <= g b) acc ->
            StronglySorted (fun a b => g a <= g b)
              (fold_left (fun acc x => JS.sort_insert cmp x acc) l acc)).
  { clear l. induction l as [|x l IH]; intros acc Hacc; simpl; [ exact Hacc | ].
    apply IH, sort_insert_key_sorted; assumption. }
  apply G. constructor.
Qed.

Lemma StronglySorted_split {A} (le : A -> A -> Prop) (l1 l2 : list A) :
  StronglySorted le (l1 ++ l2) ->
  StronglySorted le l1 /\ StronglySorted le l2 /\
  forall a b, In a l1 -> In b l2 -> le a b.
Proof.
  induction l1 as [|x l1 IH]; simpl; intros Hs.
  - split; [ constructor | split; [ exact Hs | intros a b [] ] ].
  - inversion Hs as [|? ? Hs' Hx]; subst.
    destruct (IH Hs') as (H1 & H2 & H12). rewrite Forall_forall in Hx.
    split; [ constructor; [ exact H1 | ] | split; [ exact H2 | ] ].
    + rewrite Forall_forall. intros z Hz. apply Hx, in_or_app. now left.
    + intros a b [<- | Ha] Hb; [ apply Hx, in_or_app; now right | now apply H12 ].
Qed.

(* ================================================================= *)
(** ** [GET /api/anomalies] *)

Lemma slice_to_firstn {A} (k : nat) (l : list A) :
  JS.slice_to (Z.of_nat k) l = firstn k l.
Proof.
  unfold JS.slice_to. destruct (Z.ltb_spec (Z.of_nat k) 0); [ lia | ].
  destruct (Nat.le_gt_cases k (List.length l)) as [Hk | Hk].
  - rewrite Z.min_l by lia. now rewrite Nat2Z.id.
  - rewrite Z.min_r by lia. rewrite Nat2Z.id.
    rewrite firstn_all. symmetry. apply firstn_all2. lia.
Qed.

(** X27. The response counts the invoices of the filter and the underbilled
    ones among them, and reports their ratio as a percentage in [0, 100].
    [topAnomalies] holds the 50 largest losses, or all of them when there
    are fewer: it is the head of a ranking of every underbilled invoice in
    descending order of the rounded loss, no entry left out of it has a
    larger loss than one kept, and no loss is negative. *)
Theorem anomalies_ranking (invoices : list Invoice.t) (service : option string) :
  let resp := api_anomalies invoices service in
  (AnomaliesResponse.anomalyCount resp <= AnomaliesResponse.totalInvoices resp)%nat /\
  0 <= AnomaliesResponse.anomalyRate resp <= 100 /\
  List.length (AnomaliesResponse.topAnomalies resp)
  = Nat.min 50 (AnomaliesResponse.anomalyCount resp) /\
  StronglySorted (fun a b => TopAnomaly.loss b <= TopAnomaly.loss a)
                 (AnomaliesResponse.topAnomalies resp) /\
  (exists rest,
     Permutation (AnomaliesResponse.topAnomalies resp ++ rest)
                 (map Anomalies.entry (Anomalies.anomalies invoices service)) /\
     forall a b, In a (AnomaliesResponse.topAnomalies resp) -> In b rest ->
                 TopAnomaly.loss b <= TopAnomaly.loss a) /\
  (forall a, In a (AnomaliesResponse.topAnomalies resp) ->
     0 <= TopAnomaly.loss a /\
     TopAnomaly.amountBilled a < TopAnomaly.amountExpected a).
Proof.
  cbv zeta. unfold api_anomalies.
  cbn [AnomaliesResponse.anomalyCount AnomaliesResponse.totalInvoices
       AnomaliesResponse.anomalyRate AnomaliesResponse.topAnomalies].
  unfold Anomalies.topAnomalies. change 50%Z with (Z.of_nat 50).
  rewrite slice_to_firstn.
  set (ranked := Anomalies.ranked invoices service).
  assert (Hperm : Permutation ranked
                    (map Anomalies.entry (Anomalies.anomalies invoices service)))
    by apply sort_perm.
  assert (Hsorted : StronglySorted
                      (fun a b => - TopAnomaly.loss a <= - TopAnomaly.loss b) ranked).
  { apply (sort_key_sorted _ (fun a => - TopAnomaly.loss a)). intros a b. lra. }
  rewrite <- (firstn_skipn 50 ranked) in Hsorted.
  apply StronglySorted_split in Hsorted as (Htop & _ & Hcut).
  assert (Hlen : List.length ranked = Anomalies.anomalyCount invoices service).
  { rewrite (Permutation_length Hperm), length_map. reflexivity. }
  split; [ | split; [ | split; [ | split; [ | split ] ] ] ].
  - unfold Anomalies.anomalyCount, Anomalies.totalInvoices, Anomalies.anomalies.
    apply filter_length_le.
  - apply (toFixed_between 2 0 100).
    pose proof (fraction_unit underbilled (Anomalies.filtered invoices service)) as Hf.
    unfold Anomalies.anomalyRate, Anomalies.anomalyCount, Anomalies.totalInvoices,
      Anomalies.anomalies. unfold JS.len in Hf.
    destruct (0 <? List.length (Anomalies.filtered invoices service))%nat; lra.
  - rewrite length_firstn, Hlen. reflexivity.
  - clear -Htop. induction Htop as [|a l Hl IH Ha]; constructor; [ exact IH | ].
    rewrite Forall_forall in *. intros b Hb. specialize (Ha b Hb). lra.
  - exists (skipn 50 ranked). split.
    + rewrite firstn_skipn. exact Hperm.
    + intros a b Ha Hb. specialize (Hcut a b Ha Hb). lra.
  - intros a Ha.
    assert (Hr : In a ranked)
      by (rewrite <- (firstn_skipn 50 ranked); apply in_or_app; now left).
    apply (Permutation_in _ Hperm) in Hr. rename Hr into Hin. clear Ha.
    pose proof Hin as Ha.
    apply in_map_iff in Ha as (inv & <- & Hinv).
    apply filter_In in Hinv as [_ Hu]. unfold underbilled in Hu. apply ltb_lt in Hu.
    cbn [Anomalies.entry TopAnomaly.loss TopAnomaly.amountBilled
         TopAnomaly.amountExpected].
    split; [ | exact Hu ].
    rewrite <- (toFixed_IZR 2 0). apply toFixed_mono. lra.
Qed.

(* ================================================================= *)
(** ** The alignment status of [GET /api/deployment-impact] *)

(** X28. The alignment status the deployment-impact endpoint shows for a
    deployment names the temporal score [computeConfidence] gives it:
    PERFECT_ALIGNMENT is the score 1, PROBABLE_LAGGED_CAUSATION 0.7,
    COINCIDENTAL -0.5, and UNKNOWN or UNRELATED_TEMPORAL_WINDOW the score
    0; both read the same spike start, and the status is UNKNOWN exactly
    when no spike is detected. *)
Theorem alignment_matches_temporal_score (Date_parse : DateParser)
    (invoices : list Invoice.t) (service depTime : string) :
  let rigor := causal_rigor Date_parse (Conf.serviceInvoices invoices service) depTime in
  let conf := computeConfidence Date_parse invoices service depTime in
  CausalRigor.observed_spike_start rigor = Confidence.spikeStart conf /\
  (CausalRigor.alignment_status rigor = "PERFECT_ALIGNMENT"%string
   <-> Confidence.temporalScore conf = 1) /\
  (CausalRigor.alignment_status rigor = "PROBABLE_LAGGED_CAUSATION"%string
   <-> Confidence.temporalScore conf = 0.7) /\
  (CausalRigor.alignment_status rigor = "COINCIDENTAL (SPIKE_PRECEEDED_DEPLOY)"%string
   <-> Confidence.temporalScore conf = -0.5) /\
  (CausalRigor.alignment_status rigor = "UNKNOWN"%string \/
   CausalRigor.alignment_status rigor = "UNRELATED_TEMPORAL_WINDOW"%string
   <-> Confidence.temporalScore conf = 0) /\
  (CausalRigor.alignment_status rigor = "UNKNOWN"%string
   <-> CausalRigor.spike_detected rigor = false).
Proof.
  cbv zeta. unfold causal_rigor, computeConfidence. cbv zeta.
  cbn [CausalRigor.observed_spike_start CausalRigor.alignment_status
       CausalRigor.spike_detected Confidence.spikeStart Confidence.temporalScore].
  unfold Conf.temporalScore, Conf.spikeStart, Conf.drift, findSpikeStart.
  fold (Conf.serviceInvoices invoices service).
  destruct (find _ _) as [d|]; cbn [option_map].
  - split; [ reflexivity | ].
    destruct (JS.truthy (DailyDrift.date d)).
    + destruct (dateDiffDays Date_parse (DailyDrift.date d) (JS.str_slice10 depTime))
        as [diff|].
      * destruct (JS.geb diff 0 && JS.leb diff 1);
          [ repeat split; intros; try discriminate; try lra; try tauto;
            try (destruct H; discriminate) | ].
        destruct (JS.gtb diff 1 && JS.leb diff 3);
          [ repeat split; intros; try discriminate; try lra; try tauto;
            try (destruct H; discriminate) | ].
        destruct (JS.ltb diff 0);
          repeat split; intros; try discriminate; try lra; try tauto;
            try (destruct H; discriminate).
      * repeat split; intros; try discriminate; try lra; try tauto.
    + repeat split; intros; try discriminate; try lra; try tauto.
  - split; [ reflexivity | ].
    repeat split; intros; try discriminate; try lra; try tauto.
Qed.

(* ================================================================= *)
(** ** The remediation block of [GET /api/explainability] *)

Lemma find_all_false {A} (f : A -> bool) (l : list A) :
  (forall x, In x l -> f x = false) -> find f l = None.
Proof.
  induction l as [|x l IH]; intros H; simpl; [ reflexivity | ].
  rewrite (H x (or_introl eq_refl)). apply IH. intros y Hy. apply H. now right.
Qed.

Lemma classification_is_not_a_fix (Date_parse : DateParser)
    (invoices : list Invoice.t) (service deploymentDate : string) :
  String.eqb (Confidence.classification
                (computeConfidence Date_parse invoices service deploymentDate))
             "STRONG FIX" = false.
Proof.
  unfold computeConfidence. cbn [Confidence.classification].
  unfold Conf.classification.
  destruct (JS.geb _ 0.7); [ reflexivity | ].
  destruct (JS.geb _ 0.3); [ reflexivity | ].
  destruct (JS.geb _ 0); reflexivity.
Qed.

Lemma reported_confidence_bounds (Date_parse : DateParser)
    (invoices : list Invoice.t) (service deploymentDate : string) :
  -1 <= Confidence.confidence
          (computeConfidence Date_parse invoices service deploymentDate) <= 1.
Proof.
  unfold computeConfidence. cbn [Confidence.confidence].
  apply (toFixed_between 4 (-1) 1), clamp_bounds.
Qed.

(** X29. No classification is ever "STRONG FIX", so the explainability report
    never finds a fixing deployment: the remediation status is always
    PENDING.  It recommends rolling back a deployment of the service
    scored below -0.1, with that score's magnitude as confidence; when no
    deployment of the service scores below -0.1 it recommends the audit,
    with confidence 0. *)
Theorem remediation_never_fixed (Date_parse : DateParser)
    (invoices : list Invoice.t) (events : list SysEvent.t) (service : string) :
  let r := Explain.remediation Date_parse invoices events service in
  Explain.fixDep Date_parse invoices events service = None /\
  Remediation.status r = "PENDING"%string /\
  0 <= Remediation.confidence r <= 1 /\
  match Explain.faultyDep Date_parse invoices events service with
  | Some faulty =>
      Remediation.action r
      = [ Lit "RECOMMENDED: Rollback "; Lit (SysEvent.version (fst faulty));
          Lit " immediately." ] /\
      0.1 < Remediation.confidence r /\
      In (fst faulty) events /\
      SysEvent.service (fst faulty) = service /\
      snd faulty = computeConfidence Date_parse invoices service
                     (SysEvent.timestamp (fst faulty))
  | None =>
      Remediation.action r = [ Lit "RECOMMENDED: Audit pricing service logs." ] /\
      Remediation.confidence r = 0 /\
      forall dep, In dep events ->
        SysEvent.eventType dep = "deployment"%string ->
        SysEvent.service dep = service ->
        -0.1 <= Confidence.confidence
                  (computeConfidence Date_parse invoices service
                     (SysEvent.timestamp dep))
  end.
Proof.
  cbv zeta.
  assert (Hfix : Explain.fixDep Date_parse invoices events service = None).
  { unfold Explain.fixDep, Explain.significantDeployments.
    apply find_all_false. intros d Hd.
    apply in_map_iff in Hd as (dep & <- & _). cbn [snd].
    apply classification_is_not_a_fix. }
  unfold Explain.remediation. rewrite Hfix.
  cbn [Remediation.status Remediation.confidence Remediation.action].
  split; [ reflexivity | split; [ reflexivity | ] ].
  destruct (Explain.faultyDep Date_parse invoices events service) as [faulty|] eqn:Hf.
  - unfold Explain.faultyDep in Hf. apply find_some in Hf as [Hin Hlt].
    apply ltb_lt in Hlt.
    unfold Explain.significantDeployments in Hin.
    apply in_map_iff in Hin as (dep & <- & Hdep). cbn [fst snd] in *.
    pose proof (reported_confidence_bounds Date_parse invoices service
                  (SysEvent.timestamp dep)) as Hb.
    rewrite Rabs_left by lra.
    unfold Explain.deployments in Hdep. apply sort_In, filter_In in Hdep as [Hev Hc].
    apply andb_prop in Hc as [_ Hs]. apply String.eqb_eq in Hs.
    split; [ lra | ]. split; [ reflexivity | ]. split; [ lra | ].
    split; [ exact Hev | split; [ exact Hs | reflexivity ] ].
  - split; [ lra | ]. split; [ reflexivity | split; [ reflexivity | ] ].
    intros dep Hev Ht Hs.
    unfold Explain.faultyDep in Hf.
    assert (Hin : In (dep, computeConfidence Date_parse invoices service
                             (SysEvent.timestamp dep))
                     (Explain.significantDeployments Date_parse invoices events service)).
    { unfold Explain.significantDeployments.
      apply (in_map (fun dep => (dep, computeConfidence Date_parse invoices service
                                        (SysEvent.timestamp dep)))).
      unfold Explain.deployments. apply sort_In, filter_In. split; [ exact Hev | ].
      apply andb_true_intro. split; now apply String.eqb_eq. }
    pose proof (find_none _ _ Hf _ Hin) as Hn. cbn [snd] in Hn.
    now apply ltb_ge in Hn.
Qed.

(* ================================================================= *)
(** ** The order of the alerts *)

Lemma severity_key_values :
  severity_key "CRITICAL" = 99 /\ severity_key "HIGH" = 1 /\
  severity_key "MEDIUM" = 2.
Proof.
  unfold severity_key, severityOrder. simpl.
  rewrite (proj2 (eqb_eq 0 0)) by reflexivity.
  rewrite (proj2 (eqb_neq 1 0)), (proj2 (eqb_neq 2 0)) by lra.
  now repeat split.
Qed.

Ltac severity_cases :=
  repeat match goal with
         | |- Forall _ [] => apply Forall_nil
         | |- Forall _ (_ :: _) => apply Forall_cons; [ cbn [Alert.severity] | ]
         | |- context [if ?c then _ else _] => destruct c
         | |- _ \/ _ =>
             first [ left; reflexivity | right; left; reflexivity
                   | right; right; reflexivity ]
         end.

Lemma service_alerts_shape (clock : nat -> Z) (invoices : list Invoice.t)
    (service : string) (st : ServerState) :
  let alerts := fst (service_alerts clock invoices service st) in
  let st' := snd (service_alerts clock invoices service st) in
  (List.length alerts <= 3)%nat /\
  clockReads st' = (clockReads st + List.length alerts)%nat /\
  Forall (fun a => Alert.severity a = "CRITICAL"%string \/
                   Alert.severity a = "HIGH"%string \/
                   Alert.severity a = "MEDIUM"%string) alerts.
Proof.
  cbv zeta. unfold service_alerts. cbv zeta.
  destruct st as [n q t c].
  destruct (JS.gtb (DriftResult.currentRate _) (Thresholds.anomalyRate THRESHOLDS));
    destruct (JS.gtb (DriftResult.driftFactor _) (Thresholds.driftFactor THRESHOLDS));
    destruct (JS.gtb (JS.sum_by _ _) (Thresholds.revenueLoss THRESHOLDS));
    cbv beta iota zeta delta [bind ret readClock clockReads queryAuditLog
                              lastReasoningTrace cachedAgentLogs fst snd app];
    (split; [ cbn [List.length]; lia | ]);
    (split; [ cbn [List.length]; lia | ]);
    severity_cases.
Qed.

(** X30. The response counts its alerts, at most nine, each stamped by its own
    reading of the clock and of severity CRITICAL, HIGH or MEDIUM.  They
    are sorted by the key [severityOrder[severity] || 99], which is 1 for
    HIGH, 2 for MEDIUM and, the order 0 being falsy, 99 for CRITICAL: the
    critical alerts come last, behind every other alert. *)
Theorem alerts_order (clock : nat -> Z) (invoices : list Invoice.t)
    (st : ServerState) :
  let resp := fst (api_alerts clock invoices st) in
  let st' := snd (api_alerts clock invoices st) in
  AlertsResponse.activeAlerts resp = List.length (AlertsResponse.alerts resp) /\
  (AlertsResponse.activeAlerts resp <= 9)%nat /\
  clockReads st' = (clockReads st + AlertsResponse.activeAlerts resp)%nat /\
  (forall a, In a (AlertsResponse.alerts resp) ->
     Alert.severity a = "CRITICAL"%string \/ Alert.severity a = "HIGH"%string \/
     Alert.severity a = "MEDIUM"%string) /\
  StronglySorted
    (fun a b => severity_key (Alert.severity a) <= severity_key (Alert.severity b))
    (AlertsResponse.alerts resp) /\
  severity_key "CRITICAL" = 99 /\ severity_key "HIGH" = 1 /\
  severity_key "MEDIUM" = 2 /\
  (forall l1 a l2,
     AlertsResponse.alerts resp = l1 ++ a :: l2 ->
     Alert.severity a = "CRITICAL"%string ->
     forall b, In b l2 -> Alert.severity b = "CRITICAL"%string).
Proof.
  cbv zeta. unfold api_alerts, bind.
  pose proof (service_alerts_shape clock invoices "billing-service" st) as H1.
  destruct (service_alerts clock invoices "billing-service" st) as [l1 st1].
  pose proof (service_alerts_shape clock invoices "subscription-service" st1) as H2.
  destruct (service_alerts clock invoices "subscription-service" st1) as [l2 st2].
  pose proof (service_alerts_shape clock invoices "tax-service" st2) as H3.
  destruct (service_alerts clock invoices "tax-service" st2) as [l3 st3].
  cbn [fst snd] in *. cbv zeta in H1, H2, H3.
  destruct H1 as (N1 & C1 & S1), H2 as (N2 & C2 & S2), H3 as (N3 & C3 & S3).
  unfold ret. cbn [fst snd AlertsResponse.activeAlerts AlertsResponse.alerts].
  set (cmp := fun a b : Alert.t =>
                severity_key (Alert.severity a) - severity_key (Alert.severity b)).
  set (sorted := JS.sort cmp (l1 ++ l2 ++ l3)).
  assert (Hperm : Permutation sorted (l1 ++ l2 ++ l3)) by apply sort_perm.
  assert (Hlen : List.length sorted
                 = (List.length l1 + List.length l2 + List.length l3)%nat).
  { rewrite (Permutation_length Hperm), !length_app. lia. }
  assert (Hsev : forall a, In a sorted ->
            Alert.severity a = "CRITICAL"%string \/
            Alert.severity a = "HIGH"%string \/
            Alert.severity a = "MEDIUM"%string).
  { intros a Ha. apply (Permutation_in _ Hperm) in Ha.
    rewrite Forall_forall in S1, S2, S3.
    apply in_app_or in Ha as [Ha | Ha]; [ now apply S1 | ].
    apply in_app_or in Ha as [Ha | Ha]; [ now apply S2 | now apply S3 ]. }
  assert (Hsorted : StronglySorted
            (fun a b => severity_key (Alert.severity a)
                        <= severity_key (Alert.severity b)) sorted).
  { apply (sort_key_sorted cmp (fun a => severity_key (Alert.severity a))).
    intros a b. reflexivity. }
  destruct severity_key_values as (KC & KH & KM).
  split; [ reflexivity | ]. split; [ lia | ]. split; [ lia | ].
  split; [ exact Hsev | ]. split; [ exact Hsorted | ].
  split; [ exact KC | split; [ exact KH | split; [ exact KM | ] ] ].
  intros p a s E Ha b Hb. rewrite E in Hsorted, Hsev.
  apply StronglySorted_split in Hsorted as (_ & Htail & _).
  inversion Htail as [|? ? _ Hall]; subst. rewrite Forall_forall in Hall.
  specialize (Hall b Hb). cbv beta in Hall. rewrite Ha, KC in Hall.
  destruct (Hsev b) as [Hc | [Hh | Hm]].
  - apply in_or_app. right. now right.
  - exact Hc.
  - rewrite Hh, KH in Hall. lra.
  - rewrite Hm, KM in Hall. lra.
Qed.
